(** * libterminal: the vi-style input handler and the render buffer builder

    A shallow embedding of [src/terminal/ViInputHandler.cpp] and
    [src/terminal/RenderBufferBuilder.cpp], and the properties of both that
    the design document states.

    Conventions.
    - Fixed-width unsigned integers are [Z] with the wrap-around written out
      ([wrap32], [wrap64]); [char32_t] code points are [Z].
    - A member function that mutates the object is a computation in a small
      state-and-failure monad over the object's fields.
    - [Require(...)], [assert(...)], an out-of-range [vector::at], an index
      past the end and a dereference of an empty [optional] end the
      computation with a named failure. *)

From Stdlib Require Import ZArith List Bool Ascii Lia.
From stdpp Require Import base list.
Import ListNotations.
Open Scope Z_scope.

(** ** Machine integers and characters *)

Definition wrap32 (z : Z) : Z := z mod 2 ^ 32.
Definition wrap64 (z : Z) : Z := z mod 2 ^ 64.

(** A narrow character literal, ['x'] in the source. *)
Definition chr (a : ascii) : Z := Z.of_nat (nat_of_ascii a).

(** [std::u32string]. *)
Definition u32string := list Z.

(** A C++ [switch] over integral case labels: labels are pairwise distinct
    constants, so the first hit is the only one. *)
Fixpoint switch {A : Type} (v : Z) (cases : list (Z * A)) (default : A) : A :=
  match cases with
  | [] => default
  | (label, body) :: rest => if v =? label then body else switch v rest default
  end.

(** ** Computations over an object's state

    [M S A] is a member function of an object with fields [S] that returns an
    [A]: it ends with a value and the new fields, or with a failure. *)

Inductive Failure :=
| RequireFailed        (* [Require(cond)] with a false condition *)
| AssertFailed         (* [assert(cond)] with a false condition *)
| BadOptionalAccess    (* [operator->] on an empty [optional] *)
| OutOfRange           (* [vector::at] past the end *)
| PastTheEnd           (* [vector::operator[]] past the end *)
| BackOfEmpty.         (* [vector::back] of an empty vector *)

Inductive Outcome (S A : Type) :=
| Done (a : A) (s : S)
| Abort (why : Failure).
Arguments Done {S A} a s.
Arguments Abort {S A} why.

Definition M (S A : Type) : Type := S -> Outcome S A.

Definition ret {S A} (a : A) : M S A := fun s => Done a s.

Definition bind {S A B} (c : M S A) (k : A -> M S B) : M S B :=
  fun s => match c s with
           | Done a s' => k a s'
           | Abort why => Abort why
           end.

Notation "x <- c ;; k" := (bind c (fun x => k))
  (at level 100, c at next level, right associativity).
Notation "c ;;; k" := (bind c (fun _ => k))
  (at level 100, right associativity).

Definition get {S A} (field : S -> A) : M S A :=
  fun s => Done (field s) s.

Definition modify {S} (f : S -> S) : M S unit :=
  fun s => Done tt (f s).

Definition fail {S A} (why : Failure) : M S A :=
  fun _ => Abort why.

Definition require {S} (cond : bool) : M S unit :=
  if cond then ret tt else fail RequireFailed.

Definition assert {S} (cond : bool) : M S unit :=
  if cond then ret tt else fail AssertFailed.

(** A block that may [return] a value, followed by the rest of the body. *)
Definition returning {S A} (block : M S (option A)) (rest : M S A) : M S A :=
  r <- block ;; match r with Some a => ret a | None => rest end.

(** * ViInputHandler *)

Module ViMode.
Inductive t := Normal | Insert | Visual | VisualLine | VisualBlock.
Definition eqb (a b : t) : bool :=
  match a, b with
  | Normal, Normal | Insert, Insert | Visual, Visual
  | VisualLine, VisualLine | VisualBlock, VisualBlock => true
  | _, _ => false
  end.
End ViMode.

Module ViMotion.
Inductive t :=
| CharLeft | CharRight | FileBegin | FileEnd | FullLine
| LineBegin | LineDown | LineEnd | LineTextBegin | LineUp
| PageBottom | PageDown | PageTop | PageUp
| ParagraphBackward | ParagraphForward | ParenthesisMatching
| ScreenColumn | SearchResultBackward | SearchResultForward
| Selection | WordBackward | WordEndForward | WordForward.
End ViMotion.

Module ViOperator.
Inductive t := MoveCursor | Yank | Paste | ReverseSearchCurrentWord.
End ViOperator.

Module TextObject.
Inductive t :=
| AngleBrackets | BackQuotes | CurlyBrackets | DoubleQuotes | Paragraph
| RoundBrackets | SingleQuotes | SquareBrackets | Word.
End TextObject.

Module TextObjectScope.
Inductive t := Inner | A.
End TextObjectScope.

Module SearchEditMode.
Inductive t := Disabled | Enabled | ExternallyEnabled.
Definition eqb (a b : t) : bool :=
  match a, b with
  | Disabled, Disabled | Enabled, Enabled
  | ExternallyEnabled, ExternallyEnabled => true
  | _, _ => false
  end.
End SearchEditMode.

(** The keys [sendKeyPressEvent] distinguishes; every other key of the
    enumeration is [Other]. *)
Module Key.
Inductive t :=
| DownArrow | LeftArrow | RightArrow | UpArrow | Insert
| Home | End_ | PageUp | PageDown | Other (n : nat).
End Key.

(** Modelled from the spec: the class [Modifier] is declared in
    [InputGenerator.h], which is not among the sources.  The design document
    has the modifiers Shift and Control, events with "no modifier" and Shift
    "stripped before match"; [Modifier] is modelled as the bit mask of the
    keys Shift, Alt, Control and Meta, one bit each.  The handler relies only
    on the keys being distinct single bits below bit 5, where
    [InputMatch::code] puts them. *)
Module Modifier.
Definition t := Z.
Definition None : t := 0.
Definition Shift : t := 1.
Definition Alt : t := 2.
Definition Control : t := 4.
Definition Meta : t := 8.
Definition value (m : t) : Z := m.
Definition none (m : t) : bool := m =? 0.
Definition any (m : t) : bool := negb (m =? 0).
(** [mask & ~key] *)
Definition without (m key : t) : t := Z.ldiff m key.
End Modifier.

Module Vi.

(** [InputMatch], the (modifier, character) pair that the handler switches
    on through its conversion to [uint32_t]. *)
Record InputMatch := { im_modifier : Modifier.t; im_ch : Z }.

Definition code (m : InputMatch) : Z :=
  Z.lor (wrap32 (Z.shiftl (im_ch m) 5))
        (Z.land (Modifier.value (im_modifier m)) 31).

(** ['x'_key] *)
Definition key_ (ch : Z) : InputMatch :=
  {| im_modifier := Modifier.None; im_ch := ch |}.

(** [modifier | 'x'] and ['x' | modifier] *)
Definition with_ (modifier : Modifier.t) (ch : Z) : InputMatch :=
  {| im_modifier := modifier; im_ch := ch |}.

Definition charToTextObject (ch : Z) : option TextObject.t :=
  switch ch
    [ (34, Some TextObject.DoubleQuotes);
      (chr "(", Some TextObject.RoundBrackets);
      (chr "<", Some TextObject.AngleBrackets);
      (chr "[", Some TextObject.SquareBrackets);
      (chr "'", Some TextObject.SingleQuotes);
      (chr "`", Some TextObject.BackQuotes);
      (chr "p", Some TextObject.Paragraph);
      (chr "w", Some TextObject.Word);
      (chr "{", Some TextObject.CurlyBrackets) ]
    None.

(** The [Executor] interface, as the calls made on it. *)
Inductive ExecutorCall :=
| modeChanged (newMode : ViMode.t)
| moveCursor (motion : ViMotion.t) (count : Z)
| execute_ (op : ViOperator.t) (motion : ViMotion.t) (count : Z)
| yank_ (scope : TextObjectScope.t) (textObject : TextObject.t)
| select_ (scope : TextObjectScope.t) (textObject : TextObject.t)
| paste (count : Z)
| searchStart
| updateSearchTerm (term : u32string)
| searchDone
| searchCancel
| searchCurrentWord
| reverseSearchCurrentWord
| jumpToNextMatch (count : Z)
| jumpToPreviousMatch (count : Z)
| scrollViewport_ (delta : Z).

(** What [errorlog()] and [logstore::ErrorLog()] are given. *)
Inductive Diagnostic :=
| IgnoringKeyInput (modifier : Modifier.t) (key : Key.t)
| ControlCodeInSearchMode (modifier : Modifier.t) (ch : Z)
| YankImplementationComing (motion : ViMotion.t)
| UnsupportedTextObjectOperator (op : ViOperator.t).

(** The handler's fields, followed by what it has done to the outside: the
    calls on the executor, oldest first, each with the search term the
    handler stored when the call was made, and the diagnostics logged. *)
Record ViInputHandler := mkHandler {
  viMode : ViMode.t;
  searchEditMode : SearchEditMode.t;
  count : Z;
  pendingOperator : option ViOperator.t;
  pendingTextObjectScope : option TextObjectScope.t;
  searchTerm : u32string;
  executor : list (ExecutorCall * u32string);
  errorlog : list Diagnostic
}.

Definition calls (h : ViInputHandler) : list ExecutorCall :=
  map fst (executor h).

(** A member function of the handler. *)
Definition Handler (A : Type) : Type := M ViInputHandler A.

Definition set_viMode (v : ViMode.t) : Handler unit :=
  modify (fun h => mkHandler v (searchEditMode h) (count h) (pendingOperator h)
                     (pendingTextObjectScope h) (searchTerm h) (executor h) (errorlog h)).
Definition set_searchEditMode (v : SearchEditMode.t) : Handler unit :=
  modify (fun h => mkHandler (viMode h) v (count h) (pendingOperator h)
                     (pendingTextObjectScope h) (searchTerm h) (executor h) (errorlog h)).
Definition set_count (v : Z) : Handler unit :=
  modify (fun h => mkHandler (viMode h) (searchEditMode h) v (pendingOperator h)
                     (pendingTextObjectScope h) (searchTerm h) (executor h) (errorlog h)).
Definition set_pendingOperator (v : option ViOperator.t) : Handler unit :=
  modify (fun h => mkHandler (viMode h) (searchEditMode h) (count h) v
                     (pendingTextObjectScope h) (searchTerm h) (executor h) (errorlog h)).
Definition set_pendingTextObjectScope (v : option TextObjectScope.t) : Handler unit :=
  modify (fun h => mkHandler (viMode h) (searchEditMode h) (count h) (pendingOperator h)
                     v (searchTerm h) (executor h) (errorlog h)).
Definition set_searchTerm (v : u32string) : Handler unit :=
  modify (fun h => mkHandler (viMode h) (searchEditMode h) (count h) (pendingOperator h)
                     (pendingTextObjectScope h) v (executor h) (errorlog h)).

(** [executor.f(...)] *)
Definition invoke (c : ExecutorCall) : Handler unit :=
  modify (fun h => mkHandler (viMode h) (searchEditMode h) (count h) (pendingOperator h)
                     (pendingTextObjectScope h) (searchTerm h)
                     (executor h ++ [(c, searchTerm h)]) (errorlog h)).

Definition log (d : Diagnostic) : Handler unit :=
  modify (fun h => mkHandler (viMode h) (searchEditMode h) (count h) (pendingOperator h)
                     (pendingTextObjectScope h) (searchTerm h) (executor h)
                     (errorlog h ++ [d])).

(** [count ? count : 1] *)
Definition countOr1 (c : Z) : Z := if c =? 0 then 1 else c.

Definition setMode (theMode : ViMode.t) : Handler unit :=
  cur <- get viMode ;;
  if ViMode.eqb cur theMode then ret tt
  else
    set_viMode theMode ;;;
    set_count 0 ;;;
    set_pendingOperator None ;;;
    set_pendingTextObjectScope None ;;;
    invoke (modeChanged theMode).

Definition toggleMode (newMode : ViMode.t) : Handler unit :=
  cur <- get viMode ;;
  setMode (if negb (ViMode.eqb newMode cur) then newMode else ViMode.Normal).

Definition executePendingOrMoveCursor (motion : ViMotion.t) : Handler bool :=
  pending <- get pendingOperator ;;
  c <- get count ;;
  match default ViOperator.MoveCursor pending with
  | ViOperator.MoveCursor => invoke (moveCursor motion (countOr1 c))
  | ViOperator.Yank => log (YankImplementationComing motion)
  | ViOperator.Paste => invoke (paste (countOr1 c))
  | ViOperator.ReverseSearchCurrentWord => invoke reverseSearchCurrentWord
  end ;;;
  set_count 0 ;;;
  set_pendingOperator None ;;;
  set_pendingTextObjectScope None ;;;
  ret true.

Definition startSearch : Handler unit :=
  set_searchEditMode SearchEditMode.Enabled ;;;
  set_searchTerm [] ;;;
  invoke searchStart.

Definition startSearchExternally : Handler unit :=
  set_searchTerm [] ;;;
  invoke searchStart ;;;
  mode <- get viMode ;;
  if negb (ViMode.eqb mode ViMode.Insert)
  then set_searchEditMode SearchEditMode.Enabled
  else
    set_searchEditMode SearchEditMode.ExternallyEnabled ;;;
    setMode ViMode.Normal.

Definition scrollViewport (delta : Z) : Handler unit :=
  invoke (scrollViewport_ delta).

Definition yank (scope : TextObjectScope.t) (textObject : TextObject.t) : Handler unit :=
  invoke (yank_ scope textObject) ;;;
  set_count 0 ;;;
  set_pendingOperator None ;;;
  set_pendingTextObjectScope None.

Definition select (scope : TextObjectScope.t) (textObject : TextObject.t) : Handler unit :=
  invoke (select_ scope textObject) ;;;
  set_count 0 ;;;
  set_pendingOperator None ;;;
  set_pendingTextObjectScope None.

Definition execute (op : ViOperator.t) (motion : ViMotion.t) : Handler unit :=
  c <- get count ;;
  invoke (execute_ op motion (countOr1 c)) ;;;
  set_count 0 ;;;
  set_pendingOperator None ;;;
  set_pendingTextObjectScope None.

Definition parseModeSwitch (ch : Z) (modifier : Modifier.t) : Handler bool :=
  mode <- get viMode ;;
  require (negb (ViMode.eqb mode ViMode.Insert)) ;;;
  let enterInsert : Handler (option bool) :=
    pending <- get pendingOperator ;;
    mode <- get viMode ;;
    if negb (bool_decide (is_Some pending)) && ViMode.eqb mode ViMode.Normal
    then toggleMode ViMode.Insert ;;; ret (Some true)
    else ret None in
  returning
    (switch (code (with_ modifier ch))
       [ (code (with_ Modifier.Control (chr "V")),
          toggleMode ViMode.VisualBlock ;;; ret (Some true));
         (code (with_ Modifier.Shift (chr "V")),
          toggleMode ViMode.VisualLine ;;; ret (Some true));
         (code (key_ (chr "a")), enterInsert);
         (code (key_ (chr "i")), enterInsert);
         (code (key_ (chr "v")),
          toggleMode ViMode.Visual ;;; ret (Some true)) ]
       (ret None))
    (ret false).

Definition parseCount (ch : Z) (modifier : Modifier.t) : Handler bool :=
  if negb (Modifier.none modifier) then ret false
  else
    let accumulate : Handler bool :=
      c <- get count ;;
      set_count (wrap32 (wrap32 (c * 10) + wrap32 (ch - chr "0"))) ;;;
      ret true in
    switch ch
      [ (chr "0", c <- get count ;;
                  if c =? 0 then ret false else accumulate);
        (chr "1", accumulate); (chr "2", accumulate); (chr "3", accumulate);
        (chr "4", accumulate); (chr "5", accumulate); (chr "6", accumulate);
        (chr "7", accumulate); (chr "8", accumulate); (chr "9", accumulate) ]
      (ret false).

Definition parseTextObject (ch : Z) (modifier : Modifier.t) : Handler bool :=
  mode <- get viMode ;;
  require (negb (ViMode.eqb mode ViMode.Insert)) ;;;
  let stripped := code (with_ (Modifier.without modifier Modifier.Shift) ch) in
  returning
    (pending <- get pendingOperator ;;
     if negb (ViMode.eqb mode ViMode.Normal) || bool_decide (is_Some pending)
     then
       switch stripped
         [ (code (key_ (chr "i")),
            set_pendingTextObjectScope (Some TextObjectScope.Inner) ;;; ret (Some true));
           (code (key_ (chr "a")),
            set_pendingTextObjectScope (Some TextObjectScope.A) ;;; ret (Some true)) ]
         (ret None)
     else ret None)
  (returning
    (scope <- get pendingTextObjectScope ;;
     pending <- get pendingOperator ;;
     match scope, pending, charToTextObject ch with
     | Some sc, Some op, Some textObject =>
         match op with
         | ViOperator.Yank => yank sc textObject
         | _ => log (UnsupportedTextObjectOperator op)
         end ;;;
         ret (Some true)
     | _, _, _ => ret None
     end)
  (returning
    (let motion (m : ViMotion.t) : Handler (option bool) :=
       r <- executePendingOrMoveCursor m ;; ret (Some r) in
     switch stripped
       [ (code (with_ Modifier.Control (chr "D")), motion ViMotion.PageDown);
         (code (with_ Modifier.Control (chr "U")), motion ViMotion.PageUp);
         (code (key_ (chr "$")), motion ViMotion.LineEnd);
         (code (key_ (chr "%")), motion ViMotion.ParenthesisMatching);
         (code (key_ (chr "0")), motion ViMotion.LineBegin);
         (code (key_ (chr "^")), motion ViMotion.LineTextBegin);
         (code (key_ (chr "G")), motion ViMotion.FileEnd);
         (code (key_ (chr "N")), motion ViMotion.SearchResultBackward);
         (code (key_ (chr "b")), motion ViMotion.WordBackward);
         (code (key_ (chr "e")), motion ViMotion.WordEndForward);
         (code (key_ (chr "g")), motion ViMotion.FileBegin);
         (code (key_ (chr "h")), motion ViMotion.CharLeft);
         (code (key_ (chr "j")), motion ViMotion.LineDown);
         (code (key_ (chr "k")), motion ViMotion.LineUp);
         (code (key_ (chr "J")), scrollViewport (-1) ;;; motion ViMotion.LineDown);
         (code (key_ (chr "K")), scrollViewport 1 ;;; motion ViMotion.LineUp);
         (code (key_ (chr "H")), motion ViMotion.PageTop);
         (code (key_ (chr "L")), motion ViMotion.PageBottom);
         (code (key_ (chr "l")), motion ViMotion.CharRight);
         (code (key_ (chr "n")), motion ViMotion.SearchResultForward);
         (code (key_ (chr "w")), motion ViMotion.WordForward);
         (code (key_ (chr "{")), motion ViMotion.ParagraphBackward);
         (code (key_ (chr "|")), motion ViMotion.ScreenColumn);
         (code (key_ (chr "}")), motion ViMotion.ParagraphForward) ]
       (ret None))
  (if Modifier.any modifier then ret false
   else
     match charToTextObject ch with
     | Some textObject =>
         mode <- get viMode ;;
         scope <- get pendingTextObjectScope ;;
         pending <- get pendingOperator ;;
         match mode with
         | ViMode.Insert => ret tt
         | ViMode.Normal =>
             match scope, pending with
             | Some sc, Some ViOperator.Yank => yank sc textObject
             | _, _ => ret tt
             end
         | ViMode.Visual | ViMode.VisualLine | ViMode.VisualBlock =>
             match scope with
             | Some sc => select sc textObject
             | None => ret tt
             end
         end ;;;
         ret true
     | None => ret false
     end))).

Definition handleVisualMode (ch : Z) (modifier : Modifier.t) : Handler unit :=
  mode <- get viMode ;;
  require (ViMode.eqb mode ViMode.Visual || ViMode.eqb mode ViMode.VisualLine
           || ViMode.eqb mode ViMode.VisualBlock) ;;;
  switched <- parseModeSwitch ch modifier ;;
  if switched then ret tt else
  counted <- parseCount ch modifier ;;
  if counted then ret tt else
  returning
    (scope <- get pendingTextObjectScope ;;
     match scope, charToTextObject ch with
     | Some sc, Some textObject => select sc textObject ;;; ret (Some tt)
     | _, _ => ret None
     end)
  (returning
    (c <- get count ;;
     switch (code (with_ (Modifier.without modifier Modifier.Shift) ch))
       [ (code (key_ (chr "/")), startSearch ;;; ret (Some tt));
         (code (key_ 27), setMode ViMode.Normal ;;; ret (Some tt));
         (code (with_ Modifier.Control (chr "V")),
          toggleMode ViMode.VisualBlock ;;; ret (Some tt));
         (code (key_ (chr "V")), toggleMode ViMode.VisualLine ;;; ret (Some tt));
         (code (key_ (chr "v")), toggleMode ViMode.Visual ;;; ret (Some tt));
         (code (key_ (chr "#")), invoke reverseSearchCurrentWord ;;; ret (Some tt));
         (code (key_ (chr "*")), invoke searchCurrentWord ;;; ret (Some tt));
         (code (key_ (chr "Y")),
          execute ViOperator.Yank ViMotion.FullLine ;;; ret (Some tt));
         (code (key_ (chr "a")),
          set_pendingTextObjectScope (Some TextObjectScope.A) ;;; ret (Some tt));
         (code (key_ (chr "i")),
          set_pendingTextObjectScope (Some TextObjectScope.Inner) ;;; ret (Some tt));
         (code (key_ (chr "y")),
          execute ViOperator.Yank ViMotion.Selection ;;; ret (Some tt));
         (code (key_ (chr "n")),
          invoke (jumpToNextMatch (countOr1 c)) ;;; ret (Some tt));
         (code (with_ Modifier.Shift (chr "N")),
          invoke (jumpToPreviousMatch (countOr1 c)) ;;; ret (Some tt)) ]
       (ret None))
  (_ <- parseTextObject ch modifier ;; ret tt)).

Definition handleNormalMode (ch : Z) (modifier : Modifier.t) : Handler unit :=
  mode <- get viMode ;;
  require (ViMode.eqb mode ViMode.Normal) ;;;
  switched <- parseModeSwitch ch modifier ;;
  if switched then ret tt else
  counted <- parseCount ch modifier ;;
  if counted then ret tt else
  returning
    (c <- get count ;;
     switch (code (with_ (Modifier.without modifier Modifier.Shift) ch))
       [ (code (key_ (chr "/")), startSearch ;;; ret (Some tt));
         (code (key_ (chr "v")), toggleMode ViMode.Visual ;;; ret (Some tt));
         (code (key_ (chr "#")), invoke reverseSearchCurrentWord ;;; ret (Some tt));
         (code (key_ (chr "*")), invoke searchCurrentWord ;;; ret (Some tt));
         (code (key_ (chr "p")), invoke (paste (countOr1 c)) ;;; ret (Some tt));
         (code (key_ (chr "n")),
          invoke (jumpToNextMatch (countOr1 c)) ;;; ret (Some tt));
         (code (key_ (chr "N")),
          invoke (jumpToPreviousMatch (countOr1 c)) ;;; ret (Some tt));
         (code (key_ (chr "y")),
          pending <- get pendingOperator ;;
          match pending with
          | None => set_pendingOperator (Some ViOperator.Yank)
          | Some ViOperator.Yank => execute ViOperator.Yank ViMotion.FullLine
          | Some _ => set_pendingOperator None
          end ;;;
          ret (Some tt)) ]
       (ret None))
  (_ <- parseTextObject ch modifier ;; ret tt).

Definition handleSearchEditor (ch : Z) (modifier : Modifier.t) : Handler bool :=
  editing <- get searchEditMode ;;
  assert (negb (SearchEditMode.eqb editing SearchEditMode.Disabled)) ;;;
  let restoreMode : Handler unit :=
    editing <- get searchEditMode ;;
    if SearchEditMode.eqb editing SearchEditMode.ExternallyEnabled
    then setMode ViMode.Insert else ret tt in
  let dropLast : Handler unit :=
    term <- get searchTerm ;;
    (if (0 <? Z.of_nat (length term))%Z
     then set_searchTerm (take (length term - 1) term) else ret tt) ;;;
    term <- get searchTerm ;;
    invoke (updateSearchTerm term) in
  let clear : Handler unit :=
    set_searchTerm [] ;;;
    term <- get searchTerm ;;
    invoke (updateSearchTerm term) in
  let other : Handler unit :=
    if (32 <=? ch) && Modifier.none (Modifier.without modifier Modifier.Shift)
    then
      term <- get searchTerm ;;
      set_searchTerm (term ++ [ch]) ;;;
      term <- get searchTerm ;;
      invoke (updateSearchTerm term)
    else log (ControlCodeInSearchMode modifier ch) in
  switch (code (with_ modifier ch))
    [ (code (key_ 27),
       set_searchTerm [] ;;;
       restoreMode ;;;
       set_searchEditMode SearchEditMode.Disabled ;;;
       invoke searchCancel);
      (code (key_ 13),
       restoreMode ;;;
       set_searchEditMode SearchEditMode.Disabled ;;;
       invoke searchDone);
      (code (key_ 8), dropLast);
      (code (key_ 127), dropLast);
      (code (with_ Modifier.Control (chr "L")), clear);
      (code (with_ Modifier.Control (chr "U")), clear);
      (code (with_ Modifier.Control (chr "A")), other);
      (code (with_ Modifier.Control (chr "E")), other) ]
    other ;;;
  ret true.

Definition sendCharPressEvent (ch : Z) (modifier : Modifier.t) : Handler bool :=
  editing <- get searchEditMode ;;
  if negb (SearchEditMode.eqb editing SearchEditMode.Disabled)
  then handleSearchEditor ch modifier
  else
    mode <- get viMode ;;
    match mode with
    | ViMode.Insert => ret false
    | ViMode.Normal => handleNormalMode ch modifier ;;; ret true
    | ViMode.Visual | ViMode.VisualLine | ViMode.VisualBlock =>
        handleVisualMode ch modifier ;;; ret true
    end.

Definition sendKeyPressEvent (key : Key.t) (modifier : Modifier.t) : Handler bool :=
  editing <- get searchEditMode ;;
  if negb (SearchEditMode.eqb editing SearchEditMode.Disabled)
  then log (IgnoringKeyInput modifier key) ;;; ret true
  else
    mode <- get viMode ;;
    match mode with
    | ViMode.Insert => ret false
    | _ =>
        if Modifier.any modifier then ret true
        else
          match key with
          | Key.DownArrow => executePendingOrMoveCursor ViMotion.LineDown
          | Key.LeftArrow => executePendingOrMoveCursor ViMotion.CharLeft
          | Key.RightArrow => executePendingOrMoveCursor ViMotion.CharRight
          | Key.UpArrow => executePendingOrMoveCursor ViMotion.LineUp
          | Key.Insert => setMode ViMode.Insert ;;; ret true
          | Key.Home => executePendingOrMoveCursor ViMotion.FileBegin
          | Key.End_ => executePendingOrMoveCursor ViMotion.FileEnd
          | Key.PageUp => executePendingOrMoveCursor ViMotion.PageUp
          | Key.PageDown => executePendingOrMoveCursor ViMotion.PageDown
          | Key.Other _ => ret true
          end
    end.

Definition isVisual (mode : ViMode.t) : Prop :=
  mode = ViMode.Visual \/ mode = ViMode.VisualLine \/ mode = ViMode.VisualBlock.

(** The number that a run of decimal digits spells after [acc]. *)
Fixpoint decimal (acc : Z) (digits : list Z) : Z :=
  match digits with
  | [] => acc
  | d :: rest => decimal (acc * 10 + d) rest
  end.

(** A handler in the given mode with nothing pending and nothing done. *)
Definition idle (mode : ViMode.t) : ViInputHandler :=
  mkHandler mode SearchEditMode.Disabled 0 None None [] [] [].

(** ** The public interface as a whole *)

(** Nothing is pending: no count, no operator, no scope. *)
Definition pendingEmpty (h : ViInputHandler) : Prop :=
  count h = 0 /\ pendingOperator h = None /\ pendingTextObjectScope h = None.

(** The search editor is not open in insert mode. *)
Definition wellModed (h : ViInputHandler) : Prop :=
  searchEditMode h = SearchEditMode.Disabled \/ viMode h <> ViMode.Insert.

(** The mode that an executor which starts from [start] and listens to
    [modeChanged] believes the handler to be in after [calls]. *)
Fixpoint announcedMode (start : ViMode.t) (calls : list ExecutorCall) : ViMode.t :=
  match calls with
  | [] => start
  | modeChanged newMode :: rest => announcedMode newMode rest
  | _ :: rest => announcedMode start rest
  end.

(** Every [modeChanged] among [calls] announces a change: a mode other than
    the one announced by the [modeChanged] before it, and other than [start]
    when it is the first. *)
Fixpoint announcesChanges (start : ViMode.t) (calls : list ExecutorCall) : Prop :=
  match calls with
  | [] => True
  | modeChanged newMode :: rest => newMode <> start /\ announcesChanges newMode rest
  | _ :: rest => announcesChanges start rest
  end.

(** What one call on the interface may do to the handler [h], giving [h']:
    the executor and the log only get new entries at their end; the
    executor is told of a change of mode, and only of a change, and a change
    of mode leaves nothing pending; the search editor stays out of insert
    mode; the search term is touched only in or on the way into the search
    editor; no mode is announced twice in a row. *)
Definition eventStep (h h' : ViInputHandler) : Prop :=
  exists newCalls newLogs,
    executor h' = executor h ++ newCalls
    /\ errorlog h' = errorlog h ++ newLogs
    /\ (viMode h' <> viMode h ->
        pendingEmpty h' /\ In (modeChanged (viMode h')) (map fst newCalls))
    /\ (forall m, In (modeChanged m) (map fst newCalls) ->
                  m = viMode h' /\ viMode h' <> viMode h)
    /\ (wellModed h -> wellModed h')
    /\ (searchEditMode h = SearchEditMode.Disabled ->
        searchEditMode h' = SearchEditMode.Disabled ->
        searchTerm h' = searchTerm h)
    /\ announcesChanges (viMode h) (map fst newCalls).

(** A parser of the handler on [h]: it declines and leaves [h] as it is, or
    it accepts and has made one step. *)
Definition parses (h : ViInputHandler) (c : Handler bool) : Prop :=
  c h = Done false h \/ exists h', c h = Done true h' /\ eventStep h h'.

(** A block that may [return] out of a member function on [h]: it falls
    through and leaves [h] as it is, or it returns a value that is [ok] and
    has made one step. *)
Definition blockSteps {A : Type} (h : ViInputHandler) (ok : A -> Prop)
    (c : Handler (option A)) : Prop :=
  c h = Done None h \/ exists a h', c h = Done (Some a) h' /\ ok a /\ eventStep h h'.

(** A member function without a result on [h]: it ends, and has made at most
    one step. *)
Definition steps (h : ViInputHandler) (c : Handler unit) : Prop :=
  exists h', c h = Done tt h' /\ eventStep h h'.

(** The calls that the embedding application makes on the handler. *)
Inductive Event :=
| CharPress (ch : Z) (modifier : Modifier.t)
| KeyPress (key : Key.t) (modifier : Modifier.t)
| SearchExternally.

Definition deliver (e : Event) : Handler bool :=
  match e with
  | CharPress ch modifier => sendCharPressEvent ch modifier
  | KeyPress key modifier => sendKeyPressEvent key modifier
  | SearchExternally => startSearchExternally ;;; ret true
  end.

Fixpoint deliverAll (events : list Event) : Handler unit :=
  match events with
  | [] => ret tt
  | e :: rest => deliver e ;;; deliverAll rest
  end.

(** The calls on the executor while [text] is typed into the search editor
    after [term]: one [updateSearchTerm] for each character, with the term
    grown by it. *)
Fixpoint typed (term text : u32string) : list (ExecutorCall * u32string) :=
  match text with
  | [] => []
  | ch :: rest => (updateSearchTerm (term ++ [ch]), term ++ [ch]) :: typed (term ++ [ch]) rest
  end.

(** A character that the search editor takes as text when it comes without
    a modifier: no control code, not DEL, and small enough for [InputMatch]
    to hold it without loss. *)
Definition printable (ch : Z) : Prop := 32 <= ch < 2 ^ 27 /\ ch <> 127.

(** A run of character events, as the embedding application delivers them. *)
Fixpoint sendChars (events : list (Z * Modifier.t)) : Handler unit :=
  match events with
  | [] => ret tt
  | (ch, modifier) :: rest => sendCharPressEvent ch modifier ;;; sendChars rest
  end.

End Vi.

(** * RenderBufferBuilder *)

Module Render.

Record CellLocation := { line : Z; column : Z }.

Definition CellLocation_eqb (a b : CellLocation) : bool :=
  (line a =? line b) && (column a =? column b).

Record RGBColor := { red : Z; green : Z; blue : Z }.

Definition RGBColor_eqb (a b : RGBColor) : bool :=
  (red a =? red b) && (green a =? green b) && (blue a =? blue b).

Record RGBColorPair := { foreground : RGBColor; background : RGBColor }.

(** [CellRGBColor], the variant of a configured color: the cell's own
    foreground, the cell's own background, or a literal. *)
Inductive CellRGBColor :=
| CellForegroundColor
| CellBackgroundColor
| RGB (c : RGBColor).

Inductive CursorShape := Block | Rectangle | Underscore | Bar.
Inductive HyperlinkState := Inactive | Hover.
Inductive HighlightSearchMatches := No | Yes.

(** The run automaton of [renderCell]. *)
Inductive State := Gap | Sequence.

(** Types of the terminal library that the builder only passes around:
    the [float] of the alpha values, the SGR [Color] of a grid cell, image
    fragments and hyperlink ids. *)
Class Foreign := {
  float : Type;
  Color : Type;
  ImageFragment : Type;
  HyperlinkId : Type
}.

Section Model.
Context {F : Foreign}.

(** [CellRGBColorAndAlphaPair] *)
Record CellRGBColorAndAlphaPair := {
  configuredForeground : CellRGBColor;
  foregroundAlpha : float;
  configuredBackground : CellRGBColor;
  backgroundAlpha : float
}.

(** [ColorPalette::cursor] *)
Record CursorColor := {
  color : CellRGBColor;
  textOverrideColor : CellRGBColor
}.

(** [ColorPalette::hyperlinkDecoration] *)
Record HyperlinkDecoration := { normal : RGBColor; hover : RGBColor }.

(** The entries of [ColorPalette] that the builder reads itself. *)
Record ColorPalette := {
  defaultBackground : RGBColor;
  selection : CellRGBColorAndAlphaPair;
  yankHighlight : CellRGBColorAndAlphaPair;
  searchHighlight : CellRGBColorAndAlphaPair;
  searchHighlightFocused : CellRGBColorAndAlphaPair;
  cursorColor : CursorColor;                     (* [cursor] *)
  hyperlinkDecoration : HyperlinkDecoration
}.

(** [CellFlags] is a bit mask. *)
Definition CellFlags := Z.

Record GraphicsAttributes := {
  sgrForegroundColor : Color;                    (* [foregroundColor] *)
  sgrBackgroundColor : Color;                    (* [backgroundColor] *)
  underlineColor : Color;
  sgrFlags : CellFlags                           (* [flags] *)
}.

Record RenderAttributes := {
  foregroundColor : RGBColor;
  backgroundColor : RGBColor;
  decorationColor : RGBColor;
  flags : CellFlags
}.

Record RenderCell := {
  codepoints : u32string;
  position : CellLocation;
  width : Z;                                     (* [uint8_t] *)
  attributes : RenderAttributes;
  image : option ImageFragment;
  groupStart : bool;
  groupEnd : bool
}.

Record RenderLine := {
  lineOffset : Z;
  lineUsedColumns : Z;                           (* [usedColumns] *)
  lineText : list Z;                             (* [text] *)
  textAttributes : RenderAttributes;
  fillAttributes : RenderAttributes
}.

Record RenderCursor := {
  cursorScreenPosition : CellLocation;           (* [position] *)
  shape : CursorShape;
  cursorWidth : Z                                (* [width] *)
}.

Record RenderBuffer := {
  frameID : Z;
  cursor : option RenderCursor;
  cells : list RenderCell;
  lines : list RenderLine
}.

(** [TrivialLineBuffer]: a line that holds one run of UTF-8 text in one set
    of attributes. *)
Record TrivialLineBuffer := {
  trivialTextAttributes : GraphicsAttributes;    (* [textAttributes] *)
  trivialFillAttributes : GraphicsAttributes;    (* [fillAttributes] *)
  usedColumns : Z;
  text : list Z                                  (* UTF-8 bytes *)
}.

Record InputMethodData := { preeditString : list Z (* UTF-8 bytes *) }.

(** What the builder reads from the [Terminal] during one frame. *)
Record Terminal := {
  inputHandlerMode : ViMode.t;                   (* [inputHandler().mode()] *)
  realCursorPosition : CellLocation;
  viCursorPosition : CellLocation;               (* [state().viCommands.cursorPosition] *)
  lastFrameID : Z;
  cursorCurrentlyVisible : bool;
  isLineVisible : Z -> bool;                     (* [viewport().isLineVisible] *)
  scrollOffset : Z;                              (* [viewport().scrollOffset()] *)
  translateScreenToGridCoordinate : CellLocation -> CellLocation;
  translateGridToScreenCoordinate : CellLocation -> CellLocation;
  focused : bool;                                (* [state().focused] *)
  cursorShape : CursorShape;
  cellWidthAt : CellLocation -> Z;               (* [currentScreen().cellWidthAt] *)
  isSelected : CellLocation -> bool;
  isHighlighted : CellLocation -> bool;
  blinkState : bool;
  rapidBlinkState : bool;
  colorPalette : ColorPalette;
  hyperlinkById : HyperlinkId -> option HyperlinkState;  (* [state().hyperlinks] *)
  pageColumns : Z;                               (* [pageSize().columns] *)
  searchPattern : u32string                      (* [state().searchMode.pattern] *)
}.

(** Functions and constants of the terminal library, of libunicode and of
    crispy that the builder calls and whose code is not part of these two
    files.  They are parameters of the model. *)
Class Library := {
  (** [mix(a, b, t)] on colors and on pairs, and the literal [0.25f] *)
  mix : RGBColor -> RGBColor -> float -> RGBColor;
  mixPair : RGBColorPair -> RGBColorPair -> float -> RGBColorPair;
  quarter : float;
  (** [RGBColorPair::distinct()] *)
  distinct : RGBColorPair -> RGBColorPair;
  (** the overload of [makeColors] without overlays (seven arguments):
      the SGR pair after reverse video and blinking *)
  makeColorsSGR :
    ColorPalette -> CellFlags -> bool -> Color -> Color -> bool -> bool -> RGBColorPair;
  getUnderlineColor : ColorPalette -> CellFlags -> RGBColor -> Color -> RGBColor;
  (** [Color {}] and the conversion of an [RGBColor] to a [Color] *)
  DefaultColor : Color;
  ColorOfRGB : RGBColor -> Color;
  Bold : CellFlags;
  Underline : CellFlags;
  DottedUnderline : CellFlags;
  (** [unicode::width] and [unicode::utf8_grapheme_segmenter] *)
  unicode_width : Z -> Z;
  utf8_grapheme_segmenter : list Z -> list u32string;
  (** [crispy::beginsWith] on two string views *)
  beginsWith : u32string -> u32string -> bool;
  (** [CellLocationRange { first, last }.contains(location)] *)
  rangeContains : CellLocation -> CellLocation -> CellLocation -> bool
}.

(** The template parameter [Cell]: what the builder asks of a grid cell. *)
Class CellConcept (Cell : Type) := {
  cellFlags : Cell -> CellFlags;                 (* [flags()] *)
  cellForegroundColor : Cell -> Color;
  cellBackgroundColor : Cell -> Color;
  cellWidth : Cell -> Z;                         (* [width()], a [uint8_t] *)
  cellEmpty : Cell -> bool;                      (* [empty()] *)
  cellCodepoints : Cell -> u32string;            (* [codepoint(i)], [codepointCount()] *)
  cellImageFragment : Cell -> option ImageFragment;
  cellHyperlink : Cell -> HyperlinkId;
  cellUnderlineColor : Cell -> ColorPalette -> RGBColor -> RGBColor;
  (** [beginsWith(text, cell)] *)
  cellBeginsWith : u32string -> Cell -> bool
}.

Context {L : Library}.

(** Modelled from the spec: [RGBColorPair::distinct()] is declared in
    [Color.h], which is not among the sources.  The design document says of
    the pair that comes out of it that it is forced distinct: its foreground
    is not its background. *)
Definition distinctForced : Prop :=
  forall p : RGBColorPair, foreground (distinct p) <> background (distinct p).

(** ** The color compositor *)

(** The loop of [graphemeClusterWidth] over the code points after the
    first. *)
Fixpoint graphemeClusterWidth_loop (rest : u32string) (baseWidth : Z) : Z :=
  match rest with
  | [] => baseWidth
  | codepoint :: rest' =>
      if codepoint =? 0xFE0F then 2 else graphemeClusterWidth_loop rest' baseWidth
  end.

(** [None] is the failed [assert(!cluster.empty())]. *)
Definition graphemeClusterWidth (cluster : u32string) : option Z :=
  match cluster with
  | [] => None
  | base :: rest => Some (graphemeClusterWidth_loop rest (unicode_width base))
  end.

Definition makeRGBColor (actualColors : RGBColorPair) (configuredColor : CellRGBColor)
  : RGBColor :=
  match configuredColor with
  | CellForegroundColor => foreground actualColors
  | CellBackgroundColor => background actualColors
  | RGB c => c
  end.

Definition makeRGBColorPair (actualColors : RGBColorPair)
    (configuredColor : CellRGBColorAndAlphaPair) : RGBColorPair :=
  distinct
    {| foreground := mix (makeRGBColor actualColors (configuredForeground configuredColor))
                         (foreground actualColors)
                         (foregroundAlpha configuredColor);
       background := mix (makeRGBColor actualColors (configuredBackground configuredColor))
                         (background actualColors)
                         (backgroundAlpha configuredColor) |}.

Definition makeColors (_colorPalette : ColorPalette) (_cellFlags : CellFlags)
    (_reverseVideo : bool) (foregroundColor_ backgroundColor_ : Color)
    (_selected _isCursor _isHighlighted _blink _rapidBlink : bool) : RGBColorPair :=
  let sgrColors :=
    makeColorsSGR _colorPalette _cellFlags _reverseVideo
                  foregroundColor_ backgroundColor_ _blink _rapidBlink in
  if negb _selected && negb _isCursor && negb _isHighlighted then sgrColors
  else
    let getSelectionColor (colorPair : RGBColorPair) (selected : bool)
                          (colors : ColorPalette) : RGBColorPair :=
      if selected then makeRGBColorPair sgrColors (selection colors) else colorPair in
    if negb _isCursor && _isHighlighted
    then makeRGBColorPair sgrColors (yankHighlight _colorPalette)
    else
      let selectionColors := getSelectionColor sgrColors _selected _colorPalette in
      if negb _isCursor then selectionColors
      else if negb _selected
      then distinct
             {| foreground :=
                  makeRGBColor sgrColors (textOverrideColor (cursorColor _colorPalette));
                background :=
                  makeRGBColor sgrColors (color (cursorColor _colorPalette)) |}
      else
        (* here [_isCursor && _selected], as the source's [Require] says *)
        let cursorColor_ :=
          {| foreground :=
               makeRGBColor selectionColors (textOverrideColor (cursorColor _colorPalette));
             background :=
               makeRGBColor selectionColors (color (cursorColor _colorPalette)) |} in
        distinct (mixPair cursorColor_ selectionColors quarter).

(** ** The builder *)

(** The members of the builder: those the constructor sets once, the output
    buffer it writes to, and its scratch fields. *)
Record RenderBufferBuilder := mkBuilder {
  terminal : Terminal;
  cursorPosition : CellLocation;
  baseLine : Z;
  reverseVideo : bool;
  highlightSearchMatches : HighlightSearchMatches;
  inputMethodData : InputMethodData;
  output : RenderBuffer;
  state : State;
  isNewLine : bool;
  lineNr : Z;
  prevWidth : Z;
  prevHasCursor : bool;
  searchPatternOffset : Z;                       (* [size_t] *)
  inputMethodSkipColumns : Z                     (* [ColumnCount] *)
}.

(** A member function of the builder. *)
Definition Builder (A : Type) : Type := M RenderBufferBuilder A.

Definition set_output (v : RenderBuffer) : Builder unit :=
  modify (fun b => mkBuilder (terminal b) (cursorPosition b) (baseLine b) (reverseVideo b)
                     (highlightSearchMatches b) (inputMethodData b) v (state b)
                     (isNewLine b) (lineNr b) (prevWidth b) (prevHasCursor b)
                     (searchPatternOffset b) (inputMethodSkipColumns b)).
Definition set_state (v : State) : Builder unit :=
  modify (fun b => mkBuilder (terminal b) (cursorPosition b) (baseLine b) (reverseVideo b)
                     (highlightSearchMatches b) (inputMethodData b) (output b) v
                     (isNewLine b) (lineNr b) (prevWidth b) (prevHasCursor b)
                     (searchPatternOffset b) (inputMethodSkipColumns b)).
Definition set_isNewLine (v : bool) : Builder unit :=
  modify (fun b => mkBuilder (terminal b) (cursorPosition b) (baseLine b) (reverseVideo b)
                     (highlightSearchMatches b) (inputMethodData b) (output b) (state b)
                     v (lineNr b) (prevWidth b) (prevHasCursor b)
                     (searchPatternOffset b) (inputMethodSkipColumns b)).
Definition set_lineNr (v : Z) : Builder unit :=
  modify (fun b => mkBuilder (terminal b) (cursorPosition b) (baseLine b) (reverseVideo b)
                     (highlightSearchMatches b) (inputMethodData b) (output b) (state b)
                     (isNewLine b) v (prevWidth b) (prevHasCursor b)
                     (searchPatternOffset b) (inputMethodSkipColumns b)).
Definition set_prevWidth (v : Z) : Builder unit :=
  modify (fun b => mkBuilder (terminal b) (cursorPosition b) (baseLine b) (reverseVideo b)
                     (highlightSearchMatches b) (inputMethodData b) (output b) (state b)
                     (isNewLine b) (lineNr b) v (prevHasCursor b)
                     (searchPatternOffset b) (inputMethodSkipColumns b)).
Definition set_prevHasCursor (v : bool) : Builder unit :=
  modify (fun b => mkBuilder (terminal b) (cursorPosition b) (baseLine b) (reverseVideo b)
                     (highlightSearchMatches b) (inputMethodData b) (output b) (state b)
                     (isNewLine b) (lineNr b) (prevWidth b) v
                     (searchPatternOffset b) (inputMethodSkipColumns b)).
Definition set_searchPatternOffset (v : Z) : Builder unit :=
  modify (fun b => mkBuilder (terminal b) (cursorPosition b) (baseLine b) (reverseVideo b)
                     (highlightSearchMatches b) (inputMethodData b) (output b) (state b)
                     (isNewLine b) (lineNr b) (prevWidth b) (prevHasCursor b)
                     v (inputMethodSkipColumns b)).
Definition set_inputMethodSkipColumns (v : Z) : Builder unit :=
  modify (fun b => mkBuilder (terminal b) (cursorPosition b) (baseLine b) (reverseVideo b)
                     (highlightSearchMatches b) (inputMethodData b) (output b) (state b)
                     (isNewLine b) (lineNr b) (prevWidth b) (prevHasCursor b)
                     (searchPatternOffset b) v).

(** [output.cells], [output.cursor] and [output.lines] *)
Definition outputCells (b : RenderBufferBuilder) : list RenderCell := cells (output b).

Definition set_cells (v : list RenderCell) : Builder unit :=
  o <- get output ;;
  set_output {| frameID := frameID o; cursor := cursor o; cells := v; lines := lines o |}.
Definition set_cursor (v : option RenderCursor) : Builder unit :=
  o <- get output ;;
  set_output {| frameID := frameID o; cursor := v; cells := cells o; lines := lines o |}.
Definition set_lines (v : list RenderLine) : Builder unit :=
  o <- get output ;;
  set_output {| frameID := frameID o; cursor := cursor o; cells := cells o; lines := v |}.

(** [output.cells.emplace_back(cell)] *)
Definition emplace_back (cell : RenderCell) : Builder unit :=
  cs <- get outputCells ;;
  set_cells (cs ++ [cell]).

Definition markGroupStart (c : RenderCell) : RenderCell :=
  {| codepoints := codepoints c; position := position c; width := width c;
     attributes := attributes c; image := image c;
     groupStart := true; groupEnd := groupEnd c |}.

Definition markGroupEnd (c : RenderCell) : RenderCell :=
  {| codepoints := codepoints c; position := position c; width := width c;
     attributes := attributes c; image := image c;
     groupStart := groupStart c; groupEnd := true |}.

Definition recolor (colors : RGBColorPair) (c : RenderCell) : RenderCell :=
  {| codepoints := codepoints c; position := position c; width := width c;
     attributes := {| foregroundColor := foreground colors;
                      backgroundColor := background colors;
                      decorationColor := decorationColor (attributes c);
                      flags := flags (attributes c) |};
     image := image c;
     groupStart := groupStart c; groupEnd := groupEnd c |}.

(** A write through [output.cells[i]] ([why] is [PastTheEnd]) or through
    [output.cells.at(i)] ([why] is [OutOfRange]); [i] is a [size_t]. *)
Definition updateCell (why : Failure) (i : Z) (f : RenderCell -> RenderCell)
  : Builder unit :=
  cs <- get outputCells ;;
  if (0 <=? i) && (i <? Z.of_nat (length cs))
  then set_cells (alter f (Z.to_nat i) cs)
  else fail why.

(** A write through [output.cells.back()]. *)
Definition updateBack (f : RenderCell -> RenderCell) : Builder unit :=
  cs <- get outputCells ;;
  match cs with
  | [] => fail BackOfEmpty
  | _ :: _ => set_cells (alter f (length cs - 1)%nat cs)
  end.

Definition renderCursor (terminal_ : Terminal) (cursorPosition_ : CellLocation)
  : option RenderCursor :=
  if negb (cursorCurrentlyVisible terminal_)
     || negb (isLineVisible terminal_ (line cursorPosition_))
  then None
  else
    let InactiveCursorShape := Rectangle in
    let shape_ := if focused terminal_ then cursorShape terminal_
                  else InactiveCursorShape in
    let cursorScreenPosition_ :=
      {| line := line cursorPosition_ + scrollOffset terminal_;
         column := column cursorPosition_ |} in
    let cellWidth := cellWidthAt terminal_ cursorPosition_ in
    Some {| cursorScreenPosition := cursorScreenPosition_;
            shape := shape_;
            cursorWidth := cellWidth |}.

(** Modelled from the spec: the initial values of the scratch fields are
    member initialisers of [RenderBufferBuilder.h], which is not among the
    sources; the design document has them reset at the start of every frame
    (run automaton in [Gap], nothing to skip, the search offset at zero).
    The rest is the constructor of the source. *)
Definition construct (_terminal : Terminal) (_output : RenderBuffer) (base : Z)
    (theReverseVideo : bool) (highlightSearchMatches_ : HighlightSearchMatches)
    (inputMethodData_ : InputMethodData) : RenderBufferBuilder :=
  let cursorPosition_ :=
    if ViMode.eqb (inputHandlerMode _terminal) ViMode.Insert
    then realCursorPosition _terminal
    else viCursorPosition _terminal in
  mkBuilder _terminal cursorPosition_ base theReverseVideo
    highlightSearchMatches_ inputMethodData_
    {| frameID := lastFrameID _terminal;
       cursor := renderCursor _terminal cursorPosition_;
       cells := cells _output;
       lines := lines _output |}
    Gap false 0 0 false 0 0.

(** The overload of [makeRenderCellExplicit] for a grapheme cluster. *)
Definition makeRenderCellExplicit (_colorPalette : ColorPalette)
    (graphemeCluster : u32string) (width_ : Z) (flags_ : CellFlags)
    (fg bg : RGBColor) (ul : Color) (_line _column : Z) : RenderCell :=
  {| codepoints := graphemeCluster;
     position := {| line := _line; column := _column |};
     width := width_ mod 256;
     attributes := {| foregroundColor := fg;
                      backgroundColor := bg;
                      decorationColor := getUnderlineColor _colorPalette flags_ fg ul;
                      flags := flags_ |};
     image := None;
     groupStart := false;
     groupEnd := false |}.

(** The overload of [makeRenderCellExplicit] for one code point. *)
Definition makeRenderCellExplicit1 (_colorPalette : ColorPalette)
    (codepoint : Z) (flags_ : CellFlags)
    (fg bg : RGBColor) (ul : Color) (_line _column : Z) : RenderCell :=
  {| codepoints := if codepoint =? 0 then [] else [codepoint];
     position := {| line := _line; column := _column |};
     width := 1;
     attributes := {| foregroundColor := fg;
                      backgroundColor := bg;
                      decorationColor := getUnderlineColor _colorPalette flags_ fg ul;
                      flags := flags_ |};
     image := None;
     groupStart := false;
     groupEnd := false |}.

Section WithCell.
Context {Cell : Type} {C : CellConcept Cell}.

Definition makeRenderCell (_colorPalette : ColorPalette)
    (_hyperlinks : HyperlinkId -> option HyperlinkState) (screenCell : Cell)
    (fg bg : RGBColor) (_line _column : Z) : RenderCell :=
  let plain :=
    {| foregroundColor := fg;
       backgroundColor := bg;
       decorationColor := cellUnderlineColor screenCell _colorPalette fg;
       flags := cellFlags screenCell |} in
  {| codepoints := cellCodepoints screenCell;
     position := {| line := _line; column := _column |};
     width := cellWidth screenCell;
     attributes :=
       match _hyperlinks (cellHyperlink screenCell) with
       | Some hrefState =>
           let color_ := match hrefState with
                         | Hover => hover (hyperlinkDecoration _colorPalette)
                         | _ => normal (hyperlinkDecoration _colorPalette)
                         end in
           let decoration := match hrefState with
                             | Hover => Underline
                             | _ => DottedUnderline
                             end in
           {| foregroundColor := fg;
              backgroundColor := bg;
              decorationColor := color_;
              flags := Z.lor (flags plain) decoration |}
       | None => plain
       end;
     image := cellImageFragment screenCell;
     groupStart := false;
     groupEnd := false |}.

End WithCell.

Definition makeColorsForCell (b : RenderBufferBuilder) (gridPosition : CellLocation)
    (cellFlags_ : CellFlags) (foregroundColor_ backgroundColor_ : Color)
  : RGBColorPair :=
  let hasCursor := CellLocation_eqb gridPosition (cursorPosition b) in
  let paintCursor :=
    (hasCursor || (prevHasCursor b && (prevWidth b =? 2)))
    && match cursor (output b) with
       | Some c => match shape c with Block => true | _ => false end
       | None => false
       end in
  let selected := isSelected (terminal b) gridPosition in
  let highlighted := isHighlighted (terminal b) gridPosition in
  let blink := blinkState (terminal b) in
  let rapidBlink := rapidBlinkState (terminal b) in
  makeColors (colorPalette (terminal b)) cellFlags_ (reverseVideo b)
             foregroundColor_ backgroundColor_
             selected paintCursor highlighted blink rapidBlink.

Definition createRenderAttributes (b : RenderBufferBuilder) (gridPosition : CellLocation)
    (graphicsAttributes : GraphicsAttributes) : RenderAttributes :=
  let colors := makeColorsForCell b gridPosition (sgrFlags graphicsAttributes)
                  (sgrForegroundColor graphicsAttributes)
                  (sgrBackgroundColor graphicsAttributes) in
  {| foregroundColor := foreground colors;
     backgroundColor := background colors;
     decorationColor :=
       getUnderlineColor (colorPalette (terminal b)) (sgrFlags graphicsAttributes)
                         (foreground colors) (underlineColor graphicsAttributes);
     flags := sgrFlags graphicsAttributes |}.

Definition createRenderLine (b : RenderBufferBuilder) (lineBuffer : TrivialLineBuffer)
    (lineOffset_ : Z) : RenderLine :=
  let pos := {| line := lineOffset_; column := 0 |} in
  let gridPosition := translateScreenToGridCoordinate (terminal b) pos in
  {| lineOffset := lineOffset_;
     lineUsedColumns := usedColumns lineBuffer;
     lineText := text lineBuffer;
     textAttributes :=
       createRenderAttributes b gridPosition (trivialTextAttributes lineBuffer);
     fillAttributes :=
       createRenderAttributes b gridPosition (trivialFillAttributes lineBuffer) |}.

(** [matchSearchPattern<T>], for a [T] of which it needs the prefix test
    [beginsWith(text, textCell)] and the number of code points
    ([codepointCount()] of a cell, [size()] of a string view). *)
Definition matchSearchPattern (beginsWithTextCell : u32string -> bool)
    (textCellSize : Z) : Builder unit :=
  highlight <- get highlightSearchMatches ;;
  match highlight with
  | No => ret tt
  | Yes =>
      b <- get id ;;
      let pattern := searchPattern (terminal b) in
      if Z.of_nat (length pattern) =? 0 then ret tt
      else if negb (beginsWithTextCell
                      (drop (Z.to_nat (searchPatternOffset b)) pattern))
      then set_searchPatternOffset 0          (* match fail *)
      else
        set_searchPatternOffset (wrap64 (searchPatternOffset b + textCellSize)) ;;;
        offset <- get searchPatternOffset ;;
        if offset <? Z.of_nat (length pattern) then ret tt   (* match incomplete *)
        else
          (* match complete *)
          cs <- get outputCells ;;
          let offsetIntoFront := wrap64 (Z.of_nat (length cs) - offset) in
          match cs !! Z.to_nat offsetIntoFront, last cs with
          | None, _ => fail PastTheEnd
          | Some _, None => fail BackOfEmpty
          | Some first, Some back =>
              let isFocusedMatch :=
                rangeContains (position first) (position back)
                  (translateGridToScreenCoordinate (terminal b)
                     (viCursorPosition (terminal b))) in
              let highlightCell (c : RenderCell) : RenderCell :=
                let searchMatchColors :=
                  makeRGBColorPair
                    {| foreground := foregroundColor (attributes c);
                       background := backgroundColor (attributes c) |}
                    (if isFocusedMatch
                     then searchHighlightFocused (colorPalette (terminal b))
                     else searchHighlight (colorPalette (terminal b))) in
                recolor searchMatchColors c in
              set_cells (take (Z.to_nat offsetIntoFront) cs
                         ++ map highlightCell (drop (Z.to_nat offsetIntoFront) cs)) ;;;
              set_searchPatternOffset 0
          end
  end.

Definition startLine (_line : Z) : Builder unit :=
  set_isNewLine true ;;;
  set_lineNr _line ;;;
  set_prevWidth 0 ;;;
  set_prevHasCursor false.

Definition endLine : Builder unit :=
  cs <- get outputCells ;;
  match cs with
  | [] => ret tt
  | _ :: _ => updateBack markGroupEnd
  end.

(** The loop of [renderUtf8Text] over the grapheme clusters of the text. *)
Fixpoint renderUtf8Text_loop (clusters : list u32string)
    (screenPosition : CellLocation) (textAttributes_ : GraphicsAttributes)
    (allowMatchSearchPattern : bool) (columnCountRendered : Z) : Builder Z :=
  match clusters with
  | [] => ret columnCountRendered
  | graphemeCluster :: rest =>
      b <- get id ;;
      let gridPosition :=
        translateScreenToGridCoordinate (terminal b)
          {| line := line screenPosition;
             column := column screenPosition + columnCountRendered |} in
      let colors := makeColorsForCell b gridPosition (sgrFlags textAttributes_)
                      (sgrForegroundColor textAttributes_)
                      (sgrBackgroundColor textAttributes_) in
      match graphemeClusterWidth graphemeCluster with
      | None => fail AssertFailed
      | Some width_ =>
          emplace_back
            (makeRenderCellExplicit (colorPalette (terminal b))
               graphemeCluster width_ (sgrFlags textAttributes_)
               (foreground colors) (background colors)
               (underlineColor textAttributes_)
               (baseLine b + line screenPosition)
               (column screenPosition + columnCountRendered)) ;;;
          set_lineNr (line screenPosition) ;;;
          set_prevWidth 0 ;;;
          set_prevHasCursor false ;;;
          (if allowMatchSearchPattern
           then matchSearchPattern (fun text_ => beginsWith text_ graphemeCluster)
                                   (Z.of_nat (length graphemeCluster))
           else ret tt) ;;;
          renderUtf8Text_loop rest screenPosition textAttributes_
            allowMatchSearchPattern (columnCountRendered + width_)
      end
  end.

Definition renderUtf8Text (screenPosition : CellLocation)
    (textAttributes_ : GraphicsAttributes) (text_ : list Z)
    (allowMatchSearchPattern : bool) : Builder Z :=
  renderUtf8Text_loop (utf8_grapheme_segmenter text_) screenPosition textAttributes_
    allowMatchSearchPattern 0.

(** The loop of [renderTrivialLine] that fills the columns after the text
    with empty cells. *)
Fixpoint fillRemaining (columnOffsets : list Z) (lineBuffer : TrivialLineBuffer)
    (lineOffset_ : Z) : Builder unit :=
  match columnOffsets with
  | [] => ret tt
  | columnOffset :: rest =>
      b <- get id ;;
      let pos := {| line := lineOffset_; column := columnOffset |} in
      let gridPosition := translateScreenToGridCoordinate (terminal b) pos in
      let renderAttributes := createRenderAttributes b gridPosition
                                (trivialFillAttributes lineBuffer) in
      emplace_back
        (makeRenderCellExplicit1 (colorPalette (terminal b)) 0
           (sgrFlags (trivialFillAttributes lineBuffer))
           (foregroundColor renderAttributes) (backgroundColor renderAttributes)
           (underlineColor (trivialFillAttributes lineBuffer))
           (baseLine b + lineOffset_) columnOffset) ;;;
      fillRemaining rest lineBuffer lineOffset_
  end.

(** The part of [renderTrivialLine] between taking [frontIndex] and taking
    [backIndex]: the text, then the fill. *)
Definition renderTrivialLine_cells (lineBuffer : TrivialLineBuffer) (lineOffset_ : Z)
  : Builder unit :=
  b <- get id ;;
  let textMargin := Z.min (pageColumns (terminal b)) (usedColumns lineBuffer) in
  let pageColumnsEnd := pageColumns (terminal b) in
  set_searchPatternOffset 0 ;;;
  _ <- renderUtf8Text {| line := lineOffset_; column := 0 |}
         (trivialTextAttributes lineBuffer) (text lineBuffer) true ;;
  fillRemaining (seqZ textMargin (pageColumnsEnd - textMargin)) lineBuffer lineOffset_.

Definition renderTrivialLine (lineBuffer : TrivialLineBuffer) (lineOffset_ : Z)
  : Builder unit :=
  front <- get outputCells ;;
  let frontIndex := Z.of_nat (length front) in
  let canRenderViaSimpleLine := false in
  if canRenderViaSimpleLine
  then
    b <- get id ;;
    set_lines (lines (output b) ++ [createRenderLine b lineBuffer lineOffset_]) ;;;
    set_lineNr lineOffset_ ;;;
    set_prevWidth 0 ;;;
    set_prevHasCursor false
  else
    renderTrivialLine_cells lineBuffer lineOffset_ ;;;
    cs <- get outputCells ;;
    let backIndex := wrap64 (Z.of_nat (length cs) - 1) in
    updateCell PastTheEnd frontIndex markGroupStart ;;;
    updateCell PastTheEnd backIndex markGroupEnd.

Section WithCell.
Context {Cell : Type} {C : CellConcept Cell}.

Definition renderCell (screenCell : Cell) (_line _column : Z) : Builder unit :=
  b <- get id ;;
  let screenPosition := {| line := _line; column := _column |} in
  let gridPosition := translateScreenToGridCoordinate (terminal b) screenPosition in
  (* Render IME preeditString if available and screen position matches
     cursor position. *)
  (if CellLocation_eqb gridPosition (cursorPosition b)
      && negb (Z.of_nat (length (preeditString (inputMethodData b))) =? 0)
   then
     let textAttributes_ :=
       {| sgrForegroundColor := ColorOfRGB {| red := 0xFF; green := 0xFF; blue := 0xFF |};
          sgrBackgroundColor := ColorOfRGB {| red := 0xFF; green := 0x00; blue := 0x00 |};
          underlineColor := DefaultColor;
          sgrFlags := Z.lor 0 (Z.lor Bold Underline) |} in
     cs <- get outputCells ;;
     (if negb (Z.of_nat (length cs) =? 0) then updateBack markGroupEnd else ret tt) ;;;
     rendered <- renderUtf8Text screenPosition textAttributes_
                   (preeditString (inputMethodData b)) false ;;
     set_inputMethodSkipColumns rendered ;;;
     (if 0 <? rendered
      then
        cur <- get (fun b => cursor (output b)) ;;
        match cur with
        | None => fail BadOptionalAccess
        | Some c =>
            set_cursor
              (Some {| cursorScreenPosition :=
                         {| line := line (cursorScreenPosition c);
                            column := column (cursorScreenPosition c) + rendered |};
                       shape := shape c;
                       cursorWidth := cursorWidth c |})
        end ;;;
        cs <- get outputCells ;;
        updateCell OutOfRange
          (wrap64 (Z.of_nat (length cs) - wrap64 rendered)) markGroupStart ;;;
        updateBack markGroupEnd
      else ret tt) ;;;
     set_state Gap
   else ret tt) ;;;
  skip <- get inputMethodSkipColumns ;;
  if 0 <? skip
  then
    (* Skipping grid cells that have already been rendered due to IME. *)
    set_inputMethodSkipColumns (skip - 1)
  else
    b <- get id ;;
    let colors := makeColorsForCell b gridPosition (cellFlags screenCell)
                    (cellForegroundColor screenCell) (cellBackgroundColor screenCell) in
    let fg := foreground colors in
    let bg := background colors in
    set_prevWidth (cellWidth screenCell) ;;;
    set_prevHasCursor (CellLocation_eqb gridPosition (cursorPosition b)) ;;;
    let cellEmpty_ := cellEmpty screenCell in
    let customBackground :=
      negb (RGBColor_eqb bg (defaultBackground (colorPalette (terminal b))))
      || negb (cellFlags screenCell =? 0) in
    let newCell :=
      makeRenderCell (colorPalette (terminal b)) (hyperlinkById (terminal b))
        screenCell fg bg (baseLine b + _line) _column in
    st <- get state ;;
    match st with
    | Gap =>
        if negb cellEmpty_ || customBackground
        then
          set_state Sequence ;;;
          emplace_back newCell ;;;
          updateBack markGroupStart
        else ret tt
    | Sequence =>
        if cellEmpty_ && negb customBackground
        then
          updateBack markGroupEnd ;;;
          set_state Gap
        else
          emplace_back newCell ;;;
          newLine <- get isNewLine ;;
          if newLine then updateBack markGroupStart else ret tt
    end ;;;
    set_isNewLine false ;;;
    matchSearchPattern (fun text_ => cellBeginsWith text_ screenCell)
                       (Z.of_nat (length (cellCodepoints screenCell))).

(** ** The caller of the builder *)

(** A line of the grid: held as a trivial buffer, or cell by cell. *)
Inductive GridLine :=
| TrivialLine (lineBuffer : TrivialLineBuffer)
| CellLine (columns : list Cell).

(** Modelled from the spec: the loop that drives the builder is in the
    screen's render function, which is not among the sources.  The design
    document has one pass per frame over the visible lines from top to
    bottom and over the columns of a line from left to right. *)
Fixpoint renderCells (columns : list Cell) (_line _column : Z) : Builder unit :=
  match columns with
  | [] => ret tt
  | screenCell :: rest =>
      renderCell screenCell _line _column ;;;
      renderCells rest _line (_column + 1)
  end.

(** Modelled from the spec: a line that is one homogeneous run goes to
    [renderTrivialLine]; any other line is rendered cell by cell between
    [startLine] and [endLine]. *)
Definition renderLine (_line : Z) (l : GridLine) : Builder unit :=
  match l with
  | TrivialLine lineBuffer => renderTrivialLine lineBuffer _line
  | CellLine columns =>
      startLine _line ;;;
      renderCells columns _line 0 ;;;
      endLine
  end.

(** Modelled from the spec: the lines of a frame, from the top. *)
Fixpoint renderLines (grid : list GridLine) (_line : Z) : Builder unit :=
  match grid with
  | [] => ret tt
  | l :: rest => renderLine _line l ;;; renderLines rest (_line + 1)
  end.

End WithCell.

(** The two run markers of a cell. *)
Definition runMarkers (c : RenderCell) : bool * bool := (groupStart c, groupEnd c).

(** [b'] has the constructor's members, the cursor of the output, the
    state of the run automaton and the columns to skip of [b]. *)
Definition sameSettings (b b' : RenderBufferBuilder) : Prop :=
  terminal b' = terminal b
  /\ cursorPosition b' = cursorPosition b
  /\ baseLine b' = baseLine b
  /\ reverseVideo b' = reverseVideo b
  /\ inputMethodData b' = inputMethodData b
  /\ highlightSearchMatches b' = highlightSearchMatches b
  /\ cursor (output b') = cursor (output b)
  /\ state b' = state b
  /\ isNewLine b' = isNewLine b
  /\ inputMethodSkipColumns b' = inputMethodSkipColumns b.

(** [b'] differs from [b] at most in the colors of the cells, in what the
    builder remembers of the previous cell and in the offset of the search
    matcher. *)
Definition sameButColors (b b' : RenderBufferBuilder) : Prop :=
  sameSettings b b'
  /\ map runMarkers (outputCells b') = map runMarkers (outputCells b).

(** How many cells of a list carry each run marker. *)
Definition countGroupStart (cs : list RenderCell) : nat :=
  length (List.filter groupStart cs).

Definition countGroupEnd (cs : list RenderCell) : nat :=
  length (List.filter groupEnd cs).

(** ** The run automaton on the markers alone

    The markers of the cells of the output, in order; a step of the
    automaton of [renderCell] seen on them; and what holds of the markers
    [new] that a line has added so far to the markers [old] of the lines
    before it. *)

Definition outputMarkers (b : RenderBufferBuilder) : list (bool * bool) :=
  map runMarkers (outputCells b).

Definition starts (ms : list (bool * bool)) : nat := length (List.filter fst ms).
Definition ends (ms : list (bool * bool)) : nat := length (List.filter snd ms).

(** The last cell, if there is one, ends a run. *)
Definition lastClosed (ms : list (bool * bool)) : Prop :=
  match last ms with
  | Some m => snd m = true
  | None => True
  end.

(** [back().groupEnd = true] *)
Definition closeLast (ms : list (bool * bool)) : list (bool * bool) :=
  alter (fun m => (fst m, true)) (length ms - 1)%nat ms.

Inductive cellStep :
  list (bool * bool) -> State -> bool -> list (bool * bool) -> State -> Prop :=
| step_open ms newLine :
    cellStep ms Gap newLine (ms ++ [(true, false)]) Sequence
| step_gap ms newLine :
    cellStep ms Gap newLine ms Gap
| step_close ms newLine :
    ms <> [] -> cellStep ms Sequence newLine (closeLast ms) Gap
| step_extend ms newLine :
    cellStep ms Sequence newLine (ms ++ [(newLine, false)]) Sequence.

Definition lineInvariant (old new : list (bool * bool)) (st : State) (newLine : bool)
  : Prop :=
  lastClosed old
  /\ ((new = [] /\ (st = Sequence -> newLine = true))
      \/ (exists front m,
            new = front ++ [m]
            /\ newLine = false
            /\ match st with
               | Gap => starts new = ends new /\ snd m = true
               | Sequence => starts new = S (ends new) /\ snd m = false
               end)).

(** ** What a frame shows where

    A cell without its two colors: what the search matcher leaves of it. *)
Definition uncolored (c : RenderCell) : RenderCell :=
  recolor {| foreground := {| red := 0; green := 0; blue := 0 |};
             background := {| red := 0; green := 0; blue := 0 |} |} c.

(** What a cell shows and where: its code points, its position and its
    width. *)
Definition placement (c : RenderCell) : u32string * CellLocation * Z :=
  (codepoints c, position c, width c).

(** Where the clusters of a text go that starts in [_column]: each cluster
    in the column after the columns of the clusters before it, with its
    width as a [uint8_t]. *)
Fixpoint textPlacements (clusters : list u32string) (_line _column : Z)
  : list (u32string * CellLocation * Z) :=
  match clusters with
  | [] => []
  | g :: rest =>
      let w := default 0 (graphemeClusterWidth g) in
      (g, {| line := _line; column := _column |}, w mod 256)
      :: textPlacements rest _line (_column + w)
  end.

(** Empty cells of width 1 in the given columns. *)
Definition fillPlacements (columnOffsets : list Z) (_line : Z)
  : list (u32string * CellLocation * Z) :=
  map (fun columnOffset => ([], {| line := _line; column := columnOffset |}, 1))
      columnOffsets.

(** The markers of [k] cells that form one run. *)
Definition oneRun (k : nat) : list (bool * bool) :=
  match k with
  | O => []
  | S O => [(true, true)]
  | S (S n) => (true, false) :: replicate n (false, false) ++ [(false, true)]
  end.

(** What no call on the builder changes after the constructor: the members
    the constructor sets, and of the output the frame id and the lines; and
    no call removes a cell. *)
Definition frameKept (b b' : RenderBufferBuilder) : Prop :=
  terminal b' = terminal b
  /\ cursorPosition b' = cursorPosition b
  /\ baseLine b' = baseLine b
  /\ reverseVideo b' = reverseVideo b
  /\ highlightSearchMatches b' = highlightSearchMatches b
  /\ inputMethodData b' = inputMethodData b
  /\ frameID (output b') = frameID (output b)
  /\ lines (output b') = lines (output b)
  /\ (length (outputCells b) <= length (outputCells b'))%nat.

(** A member function that keeps all of this whenever it returns. *)
Definition keepsFrame {A : Type} (c : Builder A) : Prop :=
  forall b a b', c b = Done a b' -> frameKept b b'.

(** The columns that [renderUtf8Text] counts for a list of clusters. *)
Fixpoint textColumns (clusters : list u32string) : Z :=
  match clusters with
  | [] => 0
  | g :: rest => default 0 (graphemeClusterWidth g) + textColumns rest
  end.

End Model.
End Render.

(** * Test doubles

    Stand-ins for the library parameters and for the terminal, small enough
    to evaluate the model on concrete frames. *)

Module Fixture.
Import Render.

#[export] Instance foreign : Foreign :=
  {| float := Z;                  (* alpha in percent *)
     Color := RGBColor;           (* every SGR color is a literal *)
     ImageFragment := unit;
     HyperlinkId := Z |}.

Definition inverse (c : RGBColor) : RGBColor :=
  {| red := 255 - red c; green := 255 - green c; blue := 255 - blue c |}.

Definition blend (a b : RGBColor) (t : Z) : RGBColor :=
  {| red := (red a * t + red b * (100 - t)) / 100;
     green := (green a * t + green b * (100 - t)) / 100;
     blue := (blue a * t + blue b * (100 - t)) / 100 |}.

(** A pair of equal colors becomes the inverse of the foreground on the
    foreground; any other pair is left alone. *)
Definition separate (p : RGBColorPair) : RGBColorPair :=
  if RGBColor_eqb (foreground p) (background p)
  then {| foreground := inverse (foreground p); background := foreground p |}
  else p.

(** Wide: Hangul Jamo, CJK, Hangul syllables, compatibility and fullwidth
    forms. *)
Definition wide (c : Z) : bool :=
  ((0x1100 <=? c) && (c <=? 0x115F)) || ((0x2E80 <=? c) && (c <=? 0xA4CF))
  || ((0xAC00 <=? c) && (c <=? 0xD7A3)) || ((0xF900 <=? c) && (c <=? 0xFAFF))
  || ((0xFE30 <=? c) && (c <=? 0xFE4F)) || ((0xFF00 <=? c) && (c <=? 0xFF60))
  || ((0xFFE0 <=? c) && (c <=? 0xFFE6)).

(** UTF-8 decoding of well-formed input: [acc] holds the bits read so far
    and [need] counts the continuation bytes still to come. *)
Fixpoint utf8_decode (bytes : list Z) (acc : Z) (need : nat) : list Z :=
  match bytes with
  | [] => []
  | byte :: rest =>
      match need with
      | O =>
          if byte <? 0x80 then byte :: utf8_decode rest 0 O
          else if byte <? 0xE0 then utf8_decode rest (Z.land byte 0x1F) 1
          else if byte <? 0xF0 then utf8_decode rest (Z.land byte 0x0F) 2
          else utf8_decode rest (Z.land byte 0x07) 3
      | S n =>
          let acc' := acc * 64 + Z.land byte 0x3F in
          match n with
          | O => acc' :: utf8_decode rest 0 O
          | S _ => utf8_decode rest acc' n
          end
      end
  end.

(** Combining marks, variation selectors and the zero-width joiner stay
    with the cluster before them. *)
Definition extends (c : Z) : bool :=
  ((0x0300 <=? c) && (c <=? 0x036F)) || ((0xFE00 <=? c) && (c <=? 0xFE0F))
  || (c =? 0x200D).

Fixpoint clusters (codepoints_ : list Z) (current : u32string) : list u32string :=
  match codepoints_ with
  | [] => match current with [] => [] | _ :: _ => [current] end
  | c :: rest =>
      match current with
      | [] => clusters rest [c]
      | _ :: _ => if extends c then clusters rest (current ++ [c])
                  else current :: clusters rest [c]
      end
  end.

Fixpoint isPrefix (prefix text_ : u32string) : bool :=
  match prefix, text_ with
  | [], _ => true
  | _ :: _, [] => false
  | p :: prefix', t :: text' => (p =? t) && isPrefix prefix' text'
  end.

#[export] Instance library : Library :=
  {| mix := blend;
     mixPair := fun p q t =>
       {| foreground := blend (foreground p) (foreground q) t;
          background := blend (background p) (background q) t |};
     quarter := 25;
     distinct := separate;
     makeColorsSGR := fun _ _ reverse fg bg _ _ =>
       if reverse then {| foreground := bg; background := fg |}
       else {| foreground := fg; background := bg |};
     getUnderlineColor := fun _ _ fg _ => fg;
     DefaultColor := {| red := 0; green := 0; blue := 0 |};
     ColorOfRGB := fun c => c;
     Bold := 1;
     Underline := 8;
     DottedUnderline := 1024;
     unicode_width := fun c => if wide c then 2 else 1;
     utf8_grapheme_segmenter := fun bytes => clusters (utf8_decode bytes 0 O) [];
     beginsWith := fun text_ prefix => isPrefix prefix text_;
     rangeContains := fun first back p =>
       (line first <=? line p) && (line p <=? line back)
       && (column first <=? column p) && (column p <=? column back) |}.

(** A grid cell: its code points, width, flags and colors. *)
Record SimpleCell := {
  sc_codepoints : u32string;
  sc_width : Z;
  sc_flags : CellFlags;
  sc_foreground : RGBColor;
  sc_background : RGBColor
}.

#[export] Instance simpleCell : CellConcept SimpleCell :=
  {| cellFlags := sc_flags;
     cellForegroundColor := sc_foreground;
     cellBackgroundColor := sc_background;
     cellWidth := sc_width;
     cellEmpty := fun c => Z.of_nat (length (sc_codepoints c)) =? 0;
     cellCodepoints := sc_codepoints;
     cellImageFragment := fun _ => None;
     cellHyperlink := fun _ => 0;
     cellUnderlineColor := fun _ _ fg => fg;
     cellBeginsWith := fun text_ c => isPrefix (sc_codepoints c) text_ |}.

Definition black : RGBColor := {| red := 0; green := 0; blue := 0 |}.
Definition white : RGBColor := {| red := 255; green := 255; blue := 255 |}.

Definition opaque (c : RGBColor) : CellRGBColorAndAlphaPair :=
  {| configuredForeground := CellForegroundColor; foregroundAlpha := 100;
     configuredBackground := RGB c; backgroundAlpha := 100 |}.

Definition palette : ColorPalette :=
  {| defaultBackground := black;
     selection := opaque {| red := 0; green := 0; blue := 128 |};
     yankHighlight := opaque {| red := 128; green := 128; blue := 0 |};
     searchHighlight := opaque {| red := 0; green := 128; blue := 0 |};
     searchHighlightFocused := opaque {| red := 128; green := 0; blue := 0 |};
     cursorColor := {| color := CellForegroundColor;
                       textOverrideColor := CellBackgroundColor |};
     hyperlinkDecoration := {| normal := white; hover := white |} |}.

(** A terminal of the given width whose viewport is not scrolled, in normal
    mode with the vi cursor at [at_]; nothing is selected or highlighted. *)
Definition terminalWith (columns_ : Z) (at_ : CellLocation) (cursorVisible : bool)
  : Terminal :=
  {| inputHandlerMode := ViMode.Normal;
     realCursorPosition := at_;
     viCursorPosition := at_;
     lastFrameID := 1;
     cursorCurrentlyVisible := cursorVisible;
     isLineVisible := fun _ => true;
     scrollOffset := 0;
     translateScreenToGridCoordinate := fun p => p;
     translateGridToScreenCoordinate := fun p => p;
     focused := true;
     cursorShape := Bar;
     cellWidthAt := fun _ => 1;
     isSelected := fun _ => false;
     isHighlighted := fun _ => false;
     blinkState := true;
     rapidBlinkState := true;
     colorPalette := palette;
     hyperlinkById := fun _ => None;
     pageColumns := columns_;
     searchPattern := [] |}.

Definition emptyBuffer : RenderBuffer :=
  {| frameID := 0; cursor := None; cells := []; lines := [] |}.

Definition glyph (c : Z) : SimpleCell :=
  {| sc_codepoints := [c]; sc_width := 1; sc_flags := 0;
     sc_foreground := white; sc_background := black |}.

Definition blank : SimpleCell :=
  {| sc_codepoints := []; sc_width := 1; sc_flags := 0;
     sc_foreground := white; sc_background := black |}.

Definition plainAttributes : GraphicsAttributes :=
  {| sgrForegroundColor := white; sgrBackgroundColor := black;
     underlineColor := white; sgrFlags := 0 |}.

Definition origin : CellLocation := {| line := 0; column := 0 |}.
Definition secondColumn : CellLocation := {| line := 0; column := 1 |}.

(** A page of one line and three columns that shows [a] in its first
    column; the cursor is visible in the second column, where the input
    method holds the preedit text U+4E2D (one cluster, two columns). *)
Definition wideFrame : RenderBufferBuilder :=
  construct (terminalWith 3 secondColumn true) emptyBuffer 0 false No
    {| preeditString := [0xE4; 0xB8; 0xAD] |}.

Definition wideGrid : list (@GridLine foreign SimpleCell) :=
  [CellLine [glyph 97; blank; blank]].

(** The same page with the preedit text U+2764 U+FE0F: one cluster, which
    the variation selector makes two columns wide whatever the width of its
    base. *)
Definition heartFrame : RenderBufferBuilder :=
  construct (terminalWith 3 secondColumn true) emptyBuffer 0 false No
    {| preeditString := [0xE2; 0x9D; 0xA4; 0xEF; 0xB8; 0x8F] |}.

(** The same page with the preedit text [xy] (two clusters of one column)
    and a glyph in the third column. *)
Definition narrowFrame : RenderBufferBuilder :=
  construct (terminalWith 3 secondColumn true) emptyBuffer 0 false No
    {| preeditString := [120; 121] |}.

(** A page whose cursor is hidden and sits in the first column, where the
    input method holds the preedit text [a]. *)
Definition hiddenCursorFrame : RenderBufferBuilder :=
  construct (terminalWith 3 origin false) emptyBuffer 0 false No
    {| preeditString := [97] |}.

(** A page of two columns without preedit text, and two trivial lines for
    it: one that claims both columns and has no text, one with the text
    [ab]. *)
Definition twoColumnFrame : RenderBufferBuilder :=
  construct (terminalWith 2 origin true) emptyBuffer 0 false No
    {| preeditString := [] |}.

Definition fullLineWithoutText : TrivialLineBuffer :=
  {| trivialTextAttributes := plainAttributes;
     trivialFillAttributes := plainAttributes;
     usedColumns := 2;
     text := [] |}.

Definition lineAB : TrivialLineBuffer :=
  {| trivialTextAttributes := plainAttributes;
     trivialFillAttributes := plainAttributes;
     usedColumns := 2;
     text := [97; 98] |}.

(** The terminal of [terminalWith] with a block cursor and with the search
    pattern [ab]. *)
Definition searchingTerminal (columns_ : Z) (at_ : CellLocation) : Terminal :=
  {| inputHandlerMode := ViMode.Normal;
     realCursorPosition := at_;
     viCursorPosition := at_;
     lastFrameID := 1;
     cursorCurrentlyVisible := true;
     isLineVisible := fun _ => true;
     scrollOffset := 0;
     translateScreenToGridCoordinate := fun p => p;
     translateGridToScreenCoordinate := fun p => p;
     focused := true;
     cursorShape := Block;
     cellWidthAt := fun _ => 1;
     isSelected := fun _ => false;
     isHighlighted := fun _ => false;
     blinkState := true;
     rapidBlinkState := true;
     colorPalette := palette;
     hyperlinkById := fun _ => None;
     pageColumns := columns_;
     searchPattern := [97; 98] |}.

(** A page of four columns without preedit text, with search highlighting
    on and a block cursor in the first column. *)
Definition blockFrame : RenderBufferBuilder :=
  construct (searchingTerminal 4 origin) emptyBuffer 0 false Yes
    {| preeditString := [] |}.

Definition wideGlyph (c : Z) : SimpleCell :=
  {| sc_codepoints := [c]; sc_width := 2; sc_flags := 0;
     sc_foreground := white; sc_background := black |}.

(** What an observer of the run markers sees of a cell. *)
Definition markers (c : RenderCell) : u32string * bool * bool :=
  (codepoints c, groupStart c, groupEnd c).

End Fixture.

(** * Properties of the input handler *)

Module ViTheory.
Import Vi.

(** Unfolds the monad down to the outcome of a computation. *)
Ltac run :=
  unfold bind, get, modify, ret, fail, require, assert, returning; simpl.

Lemma wrap32_add (a b : Z) : wrap32 (wrap32 a + wrap32 b) = wrap32 (a + b).
Proof. unfold wrap32. symmetry. apply Zplus_mod. Qed.

Lemma wrap32_small (a : Z) : 0 <= a < 2 ^ 32 -> wrap32 a = a.
Proof. intros H. unfold wrap32. now apply Z.mod_small. Qed.

(** ** Mode changes and commits reset the pending input *)

Lemma setMode_resets (h : ViInputHandler) (theMode : ViMode.t) :
  viMode h <> theMode ->
  setMode theMode h =
    Done tt (mkHandler theMode (searchEditMode h) 0 None None (searchTerm h)
               (executor h ++ [(modeChanged theMode, searchTerm h)]) (errorlog h)).
Proof.
  intros Hne. destruct h as [mode sem c pend scope term ex elog]; simpl in *.
  destruct mode, theMode; try congruence; reflexivity.
Qed.

Lemma setMode_same (h : ViInputHandler) : setMode (viMode h) h = Done tt h.
Proof. destruct h as [[] sem c pend scope term ex elog]; reflexivity. Qed.

Lemma executePendingOrMoveCursor_resets (h : ViInputHandler) (motion : ViMotion.t) :
  exists h', executePendingOrMoveCursor motion h = Done true h'
             /\ count h' = 0 /\ pendingOperator h' = None
             /\ pendingTextObjectScope h' = None.
Proof.
  destruct h as [mode sem c [[]|] scope term ex elog];
    eexists; (split; [reflexivity | simpl; auto]).
Qed.

Lemma yank_resets (h : ViInputHandler) scope textObject :
  yank scope textObject h =
    Done tt (mkHandler (viMode h) (searchEditMode h) 0 None None (searchTerm h)
               (executor h ++ [(yank_ scope textObject, searchTerm h)]) (errorlog h)).
Proof. reflexivity. Qed.

Lemma select_resets (h : ViInputHandler) scope textObject :
  select scope textObject h =
    Done tt (mkHandler (viMode h) (searchEditMode h) 0 None None (searchTerm h)
               (executor h ++ [(select_ scope textObject, searchTerm h)]) (errorlog h)).
Proof. reflexivity. Qed.

Lemma execute_resets (h : ViInputHandler) op motion :
  execute op motion h =
    Done tt (mkHandler (viMode h) (searchEditMode h) 0 None None (searchTerm h)
               (executor h ++ [(execute_ op motion (countOr1 (count h)), searchTerm h)])
               (errorlog h)).
Proof. reflexivity. Qed.

(** ** Keys that call the executor without a reset *)

(** In normal mode [p], [n], [N], [#] and [*] call the executor and leave
    every field as it was. *)
Lemma normal_direct_calls (h : ViInputHandler) :
  viMode h = ViMode.Normal -> searchEditMode h = SearchEditMode.Disabled ->
  sendCharPressEvent (chr "p") Modifier.None h
    = (invoke (paste (countOr1 (count h))) ;;; ret true) h
  /\ sendCharPressEvent (chr "n") Modifier.None h
    = (invoke (jumpToNextMatch (countOr1 (count h))) ;;; ret true) h
  /\ sendCharPressEvent (chr "N") Modifier.None h
    = (invoke (jumpToPreviousMatch (countOr1 (count h))) ;;; ret true) h
  /\ sendCharPressEvent (chr "#") Modifier.None h
    = (invoke reverseSearchCurrentWord ;;; ret true) h
  /\ sendCharPressEvent (chr "*") Modifier.None h
    = (invoke searchCurrentWord ;;; ret true) h.
Proof.
  destruct h as [mode sem c pend scope term ex elog]; simpl.
  intros -> ->. repeat split; destruct pend as [[]|]; reflexivity.
Qed.

(** C2.  The design document has the count and the pending operator and scope reset
    after every call that commits an action.  The paths through [yank],
    [select], [execute] and [executePendingOrMoveCursor] do reset them; the
    keys that [handleNormalMode] sends to the executor itself do not.  After
    [3] and [p] in normal mode the executor has been asked to paste three
    times and the count is still 3, so a following [j] moves three lines
    down; after [y] and [n] the yank operator is still pending. *)
Theorem paste_keeps_count :
  sendChars [(chr "3", Modifier.None); (chr "p", Modifier.None)] (idle ViMode.Normal)
  = Done tt (mkHandler ViMode.Normal SearchEditMode.Disabled 3 None None []
               [(paste 3, [])] [])
  /\ sendChars [(chr "3", Modifier.None); (chr "p", Modifier.None);
                (chr "j", Modifier.None)] (idle ViMode.Normal)
     = Done tt (mkHandler ViMode.Normal SearchEditMode.Disabled 0 None None []
                  [(paste 3, []); (moveCursor ViMotion.LineDown 3, [])] [])
  /\ sendChars [(chr "y", Modifier.None); (chr "n", Modifier.None)] (idle ViMode.Normal)
     = Done tt (mkHandler ViMode.Normal SearchEditMode.Disabled 0
                  (Some ViOperator.Yank) None [] [(jumpToNextMatch 1, [])] []).
Proof. repeat split; reflexivity. Qed.

(** ** [n] and [N] in the visual modes *)

(** A label that carries [Shift] cannot be hit by a [switch] over an input
    from which [Shift] was stripped: bit 0 of the two codes differs. *)
Lemma shift_label_dead (modifier : Modifier.t) (ch label : Z) :
  code (with_ (Modifier.without modifier Modifier.Shift) ch)
  <> code (with_ Modifier.Shift label).
Proof.
  unfold code, with_, Modifier.without, Modifier.Shift, Modifier.value, wrap32; simpl.
  intros Heq.
  assert (Hbit : Z.testbit (Z.lor (Z.shiftl ch 5 mod 2 ^ 32) (Z.land (Z.ldiff modifier 1) 31)) 0
                 = Z.testbit (Z.lor (Z.shiftl label 5 mod 2 ^ 32) (Z.land 1 31)) 0)
    by now rewrite Heq.
  rewrite !Z.lor_spec, !Z.land_spec, Z.ldiff_spec in Hbit.
  rewrite !Z.mod_pow2_bits_low in Hbit by lia.
  rewrite !Z.shiftl_spec_low in Hbit by lia.
  simpl in Hbit. rewrite andb_false_r in Hbit. discriminate.
Qed.

Lemma visual_n_jumps (h : ViInputHandler) :
  isVisual (viMode h) -> searchEditMode h = SearchEditMode.Disabled ->
  sendCharPressEvent (chr "n") Modifier.None h
  = (invoke (jumpToNextMatch (countOr1 (count h))) ;;; ret true) h.
Proof.
  destruct h as [mode sem c pend scope term ex elog]; simpl.
  intros [-> | [-> | ->]] ->; destruct pend as [[]|], scope as [[]|]; reflexivity.
Qed.

Lemma visual_N_moves (h : ViInputHandler) (modifier : Modifier.t) :
  isVisual (viMode h) -> searchEditMode h = SearchEditMode.Disabled ->
  modifier = Modifier.None \/ modifier = Modifier.Shift ->
  sendCharPressEvent (chr "N") modifier h
  = executePendingOrMoveCursor ViMotion.SearchResultBackward h.
Proof.
  destruct h as [mode sem c pend scope term ex elog]; simpl.
  intros [-> | [-> | ->]] -> [-> | ->];
    destruct pend as [[]|], scope as [[]|]; reflexivity.
Qed.

(** C3.  [n] does reach [jumpToNextMatch] ([visual_n_jumps]).  [N] does not
    reach [jumpToPreviousMatch]: its label in [handleVisualMode] carries
    [Shift] while the value switched on has [Shift] stripped
    ([shift_label_dead]), so the event falls through to [parseTextObject],
    whose motion table sends it to [moveCursor(SearchResultBackward, count)]
    and resets the count.  Shown for Shift+N in the three visual modes, with
    and without a count. *)
Theorem visual_shift_N_never_jumps :
  sendCharPressEvent (chr "N") Modifier.Shift (idle ViMode.Visual)
  = Done true (mkHandler ViMode.Visual SearchEditMode.Disabled 0 None None []
                 [(moveCursor ViMotion.SearchResultBackward 1, [])] [])
  /\ sendCharPressEvent (chr "N") Modifier.Shift (idle ViMode.VisualLine)
     = Done true (mkHandler ViMode.VisualLine SearchEditMode.Disabled 0 None None []
                    [(moveCursor ViMotion.SearchResultBackward 1, [])] [])
  /\ sendCharPressEvent (chr "N") Modifier.Shift (idle ViMode.VisualBlock)
     = Done true (mkHandler ViMode.VisualBlock SearchEditMode.Disabled 0 None None []
                    [(moveCursor ViMotion.SearchResultBackward 1, [])] [])
  /\ sendChars [(chr "2", Modifier.None); (chr "N", Modifier.Shift)] (idle ViMode.Visual)
     = Done tt (mkHandler ViMode.Visual SearchEditMode.Disabled 0 None None []
                  [(moveCursor ViMotion.SearchResultBackward 2, [])] [])
  /\ sendChars [(chr "2", Modifier.None); (chr "N", Modifier.None)] (idle ViMode.Visual)
     = Done tt (mkHandler ViMode.Visual SearchEditMode.Disabled 0 None None []
                  [(moveCursor ViMotion.SearchResultBackward 2, [])] []).
Proof. repeat split; reflexivity. Qed.

(** ** Counts *)

(** An unmodified digit that is not a [0] on a count of zero: [parseCount]
    takes it, and in the normal and visual modes the event does nothing
    but that. *)
Lemma digit_event (h : ViInputHandler) (ch : Z) :
  chr "0" <= ch <= chr "9" ->
  (ch = chr "0" -> count h <> 0) ->
  parseCount ch Modifier.None h
  = (set_count (wrap32 (count h * 10 + (ch - chr "0"))) ;;; ret true) h
  /\ (searchEditMode h = SearchEditMode.Disabled -> viMode h <> ViMode.Insert ->
      sendCharPressEvent ch Modifier.None h
      = (set_count (wrap32 (count h * 10 + (ch - chr "0"))) ;;; ret true) h).
Proof.
  destruct h as [mode sem c pend scope term ex elog]; simpl.
  intros Hrange Hzero.
  change (chr "0") with 48 in *. change (chr "9") with 57 in *.
  assert (Hcases : ch = 48 \/ ch = 49 \/ ch = 50 \/ ch = 51 \/ ch = 52 \/ ch = 53
                   \/ ch = 54 \/ ch = 55 \/ ch = 56 \/ ch = 57) by lia.
  assert (Hc : ch = 48 -> (c =? 0) = false).
  { intros E. apply Z.eqb_neq. auto. }
  rewrite <- (wrap32_add (c * 10) (ch - 48)).
  split.
  - unfold parseCount. run.
    destruct Hcases as [->|[->|[->|[->|[->|[->|[->|[->|[->| ->]]]]]]]]]; simpl;
      try reflexivity.
    now rewrite Hc.
  - intros -> Hmode.
    destruct Hcases as [->|[->|[->|[->|[->|[->|[->|[->|[->| ->]]]]]]]]];
      destruct mode; try congruence;
      unfold sendCharPressEvent, handleNormalMode, handleVisualMode,
             parseModeSwitch, parseCount; run;
      rewrite ?Hc by reflexivity; destruct pend as [[]|]; reflexivity.
Qed.

(** C6.  An unmodified digit is a count digit unless it is a [0] that
    arrives while the count is zero: [parseCount] then multiplies the count
    by ten and adds the digit (in the 32 bits of [unsigned]), and in the
    normal and visual modes the event does nothing else.  A [0] that arrives
    while the count is zero is declined by [parseCount] and ends in the
    motion table of [parseTextObject], which dispatches [LineBegin]. *)
Theorem count_digits (h : ViInputHandler) :
  (forall ch : Z,
      chr "0" <= ch <= chr "9" ->
      (ch = chr "0" -> count h <> 0) ->
      parseCount ch Modifier.None h
      = (set_count (wrap32 (count h * 10 + (ch - chr "0"))) ;;; ret true) h
      /\ (searchEditMode h = SearchEditMode.Disabled -> viMode h <> ViMode.Insert ->
          sendCharPressEvent ch Modifier.None h
          = (set_count (wrap32 (count h * 10 + (ch - chr "0"))) ;;; ret true) h))
  /\ (count h = 0 ->
      parseCount (chr "0") Modifier.None h = Done false h
      /\ (searchEditMode h = SearchEditMode.Disabled -> viMode h <> ViMode.Insert ->
          sendCharPressEvent (chr "0") Modifier.None h
          = executePendingOrMoveCursor ViMotion.LineBegin h)).
Proof.
  split.
  - intros ch Hrange Hzero. now apply digit_event.
  - destruct h as [mode sem c pend scope term ex elog]; simpl.
    intros ->. split; [reflexivity |].
    intros -> Hmode.
    destruct mode; try congruence;
      destruct pend as [[]|], scope as [[]|]; reflexivity.
Qed.

Lemma count_digits_witness :
  parseCount (chr "7") Modifier.None
    (mkHandler ViMode.Normal SearchEditMode.Disabled 4 None None [] [] [])
  = Done true (mkHandler ViMode.Normal SearchEditMode.Disabled 47 None None [] [] [])
  /\ sendCharPressEvent (chr "0") Modifier.None (idle ViMode.Visual)
     = Done true (mkHandler ViMode.Visual SearchEditMode.Disabled 0 None None []
                    [(moveCursor ViMotion.LineBegin 1, [])] []).
Proof.
  split.
  - destruct (count_digits
                (mkHandler ViMode.Normal SearchEditMode.Disabled 4 None None [] [] []))
      as [Hdigit _].
    destruct (Hdigit (chr "7")) as [Hparse _].
    + vm_compute. split; discriminate.
    + discriminate.
    + rewrite Hparse. reflexivity.
  - destruct (count_digits (idle ViMode.Visual)) as [_ Hzero].
    destruct Hzero as [_ Hsend]; [reflexivity |].
    rewrite Hsend; [reflexivity | reflexivity | discriminate].
Defined.

(** Consecutive digits spell the count in decimal, as long as the number
    fits the 32 bits of the field. *)
Lemma digits_spell_count (digits : list Z) (h : ViInputHandler) :
  searchEditMode h = SearchEditMode.Disabled -> viMode h <> ViMode.Insert ->
  0 < count h ->
  Forall (fun d => 0 <= d <= 9) digits ->
  decimal (count h) digits < 2 ^ 32 ->
  sendChars (map (fun d => (chr "0" + d, Modifier.None)) digits) h
  = (set_count (decimal (count h) digits) ;;; ret tt) h.
Proof.
  revert h. induction digits as [|d digits IH]; intros h Hsem Hmode Hpos Hall Hfit.
  - destruct h; reflexivity.
  - inversion Hall as [|? ? Hd Hall']; subst.
    assert (Hmono : forall ds acc, 0 <= acc -> Forall (fun d => 0 <= d <= 9) ds ->
                                   acc <= decimal acc ds).
    { clear. induction ds as [|x ds IHds]; intros acc Hacc Hds; simpl; [lia|].
      inversion Hds; subst. etransitivity; [| apply IHds; [lia | assumption]]. lia. }
    simpl in Hfit.
    pose proof (Hmono digits (count h * 10 + d) ltac:(lia) Hall') as Hle.
    destruct (digit_event h (chr "0" + d)) as [_ Hsend].
    { change (chr "0") with 48. change (chr "9") with 57. lia. }
    { change (chr "0") with 48. lia. }
    simpl. unfold bind at 1. rewrite (Hsend Hsem Hmode).
    replace (chr "0" + d - chr "0") with d by lia.
    rewrite wrap32_small by lia.
    destruct h as [mode sem c pend scope term ex elog]; simpl in *.
    rewrite IH; simpl; auto; lia.
Qed.

(** ** The search editor *)

(** C7.  In the search editor an unmodified Escape empties the search term,
    leaves the editor, puts the handler into insert mode exactly when the
    editor was entered from outside (otherwise the mode stays), and calls
    [searchCancel] last, when the stored term is already empty.  The executor
    is told of a mode change before that when the mode did change. *)
Theorem searchEditor_escape (h : ViInputHandler) :
  searchEditMode h <> SearchEditMode.Disabled ->
  exists h',
    sendCharPressEvent 27 Modifier.None h = Done true h'
    /\ handleSearchEditor 27 Modifier.None h = Done true h'
    /\ searchTerm h' = []
    /\ searchEditMode h' = SearchEditMode.Disabled
    /\ viMode h' = (if SearchEditMode.eqb (searchEditMode h) SearchEditMode.ExternallyEnabled
                    then ViMode.Insert else viMode h)
    /\ executor h'
       = (executor h
          ++ (if SearchEditMode.eqb (searchEditMode h) SearchEditMode.ExternallyEnabled
                 && negb (ViMode.eqb (viMode h) ViMode.Insert)
              then [(modeChanged ViMode.Insert, [])] else []))
         ++ [(searchCancel, [])]
    /\ errorlog h' = errorlog h.
Proof.
  destruct h as [mode sem c pend scope term ex elog]; simpl. intros Hsem.
  destruct sem; [congruence | |]; destruct mode;
    (eexists; split; [cbv; reflexivity |]; split; [cbv; reflexivity |]; simpl;
     rewrite ?app_nil_r; repeat split; reflexivity).
Qed.

(** The scenario of the design document: the editor is entered from insert
    mode, "foo" is typed, then Escape. *)
Lemma searchEditor_escape_witness :
  exists h',
    (startSearchExternally ;;;
     sendChars [(chr "f", Modifier.None); (chr "o", Modifier.None);
                (chr "o", Modifier.None)] ;;;
     sendCharPressEvent 27 Modifier.None) (idle ViMode.Insert) = Done true h'
    /\ searchTerm h' = []
    /\ viMode h' = ViMode.Insert
    /\ last (executor h') = Some (searchCancel, []).
Proof.
  set (typed := mkHandler ViMode.Normal SearchEditMode.ExternallyEnabled 0 None None
                  [102; 111; 111]
                  [(searchStart, []); (modeChanged ViMode.Normal, []);
                   (updateSearchTerm [102], [102]);
                   (updateSearchTerm [102; 111], [102; 111]);
                   (updateSearchTerm [102; 111; 111], [102; 111; 111])] []).
  destruct (searchEditor_escape typed) as (h' & Hsend & _ & Hterm & _ & Hmode & Hcalls & _).
  { discriminate. }
  exists h'. split; [exact Hsend |]. split; [exact Hterm |].
  split; [exact Hmode |]. rewrite Hcalls. apply last_snoc.
Defined.

Lemma search_foo_escape_from_normal :
  sendChars [(chr "/", Modifier.None); (chr "f", Modifier.None);
             (chr "o", Modifier.None); (chr "o", Modifier.None);
             (27, Modifier.None)] (idle ViMode.Normal)
  = Done tt (mkHandler ViMode.Normal SearchEditMode.Disabled 0 None None []
               [(searchStart, []);
                (updateSearchTerm [102], [102]);
                (updateSearchTerm [102; 111], [102; 111]);
                (updateSearchTerm [102; 111; 111], [102; 111; 111]);
                (searchCancel, [])] []).
Proof. reflexivity. Qed.

Lemma search_foo_escape_from_insert :
  (startSearchExternally ;;;
   sendChars [(chr "f", Modifier.None); (chr "o", Modifier.None);
              (chr "o", Modifier.None); (27, Modifier.None)]) (idle ViMode.Insert)
  = Done tt (mkHandler ViMode.Insert SearchEditMode.Disabled 0 None None []
               [(searchStart, []); (modeChanged ViMode.Normal, []);
                (updateSearchTerm [102], [102]);
                (updateSearchTerm [102; 111], [102; 111]);
                (updateSearchTerm [102; 111; 111], [102; 111; 111]);
                (modeChanged ViMode.Insert, []);
                (searchCancel, [])] []).
Proof. reflexivity. Qed.

(** ** Yank on a bare motion *)

(** C8.  With the yank operator pending, [executePendingOrMoveCursor] makes
    no call on the executor: it logs that the implementation is to come,
    resets the count and what is pending, and reports the event handled. *)
Theorem yank_on_motion_is_logged_only (h : ViInputHandler) (motion : ViMotion.t) :
  pendingOperator h = Some ViOperator.Yank ->
  executePendingOrMoveCursor motion h
  = Done true (mkHandler (viMode h) (searchEditMode h) 0 None None (searchTerm h)
                 (executor h) (errorlog h ++ [YankImplementationComing motion])).
Proof.
  destruct h as [mode sem c pend scope term ex elog]; simpl. intros ->. reflexivity.
Qed.

Lemma yank_on_motion_is_logged_only_witness :
  executePendingOrMoveCursor ViMotion.LineDown
    (mkHandler ViMode.Normal SearchEditMode.Disabled 2 (Some ViOperator.Yank)
       (Some TextObjectScope.Inner) [] [] [])
  = Done true (mkHandler ViMode.Normal SearchEditMode.Disabled 0 None None [] []
                 [YankImplementationComing ViMotion.LineDown]).
Proof.
  apply (yank_on_motion_is_logged_only
           (mkHandler ViMode.Normal SearchEditMode.Disabled 2 (Some ViOperator.Yank)
              (Some TextObjectScope.Inner) [] [] [])).
  reflexivity.
Defined.

(** The same through the events [y] and [j] in normal mode. *)
Lemma yank_then_motion_calls_nothing :
  sendChars [(chr "y", Modifier.None); (chr "j", Modifier.None)] (idle ViMode.Normal)
  = Done tt (mkHandler ViMode.Normal SearchEditMode.Disabled 0 None None [] []
               [YankImplementationComing ViMotion.LineDown]).
Proof. reflexivity. Qed.

(** The two other scenarios of the design document. *)
Lemma three_j_moves_three_lines :
  sendChars [(chr "3", Modifier.None); (chr "j", Modifier.None)] (idle ViMode.Normal)
  = Done tt (mkHandler ViMode.Normal SearchEditMode.Disabled 0 None None []
               [(moveCursor ViMotion.LineDown 3, [])] []).
Proof. reflexivity. Qed.

Lemma yy_yanks_the_line :
  sendChars [(chr "y", Modifier.None); (chr "y", Modifier.None)] (idle ViMode.Normal)
  = Done tt (mkHandler ViMode.Normal SearchEditMode.Disabled 0 None None []
               [(execute_ ViOperator.Yank ViMotion.FullLine 1, [])] []).
Proof. reflexivity. Qed.

End ViTheory.

(** * The input handler under every event *)

Module ViEvents.
Import Vi.

#[local] Arguments switch : simpl never.
#[local] Arguments returning : simpl never.
#[local] Arguments code : simpl never.
#[local] Arguments countOr1 : simpl never.
#[local] Arguments wrap32 : simpl never.
#[local] Arguments charToTextObject : simpl never.
#[local] Arguments Modifier.without : simpl never.
#[local] Arguments Modifier.none : simpl never.
#[local] Arguments Modifier.any : simpl never.
#[local] Arguments parseModeSwitch : simpl never.
#[local] Arguments parseCount : simpl never.
#[local] Arguments parseTextObject : simpl never.
#[local] Arguments handleNormalMode : simpl never.
#[local] Arguments handleVisualMode : simpl never.
#[local] Arguments handleSearchEditor : simpl never.

Ltac run := unfold bind, get, modify, ret, fail, require, assert; simpl.

Ltac unfold_actions :=
  unfold executePendingOrMoveCursor, startSearch, scrollViewport, execute, yank, select,
         toggleMode, setMode,
         set_viMode, set_searchEditMode, set_count, set_pendingOperator,
         set_pendingTextObjectScope, set_searchTerm, invoke, log.

(** Splits on a test that the computation in the goal is stuck on: one
    whose subject holds no test itself. *)
Ltac stuck_on x :=
  lazymatch x with
  | context [match _ with _ => _ end] => fail
  | context [if _ then _ else _] => fail
  | _ => idtac
  end.

Ltac split_next :=
  match goal with
  | |- context [if ?b then _ else _] => stuck_on b; destruct b eqn:?
  | |- context [match ?x with _ => _ end] => stuck_on x; destruct x eqn:?
  end.

Lemma switch_ind {A : Type} (P : A -> Prop) (v : Z) (cases : list (Z * A)) (default : A) :
  P default -> List.Forall (fun c => P (snd c)) cases -> P (switch v cases default).
Proof.
  intros Hdefault Hcases. induction Hcases as [|[label body] rest Hbody _ IH].
  - exact Hdefault.
  - unfold switch; fold (@switch A). destruct (v =? label); [exact Hbody | exact IH].
Qed.

(** Reduces a property of a [switch] in the goal to the same property of
    each of its bodies. *)
Ltac by_cases :=
  match goal with
  | |- context [switch ?v ?cs ?d] =>
      pattern (switch v cs d); apply switch_ind;
      [| repeat (apply List.Forall_cons); try apply List.Forall_nil ];
      cbv beta; unfold snd
  end.

Lemma eventStep_refl (h : ViInputHandler) : eventStep h h.
Proof.
  exists [], []. rewrite !app_nil_r. simpl.
  repeat split; try tauto; congruence.
Qed.

Ltac solve_appended :=
  first [ reflexivity
        | symmetry; apply app_nil_r
        | rewrite <- app_assoc; reflexivity ].

Ltac solve_step :=
  first
    [ apply eventStep_refl
    | unfold eventStep, pendingEmpty, wellModed; simpl;
      eexists _, _;
      split; [solve_appended |];
      split; [solve_appended |];
      simpl;
      repeat split; intros;
      repeat match goal with
             | H : _ \/ _ |- _ => destruct H
             | H : _ /\ _ |- _ => destruct H
             end;
      subst; simpl in *;
      solve [ congruence | tauto | left; congruence | right; congruence
            | split; congruence ] ].

(** Closes a goal whose computation has come to an end. *)
Ltac finish :=
  unfold parses, blockSteps, steps;
  first
    [ left; reflexivity
    | right; eexists; split; [reflexivity | solve_step]
    | right; eexists _, _; split; [reflexivity | split; [first [reflexivity | exact I] | solve_step]]
    | eexists; split; [reflexivity | solve_step] ].

Ltac crunch := unfold parses, blockSteps, steps; run; repeat (split_next; run); finish.

Lemma parses_ext (h : ViInputHandler) (c c' : Handler bool) :
  c h = c' h -> parses h c' -> parses h c.
Proof. unfold parses. intros ->. auto. Qed.

Lemma steps_ext (h : ViInputHandler) (c c' : Handler unit) :
  c h = c' h -> steps h c' -> steps h c.
Proof. unfold steps. intros ->. auto. Qed.

Lemma parses_returning (h : ViInputHandler) (block : Handler (option bool))
      (rest : Handler bool) :
  blockSteps h (eq true) block -> parses h rest -> parses h (returning block rest).
Proof.
  unfold blockSteps, parses, returning, bind, ret.
  intros [Hfall | (a & h' & Hret & <- & Hstep)] Hrest.
  - rewrite Hfall. exact Hrest.
  - rewrite Hret. right. exists h'. auto.
Qed.

Lemma steps_returning (h : ViInputHandler) (block : Handler (option unit))
      (rest : Handler unit) :
  blockSteps h (fun _ => True) block -> steps h rest -> steps h (returning block rest).
Proof.
  unfold blockSteps, steps, returning, bind, ret.
  intros [Hfall | (a & h' & Hret & _ & Hstep)] Hrest.
  - rewrite Hfall. exact Hrest.
  - rewrite Hret. destruct a. exists h'. auto.
Qed.

Lemma executePendingOrMoveCursor_step (motion : ViMotion.t) (h : ViInputHandler) :
  exists h', executePendingOrMoveCursor motion h = Done true h' /\ eventStep h h'.
Proof.
  destruct h as [mode sem c pend scope term ex elog].
  unfold_actions. crunch.
Qed.

Lemma parseModeSwitch_parses (ch : Z) (modifier : Modifier.t) (h : ViInputHandler) :
  viMode h <> ViMode.Insert ->
  searchEditMode h = SearchEditMode.Disabled ->
  parses h (parseModeSwitch ch modifier).
Proof.
  destruct h as [mode sem c pend scope term ex elog]. simpl. intros Hmode ->.
  destruct mode; try congruence;
    (eapply parses_ext; [unfold parseModeSwitch; run; reflexivity |]);
    (apply parses_returning; [| crunch]);
    unfold_actions; unfold blockSteps; by_cases; crunch.
Qed.

Lemma parseCount_parses (ch : Z) (modifier : Modifier.t) (h : ViInputHandler) :
  parses h (parseCount ch modifier).
Proof.
  destruct h as [mode sem c pend scope term ex elog].
  unfold parses, parseCount. unfold_actions.
  destruct (negb (Modifier.none modifier)); [left; reflexivity |].
  by_cases; crunch.
Qed.

Lemma parseTextObject_parses (ch : Z) (modifier : Modifier.t) (h : ViInputHandler) :
  viMode h <> ViMode.Insert ->
  parses h (parseTextObject ch modifier).
Proof.
  destruct h as [mode sem c pend scope term ex elog]. simpl. intros Hmode.
  destruct mode; try congruence;
    (eapply parses_ext; [unfold parseTextObject; run; reflexivity |]);
    (apply parses_returning;
     [| apply parses_returning; [| apply parses_returning ]]);
    unfold_actions;
    try solve [ crunch ];
    unfold blockSteps; run; by_cases; crunch.
Qed.

Lemma bind_parses_steps (h : ViInputHandler) (parser : Handler bool) (rest : Handler unit) :
  parses h parser -> steps h rest ->
  steps h (accepted <- parser ;; if accepted then ret tt else rest).
Proof.
  unfold parses, steps, bind, ret.
  intros [Hdeclined | (h' & Haccepted & Hstep)] Hrest.
  - rewrite Hdeclined. exact Hrest.
  - rewrite Haccepted. exists h'. auto.
Qed.

Lemma ignore_parses_steps (h : ViInputHandler) (parser : Handler bool) :
  parses h parser -> steps h (_ <- parser ;; ret tt).
Proof.
  unfold parses, steps, bind, ret.
  intros [Hdeclined | (h' & Haccepted & Hstep)].
  - rewrite Hdeclined. exists h. split; [reflexivity | apply eventStep_refl].
  - rewrite Haccepted. exists h'. auto.
Qed.

Lemma handleNormalMode_steps (ch : Z) (modifier : Modifier.t) (h : ViInputHandler) :
  viMode h = ViMode.Normal ->
  searchEditMode h = SearchEditMode.Disabled ->
  steps h (handleNormalMode ch modifier).
Proof.
  intros Hmode Hsearch.
  assert (Hnot : viMode h <> ViMode.Insert) by congruence.
  pose proof (parseModeSwitch_parses ch modifier h Hnot Hsearch) as Hswitch.
  pose proof (parseCount_parses ch modifier h) as Hcount.
  pose proof (parseTextObject_parses ch modifier h Hnot) as Hobject.
  destruct h as [mode sem c pend scope term ex elog]. simpl in Hmode, Hsearch. subst.
  unfold steps, handleNormalMode. run.
  destruct Hswitch as [-> | (h' & -> & Hstep)]; [| exists h'; auto].
  destruct Hcount as [-> | (h' & -> & Hstep)]; [| exists h'; auto].
  apply steps_returning; [| apply ignore_parses_steps in Hobject; exact Hobject].
  clear. unfold_actions. unfold blockSteps; run; by_cases; crunch.
Qed.

Lemma handleVisualMode_steps (ch : Z) (modifier : Modifier.t) (h : ViInputHandler) :
  isVisual (viMode h) ->
  searchEditMode h = SearchEditMode.Disabled ->
  steps h (handleVisualMode ch modifier).
Proof.
  intros Hmode Hsearch.
  assert (Hnot : viMode h <> ViMode.Insert)
    by (destruct Hmode as [H | [H | H]]; rewrite H; discriminate).
  pose proof (parseModeSwitch_parses ch modifier h Hnot Hsearch) as Hswitch.
  pose proof (parseCount_parses ch modifier h) as Hcount.
  pose proof (parseTextObject_parses ch modifier h Hnot) as Hobject.
  destruct h as [mode sem c pend scope term ex elog]. simpl in Hmode, Hsearch, Hnot. subst.
  apply ignore_parses_steps in Hobject.
  destruct Hmode as [-> | [-> | ->]];
    unfold steps, handleVisualMode; run;
    (destruct Hswitch as [-> | (h' & -> & Hstep)]; [| exists h'; auto]);
    (destruct Hcount as [-> | (h' & -> & Hstep)]; [| exists h'; auto]);
    (apply steps_returning; [| apply steps_returning; [| exact Hobject]]);
    clear; unfold_actions;
    try solve [ crunch ];
    unfold blockSteps; run; by_cases; crunch.
Qed.

Lemma handleSearchEditor_step (ch : Z) (modifier : Modifier.t) (h : ViInputHandler) :
  searchEditMode h <> SearchEditMode.Disabled ->
  exists h', handleSearchEditor ch modifier h = Done true h' /\ eventStep h h'.
Proof.
  destruct h as [mode sem c pend scope term ex elog]. simpl. intros Hsearch.
  unfold handleSearchEditor. unfold_actions.
  destruct sem; try congruence; run; by_cases; destruct mode; crunch.
Qed.

Lemma startSearchExternally_steps (h : ViInputHandler) :
  steps h startSearchExternally.
Proof.
  destruct h as [mode sem c pend scope term ex elog].
  unfold startSearchExternally. unfold_actions.
  destruct mode, sem; crunch.
Qed.

Lemma sendKeyPressEvent_parses (key : Key.t) (modifier : Modifier.t) (h : ViInputHandler) :
  parses h (sendKeyPressEvent key modifier).
Proof.
  destruct h as [mode sem c pend scope term ex elog].
  unfold sendKeyPressEvent. unfold_actions.
  destruct sem, mode; run; try solve [ finish ];
    destruct (Modifier.any modifier); try solve [ finish ];
    destruct key; crunch.
Qed.

Lemma sendCharPressEvent_parses (ch : Z) (modifier : Modifier.t) (h : ViInputHandler) :
  parses h (sendCharPressEvent ch modifier).
Proof.
  pose proof (handleSearchEditor_step ch modifier h) as Heditor.
  pose proof (handleNormalMode_steps ch modifier h) as Hnormal.
  pose proof (handleVisualMode_steps ch modifier h) as Hvisual.
  unfold isVisual, steps in *.
  destruct h as [mode sem c pend scope term ex elog]. simpl in *.
  unfold parses, sendCharPressEvent.
  destruct sem; run; try (right; apply Heditor; discriminate).
  destruct mode; run.
  2: left; reflexivity.
  1: destruct (Hnormal eq_refl eq_refl) as (h1 & -> & Hstep).
  2-4: destruct (Hvisual ltac:(auto) eq_refl) as (h1 & -> & Hstep).
  all: right; exists h1; auto.
Qed.

Lemma deliver_parses (e : Event) (h : ViInputHandler) : parses h (deliver e).
Proof.
  destruct e as [ch modifier | key modifier |]; simpl.
  - apply sendCharPressEvent_parses.
  - apply sendKeyPressEvent_parses.
  - destruct (startSearchExternally_steps h) as (h' & Hrun & Hstep).
    right. exists h'. unfold bind, ret. rewrite Hrun. auto.
Qed.

Lemma deliver_step (e : Event) (h : ViInputHandler) :
  exists accepted h', deliver e h = Done accepted h' /\ eventStep h h'.
Proof.
  destruct (deliver_parses e h) as [Hdeclined | (h' & Haccepted & Hstep)].
  - exists false, h. split; [assumption | apply eventStep_refl].
  - exists true, h'. auto.
Qed.

Lemma deliverAll_cons (e : Event) (events : list Event) (h : ViInputHandler) :
  exists h1, eventStep h h1 /\ deliverAll (e :: events) h = deliverAll events h1.
Proof.
  destruct (deliver_step e h) as (accepted & h1 & Hrun & Hstep).
  exists h1. split; [assumption |]. simpl. unfold bind. rewrite Hrun. reflexivity.
Qed.

Lemma deliverAll_total (events : list Event) (h : ViInputHandler) :
  exists h', deliverAll events h = Done tt h'.
Proof.
  revert h. induction events as [|e events IH]; intros h.
  - exists h. reflexivity.
  - destruct (deliverAll_cons e events h) as (h1 & _ & ->). apply IH.
Qed.

(** X1.  Whatever character events, key events and external search requests
    arrive, in whatever order and state: every one of them runs to its end.
    None of the [Require]s on the mode in [parseModeSwitch],
    [parseTextObject], [handleNormalMode] and [handleVisualMode] and not the
    [assert] of [handleSearchEditor] is ever violated. *)
Theorem events_never_fail (events : list Event) (h : ViInputHandler) :
  exists h', deliverAll events h = Done tt h'.
Proof. apply deliverAll_total. Qed.

Lemma announcedMode_app (start : ViMode.t) (a b : list ExecutorCall) :
  announcedMode start (a ++ b) = announcedMode (announcedMode start a) b.
Proof.
  revert start. induction a as [|c a IH]; intros start; [reflexivity |].
  destruct c; simpl; apply IH.
Qed.

Lemma announcedMode_all (target : ViMode.t) (cs : list ExecutorCall) (start : ViMode.t) :
  (forall m, In (modeChanged m) cs -> m = target) ->
  start = target \/ In (modeChanged target) cs ->
  announcedMode start cs = target.
Proof.
  revert start. induction cs as [|c cs IH]; intros start Hall Hsome.
  - destruct Hsome as [-> | []]. reflexivity.
  - assert (Hall' : forall m, In (modeChanged m) cs -> m = target)
      by (intros m Hin; apply Hall; right; exact Hin).
    destruct c; simpl;
      try (apply IH; [exact Hall' | destruct Hsome as [-> | [Hc | Hin]];
                                    [left; reflexivity | discriminate Hc | right; exact Hin]]).
    apply IH; [exact Hall' |]. left. apply Hall. left. reflexivity.
Qed.

Lemma announcesChanges_app (start : ViMode.t) (a b : list ExecutorCall) :
  announcesChanges start a ->
  announcesChanges (announcedMode start a) b ->
  announcesChanges start (a ++ b).
Proof.
  revert start. induction a as [|c a IH]; intros start Ha Hb; [exact Hb |].
  destruct c; simpl in *; try (apply IH; assumption).
  destruct Ha as [Hnew Ha]. split; [exact Hnew | apply IH; assumption].
Qed.

Lemma eventStep_announced (h h' : ViInputHandler) :
  eventStep h h' ->
  exists newCalls,
    executor h' = executor h ++ newCalls
    /\ announcedMode (viMode h) (map fst newCalls) = viMode h'
    /\ announcesChanges (viMode h) (map fst newCalls).
Proof.
  intros (newCalls & newLogs & Hcalls & _ & Hchange & Honly & _ & _ & Hchanges).
  exists newCalls. split; [exact Hcalls |]. split; [| exact Hchanges].
  apply announcedMode_all.
  - intros m Hin. apply Honly. exact Hin.
  - destruct (viMode h'), (viMode h);
      first [ left; reflexivity | right; apply Hchange; discriminate ].
Qed.

(** X2.  An executor that listens to [modeChanged] knows the mode, and is
    told of nothing but changes: after any run of events the mode of the
    handler is the one of the last [modeChanged] among the calls made during
    the run, and the mode before the run when there was none; and every
    [modeChanged] of the run announces a mode other than the one announced
    before it, the first one a mode other than the mode before the run. *)
Theorem mode_is_announced (events : list Event) (h h' : ViInputHandler) :
  deliverAll events h = Done tt h' ->
  exists newCalls,
    executor h' = executor h ++ newCalls
    /\ announcedMode (viMode h) (map fst newCalls) = viMode h'
    /\ announcesChanges (viMode h) (map fst newCalls).
Proof.
  revert h. induction events as [|e events IH]; intros h Hrun.
  - injection Hrun as <-. exists []. rewrite app_nil_r. repeat split.
  - destruct (deliverAll_cons e events h) as (h1 & Hstep & Hrest).
    rewrite Hrest in Hrun.
    destruct (eventStep_announced h h1 Hstep) as (first & Hfirst & Hmode1 & Hchanges1).
    destruct (IH h1 Hrun) as (others & Hothers & Hmode & Hchanges).
    exists (first ++ others). split; [| split].
    + rewrite Hothers, Hfirst, app_assoc. reflexivity.
    + rewrite map_app, announcedMode_app, Hmode1. exact Hmode.
    + rewrite map_app. apply announcesChanges_app; [exact Hchanges1 |].
      rewrite Hmode1. exact Hchanges.
Qed.

Lemma mode_is_announced_witness :
  exists newCalls,
    [(modeChanged ViMode.Visual, []); (modeChanged ViMode.VisualLine, [])]
    = executor (idle ViMode.Normal) ++ newCalls
    /\ announcedMode ViMode.Normal (map fst newCalls) = ViMode.VisualLine
    /\ announcesChanges ViMode.Normal (map fst newCalls).
Proof.
  apply (mode_is_announced
           [CharPress (chr "v") Modifier.None; CharPress (chr "V") Modifier.Shift]
           (idle ViMode.Normal)
           (mkHandler ViMode.VisualLine SearchEditMode.Disabled 0 None None []
              [(modeChanged ViMode.Visual, []); (modeChanged ViMode.VisualLine, [])] [])).
  vm_compute. reflexivity.
Defined.

(** X3.  The search editor is never open in insert mode: a handler in
    which it is not (as the one the constructor makes) stays so under every
    run of events. *)
Theorem search_editor_stays_out_of_insert (events : list Event) (h h' : ViInputHandler) :
  wellModed h ->
  deliverAll events h = Done tt h' ->
  wellModed h'.
Proof.
  revert h. induction events as [|e events IH]; intros h Hwell Hrun.
  - injection Hrun as <-. exact Hwell.
  - destruct (deliverAll_cons e events h) as (h1 & Hstep & Hrest).
    rewrite Hrest in Hrun. apply (IH h1); [| exact Hrun].
    destruct Hstep as (? & ? & _ & _ & _ & _ & Hkeeps & _). auto.
Qed.

Lemma search_editor_stays_out_of_insert_witness :
  wellModed (mkHandler ViMode.Normal SearchEditMode.ExternallyEnabled 0 None None []
               [(searchStart, []); (modeChanged ViMode.Normal, [])] []).
Proof.
  apply (search_editor_stays_out_of_insert [SearchExternally] (idle ViMode.Insert)).
  - left. reflexivity.
  - vm_compute. reflexivity.
Defined.

Lemma deliver_eventStep (e : Event) (h h' : ViInputHandler) (accepted : bool) :
  deliver e h = Done accepted h' -> eventStep h h'.
Proof.
  intros Hrun. destruct (deliver_step e h) as (a & h1 & Hrun1 & Hstep).
  rewrite Hrun in Hrun1. injection Hrun1 as _ <-. exact Hstep.
Qed.

(** X4.  No event carries a count, an operator or a text object scope over
    a change of mode: when an event has changed the mode, the count is 0 and
    no operator and no scope is pending. *)
Theorem mode_change_clears_pending (e : Event) (h h' : ViInputHandler) (accepted : bool) :
  deliver e h = Done accepted h' ->
  viMode h' <> viMode h ->
  count h' = 0 /\ pendingOperator h' = None /\ pendingTextObjectScope h' = None.
Proof.
  intros Hrun Hchanged.
  destruct (deliver_eventStep e h h' accepted Hrun) as (? & ? & _ & _ & Hchange & _).
  apply Hchange. exact Hchanged.
Qed.

Lemma mode_change_clears_pending_witness :
  count (mkHandler ViMode.Visual SearchEditMode.Disabled 0 None None []
           [(modeChanged ViMode.Visual, [])] []) = 0
  /\ pendingOperator (mkHandler ViMode.Visual SearchEditMode.Disabled 0 None None []
                        [(modeChanged ViMode.Visual, [])] []) = None
  /\ pendingTextObjectScope (mkHandler ViMode.Visual SearchEditMode.Disabled 0 None None []
                               [(modeChanged ViMode.Visual, [])] []) = None.
Proof.
  apply (mode_change_clears_pending (CharPress (chr "v") Modifier.None)
           (mkHandler ViMode.Normal SearchEditMode.Disabled 12 (Some ViOperator.Yank)
              None [] [] [])
           _ true).
  - vm_compute. reflexivity.
  - simpl. discriminate.
Defined.

(** X5.  Normal and visual mode commands leave the search term alone: an
    event before and after which the search editor is closed has not changed
    the stored search term, so that [n] and [N] go on with the last search. *)
Theorem search_term_kept_outside_editor (e : Event) (h h' : ViInputHandler)
    (accepted : bool) :
  deliver e h = Done accepted h' ->
  searchEditMode h = SearchEditMode.Disabled ->
  searchEditMode h' = SearchEditMode.Disabled ->
  searchTerm h' = searchTerm h.
Proof.
  intros Hrun Hbefore Hafter.
  destruct (deliver_eventStep e h h' accepted Hrun)
    as (? & ? & _ & _ & _ & _ & _ & Hterm & _).
  auto.
Qed.

Lemma search_term_kept_outside_editor_witness :
  searchTerm (mkHandler ViMode.Normal SearchEditMode.Disabled 0 None None [chr "a"]
                [(jumpToNextMatch 1, [chr "a"])] [])
  = searchTerm (mkHandler ViMode.Normal SearchEditMode.Disabled 0 None None [chr "a"] [] []).
Proof.
  apply (search_term_kept_outside_editor (CharPress (chr "n") Modifier.None)
           (mkHandler ViMode.Normal SearchEditMode.Disabled 0 None None [chr "a"] [] [])
           _ true).
  - vm_compute. reflexivity.
  - reflexivity.
  - reflexivity.
Defined.

(** X6.  The handler passes an event on to the application, by answering
    [false], exactly in insert mode with the search editor closed, and has
    then changed nothing.  In every other state a character or key event is
    consumed. *)
Theorem declined_only_in_insert (h : ViInputHandler) (modifier : Modifier.t) :
  (forall ch, exists accepted h',
      sendCharPressEvent ch modifier h = Done accepted h'
      /\ (accepted = false <->
          viMode h = ViMode.Insert /\ searchEditMode h = SearchEditMode.Disabled)
      /\ (accepted = false -> h' = h))
  /\ (forall key, exists accepted h',
      sendKeyPressEvent key modifier h = Done accepted h'
      /\ (accepted = false <->
          viMode h = ViMode.Insert /\ searchEditMode h = SearchEditMode.Disabled)
      /\ (accepted = false -> h' = h)).
Proof.
  split.
  - intros ch.
    pose proof (handleSearchEditor_step ch modifier h) as Heditor.
    pose proof (handleNormalMode_steps ch modifier h) as Hnormal.
    pose proof (handleVisualMode_steps ch modifier h) as Hvisual.
    unfold isVisual, steps in *.
    destruct h as [mode sem c pend scope term ex elog]. simpl in *.
    unfold sendCharPressEvent.
    destruct sem; run.
    2, 3: destruct Heditor as (h1 & -> & _); [discriminate |];
          exists true, h1; repeat split; try congruence; intros []; congruence.
    destruct mode; run.
    2: eexists false, _; repeat split; reflexivity.
    1: destruct (Hnormal eq_refl eq_refl) as (h1 & -> & _).
    2-4: destruct (Hvisual ltac:(auto) eq_refl) as (h1 & -> & _).
    all: exists true, h1; repeat split; try congruence; intros []; congruence.
  - intros key.
    destruct h as [mode sem c pend scope term ex elog]. simpl.
    unfold sendKeyPressEvent. unfold_actions.
    destruct sem, mode; run;
      try (destruct (Modifier.any modifier)); try destruct key; run;
      repeat (split_next; run);
      eexists _, _; (split; [reflexivity |]);
      repeat split; try congruence; intros []; congruence.
Qed.

End ViEvents.

(** * Keys, text objects and the search editor *)

Module ViKeys.
Import Vi.

(** X7.  Outside insert mode and the search editor the cursor keys are the
    motions of the letters: Down, Left, Right and Up do what [j], [h], [l]
    and [k] do, Home and End what [g] and [G] do, PageUp and PageDown what
    Ctrl+U and Ctrl+D do, with the same use of the count and of a pending
    operator. *)
Theorem keys_are_motions (h : ViInputHandler) :
  viMode h <> ViMode.Insert ->
  searchEditMode h = SearchEditMode.Disabled ->
  sendKeyPressEvent Key.DownArrow Modifier.None h
    = sendCharPressEvent (chr "j") Modifier.None h
  /\ sendKeyPressEvent Key.LeftArrow Modifier.None h
    = sendCharPressEvent (chr "h") Modifier.None h
  /\ sendKeyPressEvent Key.RightArrow Modifier.None h
    = sendCharPressEvent (chr "l") Modifier.None h
  /\ sendKeyPressEvent Key.UpArrow Modifier.None h
    = sendCharPressEvent (chr "k") Modifier.None h
  /\ sendKeyPressEvent Key.Home Modifier.None h
    = sendCharPressEvent (chr "g") Modifier.None h
  /\ sendKeyPressEvent Key.End_ Modifier.None h
    = sendCharPressEvent (chr "G") Modifier.None h
  /\ sendKeyPressEvent Key.PageUp Modifier.None h
    = sendCharPressEvent (chr "U") Modifier.Control h
  /\ sendKeyPressEvent Key.PageDown Modifier.None h
    = sendCharPressEvent (chr "D") Modifier.Control h.
Proof.
  destruct h as [mode sem c pend scope term ex elog]; simpl.
  intros Hmode ->.
  destruct mode; try congruence;
    repeat split; destruct pend as [[]|], scope as [[]|]; reflexivity.
Qed.

Lemma keys_are_motions_witness :
  sendKeyPressEvent Key.PageUp Modifier.None (idle ViMode.VisualLine)
  = sendCharPressEvent (chr "U") Modifier.Control (idle ViMode.VisualLine).
Proof.
  apply (keys_are_motions (idle ViMode.VisualLine)); [discriminate | reflexivity].
Defined.

(** X8.  The motion keys: outside insert mode and the search editor, with
    no operator and no scope pending, each of these keys moves the cursor by
    its motion, as often as the count says (once without a count), and
    resets the count.  The keys [n] and [N] of the same table in
    [parseTextObject] are not among them: [handleNormalMode] and
    [handleVisualMode] take them first. *)
Theorem motion_keys_move_cursor (ch : Z) (modifier : Modifier.t) (motion : ViMotion.t)
    (h : ViInputHandler) :
  In (ch, modifier, motion)
     [ (chr "D", Modifier.Control, ViMotion.PageDown);
       (chr "U", Modifier.Control, ViMotion.PageUp);
       (chr "$", Modifier.None, ViMotion.LineEnd);
       (chr "%", Modifier.None, ViMotion.ParenthesisMatching);
       (chr "^", Modifier.None, ViMotion.LineTextBegin);
       (chr "G", Modifier.None, ViMotion.FileEnd);
       (chr "b", Modifier.None, ViMotion.WordBackward);
       (chr "e", Modifier.None, ViMotion.WordEndForward);
       (chr "g", Modifier.None, ViMotion.FileBegin);
       (chr "h", Modifier.None, ViMotion.CharLeft);
       (chr "j", Modifier.None, ViMotion.LineDown);
       (chr "k", Modifier.None, ViMotion.LineUp);
       (chr "H", Modifier.None, ViMotion.PageTop);
       (chr "L", Modifier.None, ViMotion.PageBottom);
       (chr "l", Modifier.None, ViMotion.CharRight);
       (chr "w", Modifier.None, ViMotion.WordForward);
       (chr "{", Modifier.None, ViMotion.ParagraphBackward);
       (chr "|", Modifier.None, ViMotion.ScreenColumn);
       (chr "}", Modifier.None, ViMotion.ParagraphForward) ] ->
  viMode h <> ViMode.Insert ->
  searchEditMode h = SearchEditMode.Disabled ->
  pendingOperator h = None ->
  pendingTextObjectScope h = None ->
  sendCharPressEvent ch modifier h
  = Done true (mkHandler (viMode h) SearchEditMode.Disabled 0 None None (searchTerm h)
                 (executor h ++ [(moveCursor motion (countOr1 (count h)), searchTerm h)])
                 (errorlog h)).
Proof.
  destruct h as [mode sem c pend scope term ex elog]; simpl.
  intros Hkey Hmode -> -> ->.
  repeat destruct Hkey as [Hkey | Hkey];
    try contradiction;
    injection Hkey as <- <- <-;
    destruct mode; try congruence; reflexivity.
Qed.

Lemma motion_keys_move_cursor_witness :
  sendCharPressEvent (chr "w") Modifier.None
    (mkHandler ViMode.Visual SearchEditMode.Disabled 3 None None [] [] [])
  = Done true (mkHandler ViMode.Visual SearchEditMode.Disabled 0 None None []
                 [(moveCursor ViMotion.WordForward 3, [])] []).
Proof.
  apply (motion_keys_move_cursor (chr "w") Modifier.None ViMotion.WordForward
           (mkHandler ViMode.Visual SearchEditMode.Disabled 3 None None [] [] [])).
  - simpl. do 15 right. left. reflexivity.
  - discriminate.
  - reflexivity.
  - reflexivity.
  - reflexivity.
Defined.

(** ** Text typed into the search editor *)

Lemma code_plain (ch : Z) : 0 <= ch < 2 ^ 27 -> code (with_ Modifier.None ch) = ch * 32.
Proof.
  intros Hch. unfold code, with_, Modifier.None, Modifier.value; simpl.
  rewrite Z.lor_0_r, Z.shiftl_mul_pow2 by lia.
  unfold wrap32. apply Z.mod_small. lia.
Qed.

(** A printable character without a modifier is no key of the search
    editor: it is appended to the term, and the executor is told the new
    term. *)
Lemma type_in_search (ch : Z) (h : ViInputHandler) :
  searchEditMode h <> SearchEditMode.Disabled ->
  printable ch ->
  sendCharPressEvent ch Modifier.None h
  = Done true (mkHandler (viMode h) (searchEditMode h) (count h) (pendingOperator h)
                 (pendingTextObjectScope h) (searchTerm h ++ [ch])
                 (executor h ++ [(updateSearchTerm (searchTerm h ++ [ch]), searchTerm h ++ [ch])])
                 (errorlog h)).
Proof.
  destruct h as [mode sem c pend scope term ex elog]; simpl.
  intros Hsem [Hrange Hdel].
  assert (Hleb : (32 <=? ch) = true) by (apply Z.leb_le; lia).
  unfold sendCharPressEvent, handleSearchEditor.
  destruct sem; try congruence;
    unfold bind, get, assert, ret; simpl;
    rewrite code_plain by lia;
    unfold switch;
    repeat match goal with
           | |- context [ch * 32 =? ?label] =>
               let l := eval vm_compute in label in
               change label with l;
               destruct (Z.eqb_spec (ch * 32) l) as [Heq | _]; [exfalso; lia |]
           end;
    rewrite Hleb; reflexivity.
Qed.

(** X9.  In the search editor Backspace undoes a typed character: after a
    printable character and Backspace the stored term, the mode and all
    that is pending are as before, and the executor has been told the
    longer term and then the old one. *)
Theorem search_type_then_backspace (ch : Z) (h : ViInputHandler) :
  searchEditMode h <> SearchEditMode.Disabled ->
  printable ch ->
  sendChars [(ch, Modifier.None); (8, Modifier.None)] h
  = Done tt (mkHandler (viMode h) (searchEditMode h) (count h) (pendingOperator h)
               (pendingTextObjectScope h) (searchTerm h)
               (executor h ++ [(updateSearchTerm (searchTerm h ++ [ch]), searchTerm h ++ [ch]);
                               (updateSearchTerm (searchTerm h), searchTerm h)])
               (errorlog h)).
Proof.
  intros Hsem Hch. simpl. unfold bind at 1. rewrite (type_in_search ch h Hsem Hch).
  destruct h as [mode sem c pend scope term ex elog]; simpl in *.
  assert (Hlen : (0 <? Z.of_nat (length (term ++ [ch]))) = true)
    by (apply Z.ltb_lt; rewrite length_app; simpl; lia).
  assert (Htake : take (length (term ++ [ch]) - 1) (term ++ [ch]) = term).
  { rewrite length_app. simpl. replace (length term + 1 - 1)%nat with (length term) by lia.
    apply take_app_length. }
  destruct sem; try congruence;
    unfold sendCharPressEvent, handleSearchEditor, bind, get, assert, ret,
      set_searchTerm, invoke, modify; simpl;
    rewrite Hlen; simpl; rewrite Htake, <- app_assoc; reflexivity.
Qed.

Lemma search_type_then_backspace_witness :
  sendChars [(chr "x", Modifier.None); (8, Modifier.None)]
    (mkHandler ViMode.Normal SearchEditMode.Enabled 0 None None [chr "a"] [] [])
  = Done tt (mkHandler ViMode.Normal SearchEditMode.Enabled 0 None None [chr "a"]
               [(updateSearchTerm [chr "a"; chr "x"], [chr "a"; chr "x"]);
                (updateSearchTerm [chr "a"], [chr "a"])] []).
Proof.
  apply (search_type_then_backspace (chr "x")
           (mkHandler ViMode.Normal SearchEditMode.Enabled 0 None None [chr "a"] [] [])).
  - discriminate.
  - unfold printable. vm_compute. repeat split; discriminate.
Defined.

Lemma type_text_in_search (text : u32string) (h : ViInputHandler) :
  searchEditMode h <> SearchEditMode.Disabled ->
  Forall printable text ->
  deliverAll (map (fun ch => CharPress ch Modifier.None) text) h
  = Done tt (mkHandler (viMode h) (searchEditMode h) (count h) (pendingOperator h)
               (pendingTextObjectScope h) (searchTerm h ++ text)
               (executor h ++ typed (searchTerm h) text)
               (errorlog h)).
Proof.
  revert h. induction text as [|ch text IH]; intros h Hsem Hall.
  - destruct h; simpl. rewrite !app_nil_r. reflexivity.
  - inversion Hall as [|? ? Hch Hrest]; subst.
    simpl. unfold bind at 1. rewrite (type_in_search ch h Hsem Hch).
    rewrite IH; [| exact Hsem | exact Hrest]. simpl.
    rewrite <- !app_assoc. reflexivity.
Qed.

(** X10.  A search started from outside in insert mode comes back to insert
    mode: after [startSearchExternally], a text of printable characters and
    Enter the handler is in insert mode again with the editor closed,
    nothing pending and the text as its search term.  The executor has seen
    [searchStart], the change to normal mode, one [updateSearchTerm] for
    each character, the change back to insert mode and [searchDone], in
    this order. *)
Theorem external_search_round_trip (text : u32string) (h : ViInputHandler) :
  viMode h = ViMode.Insert ->
  searchEditMode h = SearchEditMode.Disabled ->
  Forall printable text ->
  deliverAll (SearchExternally
              :: map (fun ch => CharPress ch Modifier.None) text
              ++ [CharPress 13 Modifier.None]) h
  = Done tt (mkHandler ViMode.Insert SearchEditMode.Disabled 0 None None text
               (executor h
                ++ [(searchStart, []); (modeChanged ViMode.Normal, [])]
                ++ typed [] text
                ++ [(modeChanged ViMode.Insert, text); (searchDone, text)])
               (errorlog h)).
Proof.
  destruct h as [mode sem c pend scope term ex elog]; simpl.
  intros -> -> Hall.
  unfold bind at 1. unfold bind at 1.
  assert (Hstart : startSearchExternally
                     (mkHandler ViMode.Insert SearchEditMode.Disabled c pend scope term ex elog)
                   = Done tt (mkHandler ViMode.Normal SearchEditMode.ExternallyEnabled
                                0 None None []
                                (ex ++ [(searchStart, []); (modeChanged ViMode.Normal, [])])
                                elog)).
  { unfold startSearchExternally, setMode, bind, get, ret, set_searchTerm, invoke, modify,
      set_searchEditMode, set_viMode, set_count, set_pendingOperator,
      set_pendingTextObjectScope; simpl.
    rewrite <- app_assoc. reflexivity. }
  rewrite Hstart. unfold ret at 1.
  assert (Hsplit : forall a b s,
             deliverAll (a ++ b) s
             = (deliverAll a ;;; deliverAll b) s).
  { clear. induction a as [|e a IH]; intros b s; simpl.
    - reflexivity.
    - unfold bind. destruct (deliver e s); [rewrite IH; reflexivity | reflexivity]. }
  rewrite Hsplit. unfold bind at 1.
  rewrite type_text_in_search; [| discriminate | exact Hall].
  cbv -[app typed]. rewrite <- !app_assoc. reflexivity.
Qed.

Lemma external_search_round_trip_witness :
  deliverAll [SearchExternally; CharPress (chr "o") Modifier.None;
              CharPress (chr "k") Modifier.None; CharPress 13 Modifier.None]
    (idle ViMode.Insert)
  = Done tt (mkHandler ViMode.Insert SearchEditMode.Disabled 0 None None [chr "o"; chr "k"]
               [(searchStart, []); (modeChanged ViMode.Normal, []);
                (updateSearchTerm [chr "o"], [chr "o"]);
                (updateSearchTerm [chr "o"; chr "k"], [chr "o"; chr "k"]);
                (modeChanged ViMode.Insert, [chr "o"; chr "k"]);
                (searchDone, [chr "o"; chr "k"])] []).
Proof.
  apply (external_search_round_trip [chr "o"; chr "k"] (idle ViMode.Insert)).
  - reflexivity.
  - reflexivity.
  - repeat constructor; vm_compute; discriminate.
Defined.

Lemma deliverAll_app (a b : list Event) (s : ViInputHandler) :
  deliverAll (a ++ b) s = (deliverAll a ;;; deliverAll b) s.
Proof.
  revert s. induction a as [|e a IH]; intros s; simpl.
  - reflexivity.
  - unfold bind. destruct (deliver e s); [rewrite IH; reflexivity | reflexivity].
Qed.

(** X11.  A search typed in normal or visual mode: [/], a text of printable
    characters and Enter leave the handler in the mode it was in, with the
    editor closed and the text as its search term, and leave the count and
    what is pending as they were.  The executor has seen [searchStart], one
    [updateSearchTerm] for each character and [searchDone], in this
    order. *)
Theorem slash_search_round_trip (text : u32string) (h : ViInputHandler) :
  viMode h <> ViMode.Insert ->
  searchEditMode h = SearchEditMode.Disabled ->
  Forall printable text ->
  deliverAll (CharPress (chr "/") Modifier.None
              :: map (fun ch => CharPress ch Modifier.None) text
              ++ [CharPress 13 Modifier.None]) h
  = Done tt (mkHandler (viMode h) SearchEditMode.Disabled (count h) (pendingOperator h)
               (pendingTextObjectScope h) text
               (executor h ++ [(searchStart, [])] ++ typed [] text ++ [(searchDone, text)])
               (errorlog h)).
Proof.
  destruct h as [mode sem c pend scope term ex elog]; simpl.
  intros Hmode -> Hall.
  assert (Hslash : sendCharPressEvent (chr "/") Modifier.None
                     (mkHandler mode SearchEditMode.Disabled c pend scope term ex elog)
                   = Done true (mkHandler mode SearchEditMode.Enabled c pend scope []
                                  (ex ++ [(searchStart, [])]) elog)).
  { destruct mode; try congruence; destruct pend as [[]|], scope as [[]|]; reflexivity. }
  unfold bind at 1. rewrite Hslash.
  rewrite deliverAll_app. unfold bind at 1.
  rewrite type_text_in_search; [| discriminate | exact Hall].
  destruct mode; try congruence;
    cbv -[app typed]; rewrite <- !app_assoc; reflexivity.
Qed.

Lemma slash_search_round_trip_witness :
  deliverAll [CharPress (chr "/") Modifier.None; CharPress (chr "o") Modifier.None;
              CharPress (chr "k") Modifier.None; CharPress 13 Modifier.None]
    (mkHandler ViMode.Visual SearchEditMode.Disabled 3 None None [] [] [])
  = Done tt (mkHandler ViMode.Visual SearchEditMode.Disabled 3 None None [chr "o"; chr "k"]
               [(searchStart, []);
                (updateSearchTerm [chr "o"], [chr "o"]);
                (updateSearchTerm [chr "o"; chr "k"], [chr "o"; chr "k"]);
                (searchDone, [chr "o"; chr "k"])] []).
Proof.
  apply (slash_search_round_trip [chr "o"; chr "k"]
           (mkHandler ViMode.Visual SearchEditMode.Disabled 3 None None [] [] [])).
  - discriminate.
  - reflexivity.
  - repeat constructor; vm_compute; discriminate.
Defined.

(** ** Text objects *)

Lemma charToTextObject_some (ch : Z) (textObject : TextObject.t) :
  charToTextObject ch = Some textObject ->
  In (ch, textObject)
     [ (34, TextObject.DoubleQuotes); (chr "(", TextObject.RoundBrackets);
       (chr "<", TextObject.AngleBrackets); (chr "[", TextObject.SquareBrackets);
       (chr "'", TextObject.SingleQuotes); (chr "`", TextObject.BackQuotes);
       (chr "p", TextObject.Paragraph); (chr "w", TextObject.Word);
       (chr "{", TextObject.CurlyBrackets) ].
Proof.
  unfold charToTextObject, switch.
  repeat match goal with
         | |- context [ch =? ?label] =>
             destruct (Z.eqb_spec ch label) as [-> | _];
             [intros [= <-]; simpl; tauto |]
         end.
  discriminate.
Qed.

(** X12.  In normal mode, with the yank operator and a scope pending (after
    [y] and [i] or [a]), the character of a text object yanks that object in
    that scope and leaves nothing pending, whatever the count.  The one
    character of [charToTextObject] for which this does not hold is [p]:
    [handleNormalMode] takes it for paste before the text objects are
    looked at. *)
Theorem normal_text_object_yanks (ch : Z) (textObject : TextObject.t)
    (scope : TextObjectScope.t) (h : ViInputHandler) :
  viMode h = ViMode.Normal ->
  searchEditMode h = SearchEditMode.Disabled ->
  pendingOperator h = Some ViOperator.Yank ->
  pendingTextObjectScope h = Some scope ->
  charToTextObject ch = Some textObject ->
  ch <> chr "p" ->
  sendCharPressEvent ch Modifier.None h
  = Done true (mkHandler ViMode.Normal SearchEditMode.Disabled 0 None None (searchTerm h)
                 (executor h ++ [(yank_ scope textObject, searchTerm h)])
                 (errorlog h)).
Proof.
  destruct h as [mode sem c pend sc term ex elog]; simpl.
  intros -> -> -> -> Hobject Hp.
  apply charToTextObject_some in Hobject. simpl in Hobject.
  repeat destruct Hobject as [Hobject | Hobject];
    try contradiction;
    injection Hobject as <- <-; try congruence;
    reflexivity.
Qed.

Lemma normal_text_object_yanks_witness :
  sendCharPressEvent (chr "w") Modifier.None
    (mkHandler ViMode.Normal SearchEditMode.Disabled 2 (Some ViOperator.Yank)
       (Some TextObjectScope.Inner) [] [] [])
  = Done true (mkHandler ViMode.Normal SearchEditMode.Disabled 0 None None []
                 [(yank_ TextObjectScope.Inner TextObject.Word, [])] []).
Proof.
  apply (normal_text_object_yanks (chr "w") TextObject.Word TextObjectScope.Inner
           (mkHandler ViMode.Normal SearchEditMode.Disabled 2 (Some ViOperator.Yank)
              (Some TextObjectScope.Inner) [] [] []));
    try reflexivity.
  vm_compute. discriminate.
Defined.

(** X13.  In the visual modes, with a scope pending (after [i] or [a]), the
    character of any text object of [charToTextObject] selects that object
    in that scope and leaves nothing pending, whatever the count and the
    pending operator. *)
Theorem visual_text_object_selects (ch : Z) (textObject : TextObject.t)
    (scope : TextObjectScope.t) (h : ViInputHandler) :
  isVisual (viMode h) ->
  searchEditMode h = SearchEditMode.Disabled ->
  pendingTextObjectScope h = Some scope ->
  charToTextObject ch = Some textObject ->
  sendCharPressEvent ch Modifier.None h
  = Done true (mkHandler (viMode h) SearchEditMode.Disabled 0 None None (searchTerm h)
                 (executor h ++ [(select_ scope textObject, searchTerm h)])
                 (errorlog h)).
Proof.
  destruct h as [mode sem c pend sc term ex elog]; simpl.
  intros Hmode -> -> Hobject.
  apply charToTextObject_some in Hobject. simpl in Hobject.
  repeat destruct Hobject as [Hobject | Hobject];
    try contradiction;
    injection Hobject as <- <-;
    destruct Hmode as [-> | [-> | ->]];
    destruct pend as [[]|]; reflexivity.
Qed.

Lemma visual_text_object_selects_witness :
  sendCharPressEvent (chr "p") Modifier.None
    (mkHandler ViMode.VisualLine SearchEditMode.Disabled 0 None
       (Some TextObjectScope.A) [] [] [])
  = Done true (mkHandler ViMode.VisualLine SearchEditMode.Disabled 0 None None []
                 [(select_ TextObjectScope.A TextObject.Paragraph, [])] []).
Proof.
  apply (visual_text_object_selects (chr "p") TextObject.Paragraph TextObjectScope.A
           (mkHandler ViMode.VisualLine SearchEditMode.Disabled 0 None
              (Some TextObjectScope.A) [] [] []));
    try reflexivity.
  right. left. reflexivity.
Defined.

(** X14.  [i] and [a] have two meanings, told apart by the state: in
    normal mode with no operator pending they enter insert mode; with an
    operator pending, and in the visual modes, they are the text object
    scopes Inner and A, which become pending while nothing else changes. *)
Theorem i_and_a (ch : Z) (scope : TextObjectScope.t) (h : ViInputHandler) :
  In (ch, scope) [(chr "i", TextObjectScope.Inner); (chr "a", TextObjectScope.A)] ->
  viMode h <> ViMode.Insert ->
  searchEditMode h = SearchEditMode.Disabled ->
  sendCharPressEvent ch Modifier.None h
  = Done true
      (if ViMode.eqb (viMode h) ViMode.Normal && negb (bool_decide (is_Some (pendingOperator h)))
       then mkHandler ViMode.Insert SearchEditMode.Disabled 0 None None (searchTerm h)
              (executor h ++ [(modeChanged ViMode.Insert, searchTerm h)]) (errorlog h)
       else mkHandler (viMode h) SearchEditMode.Disabled (count h) (pendingOperator h)
              (Some scope) (searchTerm h) (executor h) (errorlog h)).
Proof.
  destruct h as [mode sem c pend sc term ex elog]; simpl.
  intros Hkey Hmode ->.
  repeat destruct Hkey as [Hkey | Hkey];
    try contradiction;
    injection Hkey as <- <-;
    destruct mode; try congruence;
    destruct pend as [[]|], sc as [[]|]; reflexivity.
Qed.

Lemma i_and_a_witness :
  sendCharPressEvent (chr "i") Modifier.None
    (mkHandler ViMode.Normal SearchEditMode.Disabled 0 (Some ViOperator.Yank) None [] [] [])
  = Done true
      (mkHandler ViMode.Normal SearchEditMode.Disabled 0 (Some ViOperator.Yank)
         (Some TextObjectScope.Inner) [] [] []).
Proof.
  apply (i_and_a (chr "i") TextObjectScope.Inner
           (mkHandler ViMode.Normal SearchEditMode.Disabled 0 (Some ViOperator.Yank)
              None [] [] [])).
  - left. reflexivity.
  - discriminate.
  - reflexivity.
Defined.

(** ** The keys of the visual modes *)

(** X15.  [v], Shift+V and Ctrl+V are toggles in every mode but insert
    mode: each leads to its visual mode from normal mode and from the other
    visual modes, and back to normal mode from its own, whatever is
    pending. *)
Theorem visual_keys_toggle (ch : Z) (modifier : Modifier.t) (target : ViMode.t)
    (h : ViInputHandler) :
  In (ch, modifier, target)
     [ (chr "v", Modifier.None, ViMode.Visual);
       (chr "V", Modifier.Shift, ViMode.VisualLine);
       (chr "V", Modifier.Control, ViMode.VisualBlock) ] ->
  viMode h <> ViMode.Insert ->
  searchEditMode h = SearchEditMode.Disabled ->
  exists h',
    sendCharPressEvent ch modifier h = Done true h'
    /\ viMode h' = (if ViMode.eqb (viMode h) target then ViMode.Normal else target).
Proof.
  destruct h as [mode sem c pend sc term ex elog]; simpl.
  intros Hkey Hmode ->.
  repeat destruct Hkey as [Hkey | Hkey];
    try contradiction;
    injection Hkey as <- <- <-;
    destruct mode; try congruence;
    cbv -[app]; eexists; split; reflexivity.
Qed.

Lemma visual_keys_toggle_witness :
  exists h',
    sendCharPressEvent (chr "V") Modifier.Shift (idle ViMode.VisualLine) = Done true h'
    /\ viMode h' = ViMode.Normal.
Proof.
  apply (visual_keys_toggle (chr "V") Modifier.Shift ViMode.VisualLine
           (idle ViMode.VisualLine)).
  - simpl. right. left. reflexivity.
  - discriminate.
  - reflexivity.
Defined.

End ViKeys.

(** * Properties of the render buffer builder *)

Module RenderTheory.
Import Render.

Section Compositor.
Context {F : Foreign} {L : Library}.

(** ** Width of a grapheme cluster *)

Lemma graphemeClusterWidth_loop_spec (rest : u32string) (baseWidth : Z) :
  graphemeClusterWidth_loop rest baseWidth
  = if existsb (fun codepoint => codepoint =? 0xFE0F) rest then 2 else baseWidth.
Proof.
  induction rest as [|codepoint rest IH]; simpl; [reflexivity |].
  destruct (codepoint =? 65039); simpl; [reflexivity | exact IH].
Qed.

(** C5.  A cluster with base code point [base] followed by [rest] is two
    columns wide when some code point of [rest] is U+FE0F, and as wide as
    [unicode::width] makes the base otherwise; so a cluster of two or more
    code points that ends in U+FE0F is two columns wide whatever its
    base. *)
Theorem graphemeClusterWidth_spec (base : Z) (rest middle : u32string) :
  graphemeClusterWidth (base :: rest)
  = Some (if existsb (fun codepoint => codepoint =? 0xFE0F) rest
          then 2 else unicode_width base)
  /\ graphemeClusterWidth (base :: middle ++ [0xFE0F]) = Some 2.
Proof.
  unfold graphemeClusterWidth. rewrite !graphemeClusterWidth_loop_spec. split.
  - reflexivity.
  - rewrite existsb_app. simpl. now rewrite orb_true_r.
Qed.

Lemma variation_selector_found (rest : u32string) :
  existsb (fun codepoint => codepoint =? 0xFE0F) rest = true <-> In 0xFE0F rest.
Proof.
  rewrite existsb_exists. split.
  - intros (x & Hin & Heq). apply Z.eqb_eq in Heq. now subst.
  - intros Hin. exists 0xFE0F. split; [assumption | reflexivity].
Qed.

(** ** Color precedence *)

Lemma makeColors_no_overlay palette cellFlags_ reverse fg bg blink rapidBlink :
  makeColors palette cellFlags_ reverse fg bg false false false blink rapidBlink
  = makeColorsSGR palette cellFlags_ reverse fg bg blink rapidBlink.
Proof. reflexivity. Qed.

Lemma makeColors_yank palette cellFlags_ reverse fg bg selected blink rapidBlink :
  makeColors palette cellFlags_ reverse fg bg selected false true blink rapidBlink
  = makeRGBColorPair (makeColorsSGR palette cellFlags_ reverse fg bg blink rapidBlink)
                     (yankHighlight palette).
Proof. destruct selected; reflexivity. Qed.

Lemma makeColors_selection palette cellFlags_ reverse fg bg blink rapidBlink :
  makeColors palette cellFlags_ reverse fg bg true false false blink rapidBlink
  = makeRGBColorPair (makeColorsSGR palette cellFlags_ reverse fg bg blink rapidBlink)
                     (selection palette).
Proof. reflexivity. Qed.

Lemma makeColors_cursor palette cellFlags_ reverse fg bg highlighted blink rapidBlink :
  makeColors palette cellFlags_ reverse fg bg false true highlighted blink rapidBlink
  = let sgrColors := makeColorsSGR palette cellFlags_ reverse fg bg blink rapidBlink in
    distinct {| foreground := makeRGBColor sgrColors (textOverrideColor (cursorColor palette));
                background := makeRGBColor sgrColors (color (cursorColor palette)) |}.
Proof. destruct highlighted; reflexivity. Qed.

Lemma makeColors_cursor_selection palette cellFlags_ reverse fg bg highlighted
      blink rapidBlink :
  makeColors palette cellFlags_ reverse fg bg true true highlighted blink rapidBlink
  = let sgrColors := makeColorsSGR palette cellFlags_ reverse fg bg blink rapidBlink in
    let selectionColors := makeRGBColorPair sgrColors (selection palette) in
    distinct
      (mixPair
         {| foreground := makeRGBColor selectionColors
                            (textOverrideColor (cursorColor palette));
            background := makeRGBColor selectionColors (color (cursorColor palette)) |}
         selectionColors quarter).
Proof. destruct highlighted; reflexivity. Qed.

(** [RGBColorPair::distinct] as the design document has it. *)
Hypothesis distinct_forced : distinctForced.

Lemma makeRGBColorPair_forced actualColors configuredColor :
  foreground (makeRGBColorPair actualColors configuredColor)
  <> background (makeRGBColorPair actualColors configuredColor).
Proof. apply distinct_forced. Qed.

(** C4.  The source pair is the SGR pair that the overlays are applied to
    (what the overload without overlays returns).  Without an overlay the
    result is that pair; on every other branch the result comes out of
    [distinct()].  So a source pair of two different colors never yields a
    result with the foreground equal to the background. *)
Theorem makeColors_keeps_distinct palette cellFlags_ reverse fg bg
    selected isCursor highlighted blink rapidBlink :
  foreground (makeColorsSGR palette cellFlags_ reverse fg bg blink rapidBlink)
  <> background (makeColorsSGR palette cellFlags_ reverse fg bg blink rapidBlink) ->
  foreground (makeColors palette cellFlags_ reverse fg bg
                selected isCursor highlighted blink rapidBlink)
  <> background (makeColors palette cellFlags_ reverse fg bg
                   selected isCursor highlighted blink rapidBlink).
Proof.
  intros Hsource.
  destruct selected, isCursor, highlighted;
    try exact Hsource;
    first [ rewrite makeColors_yank | rewrite makeColors_selection
          | rewrite makeColors_cursor | rewrite makeColors_cursor_selection ];
    cbv zeta; first [ apply makeRGBColorPair_forced | apply distinct_forced ].
Qed.

End Compositor.

Import Fixture.

Lemma separate_forced : @distinctForced foreign library.
Proof.
  intros p. change (foreground (separate p) <> background (separate p)).
  unfold separate.
  destruct (RGBColor_eqb (foreground p) (background p)) eqn:E; simpl.
  - intros H. apply (f_equal red) in H. simpl in H. lia.
  - intros H. rewrite H in E. unfold RGBColor_eqb in E.
    rewrite !Z.eqb_refl in E. discriminate.
Qed.

Lemma makeColors_keeps_distinct_witness :
  foreground (makeColors palette 0 false white black
                true true false true true)
  <> background (makeColors palette 0 false white black
                   true true false true true).
Proof.
  apply (@makeColors_keeps_distinct foreign library separate_forced).
  vm_compute. discriminate.
Defined.

End RenderTheory.

Module BuilderTheory.
Import Render.

Section Builder.
Context {F : Foreign} {L : Library}.

Ltac run :=
  unfold bind, get, modify, ret, fail, require, assert, returning; simpl.

Ltac run_in H :=
  unfold bind, get, modify, ret, fail, require, assert, returning in H; simpl in H.

Lemma wrap64_small (a : Z) : 0 <= a < 2 ^ 64 -> wrap64 a = a.
Proof. intros H. unfold wrap64. now apply Z.mod_small. Qed.

Lemma sameSettings_refl (b : RenderBufferBuilder) : sameSettings b b.
Proof. unfold sameSettings. tauto. Qed.

Lemma sameSettings_trans (b1 b2 b3 : RenderBufferBuilder) :
  sameSettings b1 b2 -> sameSettings b2 b3 -> sameSettings b1 b3.
Proof. unfold sameSettings. intuition congruence. Qed.

Lemma sameButColors_refl (b : RenderBufferBuilder) : sameButColors b b.
Proof. split; [apply sameSettings_refl | reflexivity]. Qed.

Lemma runMarkers_recolor colors c : runMarkers (recolor colors c) = runMarkers c.
Proof. reflexivity. Qed.

Lemma runMarkers_partial_map (g : RenderCell -> RenderCell) (n : nat)
      (cs : list RenderCell) :
  (forall c, runMarkers (g c) = runMarkers c) ->
  map runMarkers (take n cs ++ map g (drop n cs)) = map runMarkers cs.
Proof.
  intros Hg. rewrite map_app, map_map.
  rewrite (map_ext (fun c => runMarkers (g c)) runMarkers) by exact Hg.
  rewrite <- map_app. now rewrite take_drop.
Qed.

(** ** The search matcher touches colors only *)

Lemma matchSearchPattern_off beginsWithTextCell textCellSize b :
  highlightSearchMatches b = No ->
  matchSearchPattern beginsWithTextCell textCellSize b = Done tt b.
Proof. intros H. unfold matchSearchPattern. run. now rewrite H. Qed.

Lemma matchSearchPattern_frame beginsWithTextCell textCellSize b a b' :
  matchSearchPattern beginsWithTextCell textCellSize b = Done a b' ->
  sameButColors b b'.
Proof.
  unfold matchSearchPattern, set_searchPatternOffset, set_cells, set_output.
  intros H. run_in H.
  destruct (highlightSearchMatches b) eqn:Hhl.
  { inversion H; subst. apply sameButColors_refl. }
  destruct (Z.of_nat (length (searchPattern (terminal b))) =? 0).
  { inversion H; subst. apply sameButColors_refl. }
  destruct (beginsWithTextCell _); simpl in H.
  2: { inversion H; subst. unfold sameButColors, sameSettings, outputCells; simpl. tauto. }
  destruct (_ <? _).
  { inversion H; subst. unfold sameButColors, sameSettings, outputCells; simpl. tauto. }
  unfold outputCells in H; simpl in H.
  destruct (cells (output b) !! _); [| discriminate].
  destruct (last (cells (output b))); [| discriminate].
  inversion H; subst. unfold sameButColors, sameSettings, outputCells; simpl.
  repeat split; try assumption.
  apply runMarkers_partial_map. intros c. apply runMarkers_recolor.
Qed.

#[local] Arguments matchSearchPattern : simpl never.

(** ** Cells appended by the text and by the fill *)

Lemma renderUtf8Text_loop_markers (clusters : list u32string) :
  forall screenPosition textAttributes_ allowMatchSearchPattern columnCountRendered
         b rendered b',
    renderUtf8Text_loop clusters screenPosition textAttributes_
      allowMatchSearchPattern columnCountRendered b = Done rendered b' ->
    sameSettings b b'
    /\ outputMarkers b'
       = outputMarkers b ++ replicate (length clusters) (false, false).
Proof.
  induction clusters as [|g clusters IH];
    intros screenPosition textAttributes_ allow n b rendered b' H.
  - inversion H; subst. split; [apply sameSettings_refl | simpl; now rewrite app_nil_r].
  - simpl in H. run_in H.
    destruct (graphemeClusterWidth g) as [w|]; [| discriminate].
    unfold emplace_back, set_cells, set_output, set_lineNr, set_prevWidth,
           set_prevHasCursor in H. run_in H.
    match type of H with
    | match ?c ?b1 with _ => _ end = _ =>
        destruct (c b1) as [[] b2|] eqn:Hmatch; [| discriminate]
    end.
    apply IH in H. destruct H as [Hsame Hmarkers].
    assert (Hstep : sameSettings b b2
                    /\ outputMarkers b2 = outputMarkers b ++ [(false, false)]).
    { destruct allow.
      - apply matchSearchPattern_frame in Hmatch. destruct Hmatch as [Hs Hm].
        split.
        + revert Hs. unfold sameSettings; simpl. tauto.
        + unfold outputMarkers. rewrite Hm. unfold outputCells; simpl.
          now rewrite map_app.
      - inversion Hmatch; subst. split.
        + unfold sameSettings; simpl. tauto.
        + unfold outputMarkers, outputCells; simpl. now rewrite map_app. }
    destruct Hstep as [Hs1 Hm1]. split.
    + eapply sameSettings_trans; eassumption.
    + rewrite Hmarkers, Hm1, <- app_assoc. reflexivity.
Qed.

Lemma outputMarkers_length (b : RenderBufferBuilder) :
  length (outputMarkers b) = length (outputCells b).
Proof. apply length_map. Qed.

Lemma renderUtf8Text_loop_appends (clusters : list u32string) :
  forall screenPosition textAttributes_ allowMatchSearchPattern columnCountRendered
         b rendered b',
    renderUtf8Text_loop clusters screenPosition textAttributes_
      allowMatchSearchPattern columnCountRendered b = Done rendered b' ->
    sameSettings b b'
    /\ length (outputCells b') = (length (outputCells b) + length clusters)%nat.
Proof.
  intros screenPosition textAttributes_ allow n b rendered b' H.
  apply renderUtf8Text_loop_markers in H. destruct H as [Hsame Hmarkers].
  split; [exact Hsame |].
  rewrite <- !outputMarkers_length, Hmarkers, length_app, length_replicate.
  reflexivity.
Qed.


Lemma fillRemaining_markers (columnOffsets : list Z) :
  forall lineBuffer lineOffset_ b,
  exists b',
    fillRemaining columnOffsets lineBuffer lineOffset_ b = Done tt b'
    /\ sameSettings b b'
    /\ outputMarkers b'
       = outputMarkers b ++ replicate (length columnOffsets) (false, false).
Proof.
  induction columnOffsets as [|columnOffset rest IH]; intros lineBuffer lineOffset_ b.
  - exists b. split; [reflexivity |].
    split; [apply sameSettings_refl | simpl; now rewrite app_nil_r].
  - simpl. run. unfold emplace_back, set_cells, set_output. run.
    match goal with
    | |- exists b', fillRemaining rest lineBuffer lineOffset_ ?b1 = _ /\ _ =>
        destruct (IH lineBuffer lineOffset_ b1) as (b' & Hrun & Hsame & Hmarkers)
    end.
    exists b'. split; [exact Hrun |]. split.
    + eapply sameSettings_trans; [| exact Hsame]. unfold sameSettings; simpl. tauto.
    + rewrite Hmarkers. unfold outputMarkers, outputCells; simpl.
      now rewrite map_app, <- app_assoc.
Qed.

Lemma fillRemaining_appends (columnOffsets : list Z) :
  forall lineBuffer lineOffset_ b,
  exists b',
    fillRemaining columnOffsets lineBuffer lineOffset_ b = Done tt b'
    /\ sameSettings b b'
    /\ length (outputCells b') = (length (outputCells b) + length columnOffsets)%nat.
Proof.
  intros lineBuffer lineOffset_ b.
  destruct (fillRemaining_markers columnOffsets lineBuffer lineOffset_ b)
    as (b' & Hrun & Hsame & Hmarkers).
  exists b'. split; [exact Hrun |]. split; [exact Hsame |].
  rewrite <- !outputMarkers_length, Hmarkers, length_app, length_replicate.
  reflexivity.
Qed.

(** The markers of the cells that [renderTrivialLine] appends, before it
    sets the two markers of the line. *)
Lemma renderTrivialLine_cells_markers lineBuffer lineOffset_ b a b' :
  renderTrivialLine_cells lineBuffer lineOffset_ b = Done a b' ->
  sameSettings b b'
  /\ outputMarkers b'
     = outputMarkers b
       ++ replicate
            (length (utf8_grapheme_segmenter (text lineBuffer))
             + Z.to_nat (pageColumns (terminal b)
                         - Z.min (pageColumns (terminal b)) (usedColumns lineBuffer)))
            (false, false).
Proof.
  unfold renderTrivialLine_cells, renderUtf8Text, set_searchPatternOffset.
  intros H. run_in H.
  match type of H with
  | match ?c ?b0 with _ => _ end = _ =>
      destruct (c b0) as [rendered b1|] eqn:Htext; [| discriminate]
  end.
  apply renderUtf8Text_loop_markers in Htext. destruct Htext as [Hsame1 Hm1].
  match type of H with
  | fillRemaining ?cols _ _ _ = _ =>
      destruct (fillRemaining_markers cols lineBuffer lineOffset_ b1)
        as (b2 & Hfill & Hsame2 & Hm2)
  end.
  rewrite Hfill in H. inversion H; subst. split.
  - eapply sameSettings_trans; [| exact Hsame2].
    revert Hsame1. unfold sameSettings; simpl. tauto.
  - rewrite Hm2, Hm1, length_seqZ, <- app_assoc, <- replicate_add.
    reflexivity.
Qed.

(** The cells that [renderTrivialLine] appends: one for each grapheme
    cluster of the text and one for each column from the text margin to the
    page width. *)
Lemma renderTrivialLine_cells_appends lineBuffer lineOffset_ b a b' :
  renderTrivialLine_cells lineBuffer lineOffset_ b = Done a b' ->
  length (outputCells b')
  = (length (outputCells b)
     + length (utf8_grapheme_segmenter (text lineBuffer))
     + Z.to_nat (pageColumns (terminal b)
                 - Z.min (pageColumns (terminal b)) (usedColumns lineBuffer)))%nat.
Proof.
  unfold renderTrivialLine_cells, renderUtf8Text, set_searchPatternOffset.
  intros H. run_in H.
  match type of H with
  | match ?c ?b0 with _ => _ end = _ =>
      destruct (c b0) as [rendered b1|] eqn:Htext; [| discriminate]
  end.
  apply renderUtf8Text_loop_appends in Htext. destruct Htext as [_ Hlen1].
  match type of H with
  | fillRemaining ?cols _ _ _ = _ =>
      destruct (fillRemaining_appends cols lineBuffer lineOffset_ b1)
        as (b2 & Hfill & _ & Hlen2)
  end.
  rewrite Hfill in H. inversion H; subst.
  rewrite Hlen2, Hlen1, length_seqZ. unfold outputCells; simpl. lia.
Qed.


(** ** The run markers of a trivial line *)


(** ** The run automaton keeps the markers paired *)

Lemma starts_app (a b : list (bool * bool)) : starts (a ++ b) = (starts a + starts b)%nat.
Proof. unfold starts. now rewrite List.filter_app, length_app. Qed.

Lemma ends_app (a b : list (bool * bool)) : ends (a ++ b) = (ends a + ends b)%nat.
Proof. unfold ends. now rewrite List.filter_app, length_app. Qed.

Lemma closeLast_snoc (front : list (bool * bool)) (m : bool * bool) :
  closeLast (front ++ [m]) = front ++ [(fst m, true)].
Proof.
  unfold closeLast. rewrite length_app. simpl.
  replace (length front + 1 - 1)%nat with (length front + 0)%nat by lia.
  now rewrite alter_app_r.
Qed.

Lemma closeLast_app (old front : list (bool * bool)) (m : bool * bool) :
  closeLast (old ++ front ++ [m]) = old ++ closeLast (front ++ [m]).
Proof. now rewrite app_assoc, !closeLast_snoc, app_assoc. Qed.

Lemma closeLast_closed (ms : list (bool * bool)) : lastClosed ms -> closeLast ms = ms.
Proof.
  destruct ms as [|m0 ms0] using rev_ind; [reflexivity |].
  unfold lastClosed. rewrite last_snoc. intros Hclosed.
  rewrite closeLast_snoc. destruct m0 as [s e]; simpl in *. now subst.
Qed.

Lemma lastClosed_snoc (front : list (bool * bool)) (m : bool * bool) :
  lastClosed (front ++ [m]) <-> snd m = true.
Proof. unfold lastClosed. now rewrite last_snoc. Qed.

Lemma lastClosed_closeLast (ms : list (bool * bool)) : lastClosed (closeLast ms).
Proof.
  destruct ms as [|m0 ms0] using rev_ind; [exact I |].
  rewrite closeLast_snoc. now apply lastClosed_snoc.
Qed.

(** A step of the automaton keeps the invariant of the line: the markers
    before the line stay, and the line has as many starts as ends in [Gap]
    and one start more in [Sequence]. *)
Lemma cellStep_invariant old new st newLine ms' st' :
  lineInvariant old new st newLine ->
  cellStep (old ++ new) st newLine ms' st' ->
  exists new', ms' = old ++ new' /\ lineInvariant old new' st' false.
Proof.
  intros [Hold Hnew] Hstep.
  inversion Hstep as [ms nl | ms nl | ms nl Hne | ms nl]; subst.
  - (* a run opens *)
    exists (new ++ [(true, false)]). split; [now rewrite app_assoc |].
    split; [exact Hold |]. right. exists new, (true, false).
    split; [reflexivity |]. split; [reflexivity |].
    rewrite starts_app, ends_app. simpl. split; [| reflexivity].
    destruct Hnew as [[-> _] | (front & m & -> & _ & Hbal & _)]; [reflexivity |].
    rewrite Hbal. unfold starts, ends; simpl. lia.
  - (* nothing to render *)
    exists new. split; [reflexivity |]. split; [exact Hold |].
    destruct Hnew as [[-> _] | (front & m & -> & Hnl & Hbal)].
    + left. split; [reflexivity | discriminate].
    + right. exists front, m. auto.
  - (* the run closes *)
    destruct Hnew as [[-> _] | (front & m & -> & _ & Hbal & Hopen)].
    + rewrite app_nil_r in *. exists []. rewrite app_nil_r.
      split; [now apply closeLast_closed |].
      split; [exact Hold |]. left. split; [reflexivity | discriminate].
    + exists (closeLast (front ++ [m])). split; [apply closeLast_app |].
      split; [exact Hold |]. right. rewrite closeLast_snoc.
      exists front, (fst m, true). split; [reflexivity |]. split; [reflexivity |].
      split; [| reflexivity].
      rewrite starts_app, ends_app in *. destruct m as [s e]; simpl in *. subst e.
      unfold starts, ends in *; simpl in *. destruct s; simpl in *; lia.
  - (* the run goes on *)
    exists (new ++ [(newLine, false)]). split; [now rewrite app_assoc |].
    split; [exact Hold |]. right. exists new, (newLine, false).
    split; [reflexivity |]. split; [reflexivity |].
    rewrite starts_app, ends_app. split; [| reflexivity].
    destruct Hnew as [[-> Hnl] | (front & m & -> & -> & Hbal & _)].
    + rewrite Hnl by reflexivity. reflexivity.
    + rewrite Hbal. unfold starts, ends; simpl. lia.
Qed.

Lemma outputMarkers_emplace (cs : list RenderCell) (c : RenderCell)
      (f : RenderCell -> RenderCell) :
  map runMarkers (alter f (length (cs ++ [c]) - 1)%nat (cs ++ [c]))
  = map runMarkers cs ++ [runMarkers (f c)].
Proof.
  rewrite length_app. simpl.
  replace (length cs + 1 - 1)%nat with (length cs + 0)%nat by lia.
  rewrite alter_app_r. simpl. now rewrite map_app.
Qed.

Lemma outputMarkers_alter (cs : list RenderCell) (i : nat) :
  map runMarkers (alter markGroupEnd i cs)
  = alter (fun m => (fst m, true)) i (map runMarkers cs).
Proof.
  revert i. induction cs as [|c cs IH]; intros [|i]; simpl; try reflexivity.
  f_equal. apply IH.
Qed.

Lemma outputMarkers_back (cs : list RenderCell) :
  map runMarkers (alter markGroupEnd (length cs - 1)%nat cs)
  = closeLast (map runMarkers cs).
Proof. unfold closeLast. rewrite length_map. apply outputMarkers_alter. Qed.

Lemma outputMarkers_alter_start (cs : list RenderCell) (i : nat) :
  map runMarkers (alter markGroupStart i cs)
  = alter (fun m => (true, snd m)) i (map runMarkers cs).
Proof.
  revert i. induction cs as [|c cs IH]; intros [|i]; simpl; try reflexivity.
  f_equal. apply IH.
Qed.

Lemma starts_replicate (n : nat) : starts (replicate n (false, false)) = 0%nat.
Proof. induction n as [|n IH]; [reflexivity | exact IH]. Qed.

Lemma ends_replicate (n : nat) : ends (replicate n (false, false)) = 0%nat.
Proof. induction n as [|n IH]; [reflexivity | exact IH]. Qed.

Lemma alter_last_replicate {A} (f : A -> A) (x : A) (n : nat) :
  alter f n (replicate (S n) x) = replicate n x ++ [f x].
Proof. induction n as [|n IH]; [reflexivity |]. simpl. f_equal. exact IH. Qed.

(** A run of [k] fresh cells whose first cell is marked as the start and
    whose last cell is marked as the end. *)
Lemma one_run_markers (k : nat) :
  (0 < k)%nat ->
  let run := alter (fun m : bool * bool => (fst m, true)) (k - 1)%nat
               (alter (fun m : bool * bool => (true, snd m)) 0%nat
                  (replicate k (false, false))) in
  starts run = 1%nat /\ ends run = 1%nat /\ exists front m, run = front ++ [m] /\ snd m = true.
Proof.
  intros Hk. destruct k as [|k]; [lia |]. cbv zeta.
  replace (S k - 1)%nat with k by lia.
  change (alter (fun m : bool * bool => (true, snd m)) 0%nat
            (replicate (S k) (false, false)))
    with ((true, false) :: replicate k (false, false)).
  destruct k as [|k].
  - repeat split. exists [], (true, true). split; reflexivity.
  - assert (Hrun : alter (fun m : bool * bool => (fst m, true)) (S k)
                     ((true, false) :: replicate (S k) (false, false))
                   = ([(true, false)] ++ replicate k (false, false)) ++ [(false, true)]).
    { change (alter (fun m : bool * bool => (fst m, true)) (S k)
                ((true, false) :: replicate (S k) (false, false)))
        with ((true, false)
                :: alter (fun m : bool * bool => (fst m, true)) k
                     (replicate (S k) (false, false))).
      now rewrite alter_last_replicate. }
    rewrite Hrun.
    rewrite !starts_app, !ends_app, starts_replicate, ends_replicate.
    repeat split. eexists _, _. split; reflexivity.
Qed.

(** The cells of a trivial line are one run: the markers of the cells
    before the line stay as they are, and the cells of the line have one
    [groupStart] and one [groupEnd]. *)
Lemma trivialLine_markers_paired lineBuffer lineOffset_ b b' :
  renderTrivialLine lineBuffer lineOffset_ b = Done tt b' ->
  Z.of_nat (length (outputCells b')) < 2 ^ 64 ->
  exists new,
    outputMarkers b' = outputMarkers b ++ new
    /\ starts new = ends new
    /\ lastClosed (outputMarkers b')
    /\ inputMethodData b' = inputMethodData b
    /\ inputMethodSkipColumns b' = inputMethodSkipColumns b.
Proof.
  intros H Hsize. unfold renderTrivialLine in H. run_in H.
  destruct (renderTrivialLine_cells lineBuffer lineOffset_ b) as [[] b1|] eqn:Hcells;
    [| discriminate].
  apply renderTrivialLine_cells_markers in Hcells.
  destruct Hcells as [Hsame Hmarkers].
  destruct Hsame as (_ & _ & _ & _ & Hime & _ & _ & _ & _ & Hsk).
  set (k := (length (utf8_grapheme_segmenter (text lineBuffer))
             + Z.to_nat (pageColumns (terminal b)
                         - Z.min (pageColumns (terminal b)) (usedColumns lineBuffer)))%nat)
    in *.
  assert (Hlen : length (outputCells b1) = (length (outputCells b) + k)%nat).
  { rewrite <- !outputMarkers_length, Hmarkers, length_app, length_replicate.
    reflexivity. }
  unfold updateCell, set_cells, set_output in H. run_in H.
  unfold outputCells in *. simpl in H.
  destruct ((0 <=? Z.of_nat (length (cells (output b))))
            && (Z.of_nat (length (cells (output b)))
                <? Z.of_nat (length (cells (output b1))))) eqn:Hfront;
    [| discriminate].
  simpl in H. rewrite length_alter in H.
  destruct ((0 <=? wrap64 (Z.of_nat (length (cells (output b1))) - 1))
            && (wrap64 (Z.of_nat (length (cells (output b1))) - 1)
                <? Z.of_nat (length (cells (output b1))))) eqn:Hback;
    [| discriminate].
  inversion H; subst b'; clear H. simpl in *.
  rewrite !length_alter in Hsize.
  apply andb_prop in Hfront. destruct Hfront as [_ Hfront]. apply Z.ltb_lt in Hfront.
  assert (Hk : (0 < k)%nat) by lia.
  rewrite wrap64_small by lia.
  unfold outputMarkers, outputCells in *. simpl.
  rewrite outputMarkers_alter, outputMarkers_alter_start, Hmarkers.
  replace (Z.to_nat (Z.of_nat (length (cells (output b1))) - 1))
    with (length (map runMarkers (cells (output b))) + (k - 1))%nat
    by (rewrite length_map; lia).
  replace (Z.to_nat (Z.of_nat (length (cells (output b)))))
    with (length (map runMarkers (cells (output b))) + 0)%nat
    by (rewrite length_map; lia).
  rewrite !alter_app_r.
  destruct (one_run_markers k Hk) as (Hstarts & Hends & front & m & Hrun & Hm).
  eexists. split; [reflexivity |]. split; [now rewrite Hstarts, Hends |].
  split; [| split; assumption].
  simpl in Hrun. rewrite Hrun, app_assoc. now apply lastClosed_snoc.
Qed.

Lemma trivialLine_grows lineBuffer lineOffset_ b b' :
  renderTrivialLine lineBuffer lineOffset_ b = Done tt b' ->
  (length (outputCells b) <= length (outputCells b'))%nat
  /\ inputMethodData b' = inputMethodData b
  /\ inputMethodSkipColumns b' = inputMethodSkipColumns b.
Proof.
  intros H. unfold renderTrivialLine in H. run_in H.
  destruct (renderTrivialLine_cells lineBuffer lineOffset_ b) as [[] b1|] eqn:Hcells;
    [| discriminate].
  pose proof (renderTrivialLine_cells_appends _ _ _ _ _ Hcells) as Hlen.
  apply renderTrivialLine_cells_markers in Hcells.
  destruct Hcells as [(_ & _ & _ & _ & Hime & _ & _ & _ & _ & Hsk) _].
  unfold updateCell, set_cells, set_output in H. run_in H.
  unfold outputCells in *. simpl in H.
  destruct (_ && _); [| discriminate]. simpl in H. rewrite length_alter in H.
  destruct (_ && _); [| discriminate].
  inversion H; subst b'; clear H. simpl. rewrite !length_alter.
  repeat split; [lia | assumption | assumption].
Qed.

Section WithCell.
Context {Cell : Type} {C : CellConcept Cell}.

#[local] Arguments makeRenderCell : simpl never.
#[local] Arguments makeColorsForCell : simpl never.

(** Without preedit text and with no column to skip, [renderCell] is one
    step of the automaton. *)
Lemma renderCell_step (screenCell : Cell) (_line _column : Z)
      (b b' : RenderBufferBuilder) :
  preeditString (inputMethodData b) = [] ->
  inputMethodSkipColumns b = 0 ->
  renderCell screenCell _line _column b = Done tt b' ->
  cellStep (outputMarkers b) (state b) (isNewLine b) (outputMarkers b') (state b')
  /\ isNewLine b' = false
  /\ inputMethodSkipColumns b' = 0
  /\ inputMethodData b' = inputMethodData b.
Proof.
  intros Hpre Hskip H. unfold renderCell in H. run_in H.
  rewrite Hpre in H. simpl in H. rewrite andb_false_r in H.
  rewrite Hskip in H. simpl in H.
  unfold set_prevWidth, set_prevHasCursor, set_state, set_isNewLine, emplace_back,
         updateBack, set_cells, set_output in H.
  unfold outputMarkers, outputCells in *. run_in H.
  assert (Hframe : forall f n b1,
             matchSearchPattern f n b1 = Done tt b' ->
             inputMethodData b1 = inputMethodData b ->
             inputMethodSkipColumns b1 = 0 ->
             isNewLine b1 = false ->
             cellStep (map runMarkers (cells (output b))) (state b) (isNewLine b)
                      (map runMarkers (cells (output b1))) (state b1) ->
             cellStep (map runMarkers (cells (output b))) (state b) (isNewLine b)
                      (map runMarkers (cells (output b'))) (state b')
             /\ isNewLine b' = false
             /\ inputMethodSkipColumns b' = 0
             /\ inputMethodData b' = inputMethodData b).
  { intros f n b1 Hmatch Hime1 Hsk1 Hnl1 Hstep.
    apply matchSearchPattern_frame in Hmatch. destruct Hmatch as [Hsame Hmarkers].
    unfold outputCells in Hmarkers.
    destruct Hsame as (_ & _ & _ & _ & Hime & _ & _ & Hst & Hnl & Hsk).
    rewrite Hst, Hnl, Hsk, Hime, Hmarkers. auto. }
  destruct (state b) eqn:Hstate.
  - (* Gap *)
    destruct (negb (cellEmpty screenCell) || _) eqn:Hemit; run_in H.
    + destruct (cells (output b) ++ [_]) as [|c0 cs0] eqn:Happ.
      { now destruct (cells (output b)). }
      rewrite <- Happ in H. clear Happ c0 cs0. run_in H.
      eapply Hframe; [exact H | reflexivity | exact Hskip | reflexivity |]. simpl.
      rewrite outputMarkers_emplace. apply step_open.
    + eapply Hframe; [exact H | reflexivity | exact Hskip | reflexivity |]. simpl.
      apply step_gap.
  - (* Sequence *)
    destruct (cellEmpty screenCell && _) eqn:Hclose; run_in H.
    + destruct (cells (output b)) as [|c0 cs0] eqn:Hcells; [discriminate |].
      rewrite <- Hcells in H, Hframe |- *. run_in H.
      eapply Hframe; [exact H | reflexivity | exact Hskip | reflexivity |]. simpl.
      rewrite outputMarkers_back. apply step_close.
      rewrite Hcells. discriminate.
    + destruct (isNewLine b) eqn:Hnewline; run_in H.
      * destruct (cells (output b) ++ [_]) as [|c0 cs0] eqn:Happ.
        { now destruct (cells (output b)). }
        rewrite <- Happ in H. clear Happ c0 cs0. run_in H.
        eapply Hframe; [exact H | reflexivity | exact Hskip | reflexivity |]. simpl.
        rewrite outputMarkers_emplace. apply step_extend.
      * eapply Hframe; [exact H | reflexivity | exact Hskip | reflexivity |]. simpl.
        rewrite map_app. apply step_extend.
Qed.

Lemma renderCells_invariant (columns : list Cell) :
  forall (_line _column : Z) (b b' : RenderBufferBuilder) (old new : list (bool * bool)),
    preeditString (inputMethodData b) = [] ->
    inputMethodSkipColumns b = 0 ->
    outputMarkers b = old ++ new ->
    lineInvariant old new (state b) (isNewLine b) ->
    renderCells columns _line _column b = Done tt b' ->
    exists new',
      outputMarkers b' = old ++ new'
      /\ lineInvariant old new' (state b') (isNewLine b')
      /\ preeditString (inputMethodData b') = []
      /\ inputMethodSkipColumns b' = 0.
Proof.
  induction columns as [|screenCell columns IH];
    intros _line _column b b' old new Hpre Hskip Hsplit Hinv H.
  - inversion H; subst. exists new. auto.
  - simpl in H. unfold bind in H.
    destruct (renderCell screenCell _line _column b) as [[] b1|] eqn:Hcell;
      [| discriminate].
    destruct (renderCell_step _ _ _ _ _ Hpre Hskip Hcell) as (Hstep & Hnl & Hsk & Hime).
    rewrite Hsplit in Hstep.
    destruct (cellStep_invariant _ _ _ _ _ _ Hinv Hstep) as (new1 & Hsplit1 & Hinv1).
    rewrite <- Hnl in Hinv1.
    apply (IH _line (_column + 1) b1 b' old new1); try assumption. now rewrite Hime.
Qed.

(** The cells of a line rendered cell by cell, without preedit text: the
    markers of the cells before the line stay as they are, and the cells of
    the line have as many [groupStart] as [groupEnd]. *)
Lemma cellLine_markers_paired (columns : list Cell) (_line : Z)
      (b b' : RenderBufferBuilder) :
  preeditString (inputMethodData b) = [] ->
  inputMethodSkipColumns b = 0 ->
  lastClosed (outputMarkers b) ->
  renderLine _line (CellLine columns) b = Done tt b' ->
  exists new,
    outputMarkers b' = outputMarkers b ++ new
    /\ starts new = ends new
    /\ lastClosed (outputMarkers b')
    /\ preeditString (inputMethodData b') = []
    /\ inputMethodSkipColumns b' = 0.
Proof.
  intros Hpre Hskip Hclosed H. simpl in H.
  unfold startLine, set_isNewLine, set_lineNr, set_prevWidth, set_prevHasCursor in H.
  run_in H.
  match type of H with
  | match renderCells _ _ _ ?b0 with _ => _ end = _ =>
      destruct (renderCells columns _line 0 b0) as [[] b1|] eqn:Hcells; [| discriminate];
      destruct (renderCells_invariant columns _line 0 b0 b1 (outputMarkers b) [])
        as (new & Hsplit & [Hold Hnew] & Hpre1 & Hskip1);
      [ exact Hpre | exact Hskip | now rewrite app_nil_r
      | split; [exact Hclosed | left; split; [reflexivity | reflexivity]]
      | exact Hcells | ]
  end.
  assert (Hend : outputMarkers b' = closeLast (outputMarkers b1)
                 /\ inputMethodData b' = inputMethodData b1
                 /\ inputMethodSkipColumns b' = inputMethodSkipColumns b1).
  { unfold endLine, updateBack, set_cells, set_output in H. run_in H.
    unfold outputMarkers, outputCells in *.
    destruct (cells (output b1)) as [|c0 cs0] eqn:Hcs.
    - inversion H; subst. now rewrite Hcs.
    - run_in H. rewrite Hcs in H. inversion H; subst.
      split; [| split; reflexivity]. apply (outputMarkers_back (c0 :: cs0)). }
  destruct Hend as (Hmarkers & Hime & Hsk).
  rewrite Hmarkers, Hime, Hsk, Hsplit.
  destruct Hnew as [[-> _] | (front & m & -> & _ & Hbal)].
  - exists []. rewrite !app_nil_r. rewrite closeLast_closed by exact Hold.
    repeat split; assumption.
  - exists (closeLast (front ++ [m])). rewrite closeLast_app.
    split; [reflexivity |]. rewrite closeLast_snoc.
    split; [| split; [| split; assumption]].
    + rewrite starts_app, ends_app in *. destruct m as [s e]; simpl in *.
      destruct (state b1); destruct Hbal as [Hbal He]; subst e;
        unfold starts, ends in *; simpl in *; destruct s; simpl in *; lia.
    + rewrite app_assoc. now apply lastClosed_snoc.
Qed.

Lemma cellStep_length ms st newLine ms' st' :
  cellStep ms st newLine ms' st' -> (length ms <= length ms')%nat.
Proof.
  intros Hstep. inversion Hstep; subst; rewrite ?length_app; simpl;
    unfold closeLast; rewrite ?length_alter; lia.
Qed.

Lemma renderCells_grows (columns : list Cell) :
  forall (_line _column : Z) (b b' : RenderBufferBuilder),
    preeditString (inputMethodData b) = [] ->
    inputMethodSkipColumns b = 0 ->
    renderCells columns _line _column b = Done tt b' ->
    (length (outputCells b) <= length (outputCells b'))%nat
    /\ preeditString (inputMethodData b') = []
    /\ inputMethodSkipColumns b' = 0.
Proof.
  induction columns as [|screenCell columns IH]; intros _line _column b b' Hpre Hskip H.
  - inversion H; subst. auto.
  - simpl in H. unfold bind in H.
    destruct (renderCell screenCell _line _column b) as [[] b1|] eqn:Hcell;
      [| discriminate].
    destruct (renderCell_step _ _ _ _ _ Hpre Hskip Hcell) as (Hstep & _ & Hsk & Hime).
    apply cellStep_length in Hstep. rewrite !outputMarkers_length in Hstep.
    destruct (IH _line (_column + 1) b1 b') as (Hlen & Hpre' & Hsk');
      [now rewrite Hime | exact Hsk | exact H |].
    repeat split; [lia | assumption | assumption].
Qed.

Lemma renderLine_grows (_line : Z) (l : GridLine) (b b' : RenderBufferBuilder) :
  preeditString (inputMethodData b) = [] ->
  inputMethodSkipColumns b = 0 ->
  renderLine _line l b = Done tt b' ->
  (length (outputCells b) <= length (outputCells b'))%nat
  /\ preeditString (inputMethodData b') = []
  /\ inputMethodSkipColumns b' = 0.
Proof.
  intros Hpre Hskip H. destruct l as [lineBuffer | columns]; simpl in H.
  - destruct (trivialLine_grows _ _ _ _ H) as (Hlen & Hime & Hsk).
    rewrite Hime, Hsk. auto.
  - unfold startLine, set_isNewLine, set_lineNr, set_prevWidth, set_prevHasCursor in H.
    run_in H.
    match type of H with
    | match renderCells _ _ _ ?b0 with _ => _ end = _ =>
        destruct (renderCells columns _line 0 b0) as [[] b1|] eqn:Hcells;
          [| discriminate];
        destruct (renderCells_grows columns _line 0 b0 b1 Hpre Hskip Hcells)
          as (Hlen & Hpre1 & Hskip1)
    end.
    unfold endLine, updateBack, set_cells, set_output in H. run_in H.
    unfold outputCells in *. simpl in Hlen.
    destruct (cells (output b1)) as [|c0 cs0] eqn:Hcs.
    + inversion H; subst. rewrite Hcs. auto.
    + run_in H. rewrite Hcs in H. inversion H; subst. simpl.
      rewrite length_alter. auto.
Qed.

Lemma renderLines_grows (grid : list GridLine) :
  forall (_line : Z) (b b' : RenderBufferBuilder),
    preeditString (inputMethodData b) = [] ->
    inputMethodSkipColumns b = 0 ->
    renderLines grid _line b = Done tt b' ->
    (length (outputCells b) <= length (outputCells b'))%nat.
Proof.
  induction grid as [|l grid IH]; intros _line b b' Hpre Hskip H.
  - inversion H; subst. lia.
  - simpl in H. unfold bind in H.
    destruct (renderLine _line l b) as [[] b1|] eqn:Hline; [| discriminate].
    destruct (renderLine_grows _ _ _ _ Hpre Hskip Hline) as (Hlen & Hpre1 & Hskip1).
    specialize (IH (_line + 1) b1 b' Hpre1 Hskip1 H). lia.
Qed.

(** A frame without preedit text: the cells of every line, trivial or
    not, carry as many [groupStart] as [groupEnd] markers.  [segments] are
    the markers of the cells of the lines, one segment for each line. *)
Lemma frame_markers_paired (grid : list GridLine) :
  forall (_line : Z) (b b' : RenderBufferBuilder),
    preeditString (inputMethodData b) = [] ->
    inputMethodSkipColumns b = 0 ->
    lastClosed (outputMarkers b) ->
    renderLines grid _line b = Done tt b' ->
    Z.of_nat (length (outputCells b')) < 2 ^ 64 ->
    exists segments,
      outputMarkers b' = outputMarkers b ++ concat segments
      /\ length segments = length grid
      /\ Forall (fun segment => starts segment = ends segment) segments.
Proof.
  induction grid as [|l grid IH]; intros _line b b' Hpre Hskip Hclosed H Hsize.
  - inversion H; subst. exists []. simpl. rewrite app_nil_r. auto.
  - simpl in H. unfold bind in H.
    destruct (renderLine _line l b) as [[] b1|] eqn:Hline; [| discriminate].
    destruct (renderLine_grows _ _ _ _ Hpre Hskip Hline) as (_ & Hpre1 & Hskip1).
    pose proof (renderLines_grows _ _ _ _ Hpre1 Hskip1 H) as Hgrow.
    assert (Hone : exists new,
               outputMarkers b1 = outputMarkers b ++ new
               /\ starts new = ends new
               /\ lastClosed (outputMarkers b1)).
    { destruct l as [lineBuffer | columns].
      - destruct (trivialLine_markers_paired lineBuffer _line b b1 Hline)
          as (new & Hsplit & Hbal & Hcl & _); [lia |].
        exists new. auto.
      - destruct (cellLine_markers_paired columns _line b b1 Hpre Hskip Hclosed Hline)
          as (new & Hsplit & Hbal & Hcl & _).
        exists new. auto. }
    destruct Hone as (new & Hsplit & Hbal & Hclosed1).
    destruct (IH (_line + 1) b1 b' Hpre1 Hskip1 Hclosed1 H Hsize)
      as (segments & Hrest & Hcount & Hall).
    exists (new :: segments). simpl.
    split; [now rewrite Hrest, Hsplit, <- app_assoc |].
    split; [now rewrite Hcount |].
    constructor; assumption.
Qed.

Lemma starts_markers (cs : list RenderCell) :
  starts (map runMarkers cs) = countGroupStart cs.
Proof.
  unfold starts, countGroupStart.
  induction cs as [|c cs IH]; simpl; [reflexivity |].
  destruct (groupStart c); simpl; now rewrite IH.
Qed.

Lemma ends_markers (cs : list RenderCell) :
  ends (map runMarkers cs) = countGroupEnd cs.
Proof.
  unfold ends, countGroupEnd.
  induction cs as [|c cs IH]; simpl; [reflexivity |].
  destruct (groupEnd c); simpl; now rewrite IH.
Qed.

(** A frame that starts on an empty buffer and has no preedit text ends
    with as many cells marked [groupStart] as cells marked [groupEnd]. *)
Lemma frame_counts_equal (grid : list GridLine) (_terminal : Terminal)
      (_output : RenderBuffer) (base : Z) (theReverseVideo : bool)
      (highlight : HighlightSearchMatches) (b' : RenderBufferBuilder) :
  cells _output = [] ->
  renderLines grid 0
    (construct _terminal _output base theReverseVideo highlight
       {| preeditString := [] |}) = Done tt b' ->
  Z.of_nat (length (outputCells b')) < 2 ^ 64 ->
  countGroupStart (outputCells b') = countGroupEnd (outputCells b').
Proof.
  intros Hempty H Hsize.
  destruct (frame_markers_paired grid 0
              (construct _terminal _output base theReverseVideo highlight
                 {| preeditString := [] |}) b')
    as (segments & Hsplit & _ & Hall);
    try assumption; try reflexivity.
  { unfold outputMarkers, outputCells. simpl. rewrite Hempty. exact I. }
  rewrite <- starts_markers, <- ends_markers.
  fold (outputMarkers b'). rewrite Hsplit.
  unfold outputMarkers, outputCells. simpl. rewrite Hempty. simpl.
  clear Hsplit. induction Hall as [|segment segments Hbal _ IH]; [reflexivity |].
  simpl. now rewrite starts_app, ends_app, Hbal, IH.
Qed.

(** ** The preedit overlay needs the cursor of the output *)

Lemma renderUtf8Text_loop_plain (clusters : list u32string) :
  forall screenPosition textAttributes_ columnCountRendered b,
    Forall (fun g => g <> []) clusters ->
    exists b',
      renderUtf8Text_loop clusters screenPosition textAttributes_ false
        columnCountRendered b
      = Done (columnCountRendered + textColumns clusters) b'
      /\ sameSettings b b'.
Proof.
  induction clusters as [|g clusters IH];
    intros screenPosition textAttributes_ n b Hall.
  - exists b. simpl. rewrite Z.add_0_r. split; [reflexivity | apply sameSettings_refl].
  - inversion Hall as [|? ? Hg Hall']; subst.
    destruct g as [|base rest]; [congruence |].
    simpl. run.
    unfold emplace_back, set_cells, set_output, set_lineNr, set_prevWidth,
           set_prevHasCursor. run.
    match goal with
    | |- exists b', renderUtf8Text_loop clusters ?p ?a false ?n1 ?b1 = _ /\ _ =>
        destruct (IH p a n1 b1 Hall') as (b' & Hrun & Hsame)
    end.
    exists b'. rewrite Hrun. split; [f_equal; lia |].
    eapply sameSettings_trans; [| exact Hsame]. unfold sameSettings; simpl. tauto.
Qed.

(** Whenever the preedit text is rendered and takes a column while the
    output has no cursor, [renderCell] dereferences the empty optional. *)
Lemma preedit_needs_cursor (screenCell : Cell) (_line _column : Z)
      (b : RenderBufferBuilder) :
  CellLocation_eqb
    (translateScreenToGridCoordinate (terminal b)
       {| line := _line; column := _column |})
    (cursorPosition b) = true ->
  preeditString (inputMethodData b) <> [] ->
  Forall (fun g => g <> [])
         (utf8_grapheme_segmenter (preeditString (inputMethodData b))) ->
  0 < textColumns (utf8_grapheme_segmenter (preeditString (inputMethodData b))) ->
  cursor (output b) = None ->
  renderCell screenCell _line _column b = Abort BadOptionalAccess.
Proof.
  intros Hat Hpre Hall Hcolumns Hcursor.
  assert (Hne : negb (Z.of_nat (length (preeditString (inputMethodData b))) =? 0)
                = true).
  { destruct (preeditString (inputMethodData b)); [congruence | reflexivity]. }
  unfold renderCell. run. rewrite Hat, Hne. simpl.
  unfold updateBack, set_cells, set_output, renderUtf8Text. run.
  unfold outputCells.
  assert (Hloop : forall b0, cursor (output b0) = None ->
            forall p a,
            exists b1,
              renderUtf8Text_loop
                (utf8_grapheme_segmenter (preeditString (inputMethodData b))) p a false 0 b0
              = Done (textColumns
                        (utf8_grapheme_segmenter (preeditString (inputMethodData b)))) b1
              /\ cursor (output b1) = None).
  { intros b0 Hc0 p a.
    destruct (renderUtf8Text_loop_plain _ p a 0 b0 Hall) as (b1 & Hrun & Hsame).
    rewrite Z.add_0_l in Hrun.
    exists b1. split; [exact Hrun |].
    destruct Hsame as (_ & _ & _ & _ & _ & _ & Hc & _). now rewrite Hc. }
  assert (Hpos : (0 <? textColumns
                         (utf8_grapheme_segmenter (preeditString (inputMethodData b))))
                 = true) by now apply Z.ltb_lt.
  destruct (cells (output b)) as [|c0 cs0] eqn:Hcells; simpl;
    rewrite ?Hcells; run;
    lazymatch goal with
    | |- context [renderUtf8Text_loop _ ?p ?a false 0 ?b0] =>
        assert (Hc0 : cursor (output b0) = None) by exact Hcursor;
        destruct (Hloop b0 Hc0 p a) as (b1 & Hrun & Hc1)
    end;
    rewrite Hrun; unfold set_inputMethodSkipColumns; run;
    rewrite Hpos; simpl; now rewrite Hc1.
Qed.

End WithCell.

End Builder.

Import Fixture.


Lemma renderTrivialLine_lineAB :
  match renderTrivialLine lineAB 0 twoColumnFrame with
  | Done _ b => map markers (outputCells b) = [([97], true, false); ([98], false, true)]
  | Abort _ => False
  end.
Proof. vm_compute. reflexivity. Qed.

(** The condition is not tested by [renderTrivialLine] itself.  A buffer
    made by hand that holds no text and yet claims every column of the page
    appends no cell, and the write of the first marker is past the end of
    the cells.  No line of a screen is of that kind: [usedColumns] counts
    the columns that the text of the line spans, from column 0 on. *)
Lemma renderTrivialLine_appends_nothing :
  match renderTrivialLine_cells fullLineWithoutText 0 twoColumnFrame with
  | Done _ b' => outputCells b' = outputCells twoColumnFrame
  | Abort _ => False
  end
  /\ renderTrivialLine fullLineWithoutText 0 twoColumnFrame = Abort PastTheEnd.
Proof. split; vm_compute; reflexivity. Qed.

(** ** The preedit overlay *)

(** C1.  The preedit overlay marks the cell [output.cells.size() - n] as
    the start of its run, [n] being the columns the preedit text takes, not
    the cells it appended.  A cluster of two columns is one cell: after [a]
    and the preedit text U+4E2D the line has the cells [a] and U+4E2D, the
    start marker of the overlay has gone to [a], and U+4E2D ends a run that
    no cell starts.  One cell is marked [groupStart], two are marked
    [groupEnd]. *)
Theorem wide_preedit_unbalances_markers :
  match renderLines wideGrid 0 wideFrame with
  | Done _ b =>
      map markers (outputCells b) = [([97], true, true); ([0x4E2D], false, true)]
      /\ countGroupStart (outputCells b) = 1%nat
      /\ countGroupEnd (outputCells b) = 2%nat
  | Abort _ => False
  end.
Proof. vm_compute. repeat split. Qed.

Lemma heart_preedit_unbalances_markers :
  match renderLines wideGrid 0 heartFrame with
  | Done _ b =>
      map markers (outputCells b)
      = [([97], true, true); ([0x2764; 0xFE0F], false, true)]
  | Abort _ => False
  end.
Proof. vm_compute. reflexivity. Qed.

(** With clusters of one column the overlay is one run of its own. *)
Lemma narrow_preedit_is_one_run :
  match renderLines [CellLine [glyph 97; blank; glyph 98]] 0 narrowFrame with
  | Done _ b =>
      map markers (outputCells b)
      = [([97], true, true); ([120], true, false); ([121], false, true)]
  | Abort _ => False
  end.
Proof. vm_compute. reflexivity. Qed.

(** C9.  The constructor stores what [renderCursor] returns, which is
    nothing when the cursor is not visible; nothing else writes
    [output.cursor].  The overlay is rendered wherever the grid position is
    the cursor position, visible or not, and then advances the column of
    [output.cursor] without looking whether there is one. *)
Theorem preedit_with_hidden_cursor :
  cursor (output hiddenCursorFrame) = None
  /\ renderCell (glyph 120) 0 0 hiddenCursorFrame = Abort BadOptionalAccess.
Proof. split; vm_compute; reflexivity. Qed.

End BuilderTheory.

(** * What a frame keeps and where it puts its cells *)

Module BuilderLayout.
Import Render.

Section Layout.
Context {F : Foreign} {L : Library}.

Ltac run :=
  unfold bind, get, modify, ret, fail, require, assert, returning; simpl.

Ltac run_in H :=
  unfold bind, get, modify, ret, fail, require, assert, returning in H; simpl in H.

(** ** The search matcher *)

Lemma uncolored_recolor (colors : RGBColorPair) (c : RenderCell) :
  uncolored (recolor colors c) = uncolored c.
Proof. reflexivity. Qed.

Lemma uncolored_partial_map (g : RenderCell -> RenderCell) (n : nat)
      (cs : list RenderCell) :
  (forall c, uncolored (g c) = uncolored c) ->
  map uncolored (take n cs ++ map g (drop n cs)) = map uncolored cs.
Proof.
  intros Hg. rewrite map_app, map_map.
  rewrite (map_ext (fun c => uncolored (g c)) uncolored) by exact Hg.
  rewrite <- map_app. now rewrite take_drop.
Qed.

Lemma wrap64_range (z : Z) : 0 <= wrap64 z < 2 ^ 64.
Proof. unfold wrap64. apply Z.mod_pos_bound. lia. Qed.

Lemma matchSearchPattern_uncolored beginsWithTextCell textCellSize b a b' :
  matchSearchPattern beginsWithTextCell textCellSize b = Done a b' ->
  map uncolored (outputCells b') = map uncolored (outputCells b)
  /\ frameKept b b'
  /\ (highlightSearchMatches b = Yes ->
      searchPattern (terminal b) <> [] ->
      0 <= searchPatternOffset b' < Z.of_nat (length (searchPattern (terminal b)))).
Proof.
  unfold matchSearchPattern, set_searchPatternOffset, set_cells, set_output.
  intros H. run_in H.
  destruct (highlightSearchMatches b) eqn:Hhl.
  { inversion H; subst. unfold frameKept.
    repeat split; try reflexivity; intros; discriminate. }
  destruct (Z.of_nat (length (searchPattern (terminal b))) =? 0) eqn:Hempty.
  { inversion H; subst. unfold frameKept.
    repeat split; try reflexivity; intros;
      destruct (searchPattern (terminal b')); simpl in *; try congruence; discriminate. }
  assert (Hlen : 0 < Z.of_nat (length (searchPattern (terminal b))))
    by (apply Z.eqb_neq in Hempty; lia).
  destruct (beginsWithTextCell _); simpl in H.
  2: { inversion H; subst. unfold frameKept, outputCells; simpl.
       repeat split; try reflexivity; lia. }
  destruct (_ <? _) eqn:Hshort.
  { inversion H; subst. unfold frameKept, outputCells; simpl.
    repeat split; try reflexivity.
    - apply wrap64_range.
    - apply Z.ltb_lt in Hshort. exact Hshort. }
  unfold outputCells in H; simpl in H.
  destruct (cells (output b) !! _); [| discriminate].
  destruct (last (cells (output b))); [| discriminate].
  inversion H; subst. unfold frameKept, outputCells; simpl.
  repeat split; try reflexivity; try lia.
  - apply uncolored_partial_map. intros c. apply uncolored_recolor.
  - rewrite length_app, length_map, <- length_app, take_drop. reflexivity.
Qed.

(** X16.  The search matcher changes nothing of a frame but colors and its
    own offset: after [matchSearchPattern] the cells are the cells from
    before up to their foreground and background, and when highlighting is
    on and there is a pattern the offset is left inside the pattern, so
    that the next cell is compared with a part of the pattern that is not
    empty. *)
Theorem matchSearchPattern_only_recolors (beginsWithTextCell : u32string -> bool)
    (textCellSize : Z) (b b' : RenderBufferBuilder) :
  matchSearchPattern beginsWithTextCell textCellSize b = Done tt b' ->
  map uncolored (outputCells b') = map uncolored (outputCells b)
  /\ cursor (output b') = cursor (output b)
  /\ state b' = state b
  /\ (highlightSearchMatches b = Yes ->
      searchPattern (terminal b) <> [] ->
      0 <= searchPatternOffset b' < Z.of_nat (length (searchPattern (terminal b)))).
Proof.
  intros H.
  destruct (matchSearchPattern_uncolored _ _ _ _ _ H) as (Hcells & _ & Hoffset).
  destruct (BuilderTheory.matchSearchPattern_frame _ _ _ _ _ H) as [Hsame _].
  unfold sameSettings in Hsame. tauto.
Qed.

Lemma matchSearchPattern_previous beginsWithTextCell textCellSize b a b' :
  matchSearchPattern beginsWithTextCell textCellSize b = Done a b' ->
  prevWidth b' = prevWidth b /\ prevHasCursor b' = prevHasCursor b.
Proof.
  unfold matchSearchPattern, set_searchPatternOffset, set_cells, set_output.
  intros H. run_in H.
  destruct (highlightSearchMatches b); [inversion H; subst; auto |].
  destruct (_ =? 0); [inversion H; subst; auto |].
  destruct (beginsWithTextCell _); simpl in H; [| inversion H; subst; auto].
  destruct (_ <? _); [inversion H; subst; auto |].
  unfold outputCells in H; simpl in H.
  destruct (cells (output b) !! _); [| discriminate].
  destruct (last (cells (output b))); [| discriminate].
  inversion H; subst; auto.
Qed.

#[local] Arguments matchSearchPattern : simpl never.

(** ** What every call keeps *)

Lemma frameKept_refl (b : RenderBufferBuilder) : frameKept b b.
Proof. unfold frameKept. repeat split; reflexivity. Qed.

Lemma frameKept_trans (b1 b2 b3 : RenderBufferBuilder) :
  frameKept b1 b2 -> frameKept b2 b3 -> frameKept b1 b3.
Proof. unfold frameKept. intuition (try congruence; try lia). Qed.

Lemma keepsFrame_ret {A : Type} (a : A) : keepsFrame (ret a).
Proof. intros b a' b' H. inversion H; subst. apply frameKept_refl. Qed.

Lemma keepsFrame_fail {A : Type} (why : Failure) : keepsFrame (@fail _ A why).
Proof. intros b a b' H. discriminate. Qed.

Lemma keepsFrame_get {A : Type} (f : RenderBufferBuilder -> A) : keepsFrame (get f).
Proof. intros b a b' H. inversion H; subst. apply frameKept_refl. Qed.

Lemma keepsFrame_bind {A B : Type} (c : Builder A) (k : A -> Builder B) :
  keepsFrame c -> (forall a, keepsFrame (k a)) -> keepsFrame (bind c k).
Proof.
  intros Hc Hk b r b' H. unfold bind in H.
  destruct (c b) as [a b1|] eqn:Hrun; [| discriminate].
  eapply frameKept_trans; [eapply Hc | eapply Hk]; eassumption.
Qed.

Ltac keeps_primitive :=
  intros b a b' H;
  unfold set_state, set_isNewLine, set_lineNr, set_prevWidth, set_prevHasCursor,
    set_searchPatternOffset, set_inputMethodSkipColumns, set_cursor, emplace_back,
    updateCell, updateBack, set_cells, set_output in H;
  run_in H;
  repeat match type of H with
         | context [if ?c then _ else _] => destruct c
         | context [match ?x with _ => _ end] => destruct x eqn:?
         end;
  try discriminate;
  inversion H; subst; unfold frameKept, outputCells in *; simpl;
  repeat split; try reflexivity;
  rewrite ?length_app, ?length_alter; simpl; try lia; try congruence.

Lemma keepsFrame_set_state v : keepsFrame (set_state v).
Proof. keeps_primitive. Qed.
Lemma keepsFrame_set_isNewLine v : keepsFrame (set_isNewLine v).
Proof. keeps_primitive. Qed.
Lemma keepsFrame_set_lineNr v : keepsFrame (set_lineNr v).
Proof. keeps_primitive. Qed.
Lemma keepsFrame_set_prevWidth v : keepsFrame (set_prevWidth v).
Proof. keeps_primitive. Qed.
Lemma keepsFrame_set_prevHasCursor v : keepsFrame (set_prevHasCursor v).
Proof. keeps_primitive. Qed.
Lemma keepsFrame_set_searchPatternOffset v : keepsFrame (set_searchPatternOffset v).
Proof. keeps_primitive. Qed.
Lemma keepsFrame_set_inputMethodSkipColumns v : keepsFrame (set_inputMethodSkipColumns v).
Proof. keeps_primitive. Qed.
Lemma keepsFrame_set_cursor v : keepsFrame (set_cursor v).
Proof. keeps_primitive. Qed.
Lemma keepsFrame_emplace_back c : keepsFrame (emplace_back c).
Proof. keeps_primitive. Qed.
Lemma keepsFrame_updateCell why i f : keepsFrame (updateCell why i f).
Proof. keeps_primitive. Qed.
Lemma keepsFrame_updateBack f : keepsFrame (updateBack f).
Proof.
  intros b a b' H. unfold updateBack, set_cells, set_output in H. run_in H.
  unfold outputCells in H.
  destruct (cells (output b)) as [|c cs] eqn:Hcells; [discriminate |].
  inversion H; subst. unfold frameKept, outputCells.
  cbn [terminal cursorPosition baseLine reverseVideo highlightSearchMatches
       inputMethodData output frameID lines cells].
  repeat split; try reflexivity.
  rewrite Hcells, length_alter. reflexivity.
Qed.

Lemma keepsFrame_matchSearchPattern beginsWithTextCell textCellSize :
  keepsFrame (matchSearchPattern beginsWithTextCell textCellSize).
Proof. intros b a b' H. apply (matchSearchPattern_uncolored _ _ _ _ _ H). Qed.

Create HintDb frame.
#[local] Hint Resolve keepsFrame_ret keepsFrame_fail keepsFrame_get
  keepsFrame_set_state keepsFrame_set_isNewLine keepsFrame_set_lineNr
  keepsFrame_set_prevWidth keepsFrame_set_prevHasCursor
  keepsFrame_set_searchPatternOffset keepsFrame_set_inputMethodSkipColumns
  keepsFrame_set_cursor keepsFrame_emplace_back keepsFrame_updateCell
  keepsFrame_updateBack keepsFrame_matchSearchPattern : frame.

(** Takes a member function apart along its binds and its tests. *)
Ltac keeps :=
  repeat first
    [ solve [ auto with frame ]
    | apply keepsFrame_bind; [| intros ? ]
    | match goal with
      | |- keepsFrame (if ?c then _ else _) => destruct c
      | |- keepsFrame (match ?x with _ => _ end) => destruct x
      end ].

Lemma keepsFrame_startLine _line : keepsFrame (startLine _line).
Proof. unfold startLine. keeps. Qed.

Lemma keepsFrame_endLine : keepsFrame endLine.
Proof. unfold endLine. keeps. Qed.

Lemma keepsFrame_renderUtf8Text_loop (clusters : list u32string) :
  forall screenPosition textAttributes_ allowMatchSearchPattern columnCountRendered,
    keepsFrame (renderUtf8Text_loop clusters screenPosition textAttributes_
                  allowMatchSearchPattern columnCountRendered).
Proof.
  induction clusters as [|g clusters IH]; intros; simpl; keeps.
Qed.

Lemma keepsFrame_renderUtf8Text screenPosition textAttributes_ text_ allow :
  keepsFrame (renderUtf8Text screenPosition textAttributes_ text_ allow).
Proof. apply keepsFrame_renderUtf8Text_loop. Qed.

Lemma keepsFrame_fillRemaining (columnOffsets : list Z) :
  forall lineBuffer lineOffset_,
    keepsFrame (fillRemaining columnOffsets lineBuffer lineOffset_).
Proof.
  induction columnOffsets as [|columnOffset rest IH]; intros; simpl; keeps.
Qed.

#[local] Hint Resolve keepsFrame_startLine keepsFrame_endLine
  keepsFrame_renderUtf8Text keepsFrame_fillRemaining : frame.

Lemma keepsFrame_renderTrivialLine lineBuffer lineOffset_ :
  keepsFrame (renderTrivialLine lineBuffer lineOffset_).
Proof. unfold renderTrivialLine, renderTrivialLine_cells. simpl. keeps. Qed.

(** ** Where the text of a line goes *)

Lemma placement_uncolored (cs cs' : list RenderCell) :
  map uncolored cs' = map uncolored cs -> map placement cs' = map placement cs.
Proof.
  intros H.
  assert (Hvia : forall l, map placement l = map placement (map uncolored l))
    by (intros l; rewrite map_map; reflexivity).
  rewrite (Hvia cs'), (Hvia cs), H. reflexivity.
Qed.

Lemma placement_alter (f : RenderCell -> RenderCell) (i : nat) (cs : list RenderCell) :
  (forall c, placement (f c) = placement c) ->
  map placement (alter f i cs) = map placement cs.
Proof.
  intros Hf. revert i. induction cs as [|c cs IH]; intros [|i]; simpl; try reflexivity.
  - now rewrite Hf.
  - f_equal. apply IH.
Qed.

Lemma renderUtf8Text_loop_placements (clusters : list u32string) :
  forall screenPosition textAttributes_ allowMatchSearchPattern columnCountRendered
         b rendered b',
    renderUtf8Text_loop clusters screenPosition textAttributes_
      allowMatchSearchPattern columnCountRendered b = Done rendered b' ->
    rendered = columnCountRendered + textColumns clusters
    /\ map placement (outputCells b')
       = map placement (outputCells b)
         ++ textPlacements clusters (baseLine b + line screenPosition)
              (column screenPosition + columnCountRendered).
Proof.
  induction clusters as [|g clusters IH];
    intros screenPosition textAttributes_ allow n b rendered b' H.
  - inversion H; subst. simpl. split; [lia | now rewrite app_nil_r].
  - simpl in H. run_in H. simpl.
    destruct (graphemeClusterWidth g) as [w|]; [| discriminate]. simpl.
    unfold emplace_back, set_cells, set_output, set_lineNr, set_prevWidth,
           set_prevHasCursor in H. run_in H.
    match type of H with
    | match ?c ?b1 with _ => _ end = _ =>
        destruct (c b1) as [[] b2|] eqn:Hmatch; [| discriminate]
    end.
    apply IH in H. destruct H as [Hrendered Hcells].
    assert (Hstep : baseLine b2 = baseLine b
                    /\ map placement (outputCells b2)
                       = map placement (outputCells b)
                         ++ [(g, {| line := baseLine b + line screenPosition;
                                    column := column screenPosition + n |},
                              w mod 256)]).
    { destruct allow.
      - apply matchSearchPattern_uncolored in Hmatch.
        destruct Hmatch as (Hsame & Hkept & _).
        split; [apply Hkept |].
        rewrite (placement_uncolored _ _ Hsame).
        unfold outputCells; simpl. rewrite map_app. reflexivity.
      - inversion Hmatch; subst. split; [reflexivity |].
        unfold outputCells; simpl. rewrite map_app. reflexivity. }
    destruct Hstep as [Hbase Hfirst]. split; [lia |].
    rewrite Hcells, Hfirst, Hbase, <- app_assoc. simpl.
    replace (column screenPosition + (n + w)) with (column screenPosition + n + w) by lia.
    reflexivity.
Qed.

Lemma renderUtf8Text_loop_abort (clusters : list u32string) :
  forall screenPosition textAttributes_ allowMatchSearchPattern columnCountRendered
         b why,
    renderUtf8Text_loop clusters screenPosition textAttributes_
      allowMatchSearchPattern columnCountRendered b = Abort why ->
    In [] clusters
    \/ (allowMatchSearchPattern = true /\ highlightSearchMatches b = Yes).
Proof.
  induction clusters as [|g clusters IH];
    intros screenPosition textAttributes_ allow n b why H.
  - discriminate.
  - simpl in H. run_in H.
    destruct g as [|base rest]; [left; left; reflexivity |]. simpl in H.
    unfold emplace_back, set_cells, set_output, set_lineNr, set_prevWidth,
           set_prevHasCursor in H. run_in H.
    match type of H with
    | match ?c ?b1 with _ => _ end = _ =>
        destruct (c b1) as [[] b2|] eqn:Hmatch
    end.
    + assert (Hkept : highlightSearchMatches b2 = highlightSearchMatches b).
      { destruct allow.
        - apply matchSearchPattern_uncolored in Hmatch.
          destruct Hmatch as (_ & Hkept & _). apply Hkept.
        - inversion Hmatch; subst. reflexivity. }
      apply IH in H. destruct H as [Hin | [Hallow Hyes]].
      * left. right. exact Hin.
      * right. split; [exact Hallow | now rewrite <- Hkept].
    + destruct allow; [| discriminate]. right. split; [reflexivity |].
      destruct (highlightSearchMatches b) eqn:Hoff; [| reflexivity].
      rewrite BuilderTheory.matchSearchPattern_off in Hmatch by reflexivity.
      discriminate.
Qed.

(** X18.  [renderUtf8Text] lays a text out from left to right: it appends
    one cell for each grapheme cluster, holding the cluster, on the line of
    the text moved down by the base line, in the column after the columns of
    the clusters before it, with the width of the cluster as a byte, and it
    returns the sum of the widths.  It fails only on an empty cluster or in
    the search matcher, when that is let in and highlighting is on. *)
Theorem renderUtf8Text_places_clusters (screenPosition : CellLocation)
    (textAttributes_ : GraphicsAttributes) (text_ : list Z)
    (allowMatchSearchPattern : bool) (b : RenderBufferBuilder) :
  match renderUtf8Text screenPosition textAttributes_ text_ allowMatchSearchPattern b with
  | Done rendered b' =>
      rendered = textColumns (utf8_grapheme_segmenter text_)
      /\ map placement (outputCells b')
         = map placement (outputCells b)
           ++ textPlacements (utf8_grapheme_segmenter text_)
                (baseLine b + line screenPosition) (column screenPosition)
  | Abort _ =>
      In [] (utf8_grapheme_segmenter text_)
      \/ (allowMatchSearchPattern = true /\ highlightSearchMatches b = Yes)
  end.
Proof.
  unfold renderUtf8Text.
  destruct (renderUtf8Text_loop _ _ _ _ _ b) as [rendered b'|why] eqn:H.
  - apply renderUtf8Text_loop_placements in H. destruct H as [-> Hcells].
    split; [reflexivity |]. rewrite Hcells. now rewrite Z.add_0_r.
  - apply renderUtf8Text_loop_abort in H. exact H.
Qed.

Lemma fillRemaining_placements (columnOffsets : list Z) :
  forall lineBuffer lineOffset_ b,
  exists b',
    fillRemaining columnOffsets lineBuffer lineOffset_ b = Done tt b'
    /\ map placement (outputCells b')
       = map placement (outputCells b)
         ++ fillPlacements columnOffsets (baseLine b + lineOffset_).
Proof.
  induction columnOffsets as [|columnOffset rest IH]; intros lineBuffer lineOffset_ b.
  - exists b. split; [reflexivity |]. simpl. now rewrite app_nil_r.
  - simpl. run. unfold emplace_back, set_cells, set_output. run.
    match goal with
    | |- exists b', fillRemaining rest lineBuffer lineOffset_ ?b1 = _ /\ _ =>
        destruct (IH lineBuffer lineOffset_ b1) as (b' & Hrun & Hcells)
    end.
    exists b'. split; [exact Hrun |].
    rewrite Hcells. unfold outputCells; simpl.
    rewrite map_app, <- app_assoc. reflexivity.
Qed.

Lemma oneRun_alter (k : nat) :
  (0 < k)%nat ->
  alter (fun m : bool * bool => (fst m, true)) (k - 1)%nat
    (alter (fun m : bool * bool => (true, snd m)) 0%nat (replicate k (false, false)))
  = oneRun k.
Proof.
  intros Hk. destruct k as [|[|k]]; [lia | reflexivity |].
  replace (S (S k) - 1)%nat with (S k) by lia.
  change (alter (fun m : bool * bool => (fst m, true)) (S k)
            (alter (fun m : bool * bool => (true, snd m)) 0%nat
               (replicate (S (S k)) (false, false))))
    with ((true, false)
            :: alter (fun m : bool * bool => (fst m, true)) k
                 (replicate (S k) (false, false))).
  rewrite BuilderTheory.alter_last_replicate. reflexivity.
Qed.

(** X19.  What [renderTrivialLine] makes of a line: the clusters of the
    text from column 0 on, then an empty cell of width 1 for every column
    from the smaller of the used columns and the page width up to the page
    width, all on the line moved down by the base line; and, as long as the
    number of cells fits a [size_t], these cells are one run: the first one
    starts it, the last one ends it, and no cell between them carries a
    marker. *)
Theorem trivial_line_layout (lineBuffer : TrivialLineBuffer) (lineOffset_ : Z)
    (b b' : RenderBufferBuilder) :
  renderTrivialLine lineBuffer lineOffset_ b = Done tt b' ->
  let clusters := utf8_grapheme_segmenter (text lineBuffer) in
  let textMargin := Z.min (pageColumns (terminal b)) (usedColumns lineBuffer) in
  let fill := seqZ textMargin (pageColumns (terminal b) - textMargin) in
  map placement (outputCells b')
  = map placement (outputCells b)
    ++ textPlacements clusters (baseLine b + lineOffset_) 0
    ++ fillPlacements fill (baseLine b + lineOffset_)
  /\ (Z.of_nat (length (outputCells b')) < 2 ^ 64 ->
      outputMarkers b'
      = outputMarkers b ++ oneRun (length clusters + length fill)).
Proof.
  intros H clusters textMargin fill. unfold renderTrivialLine in H. run_in H.
  destruct (renderTrivialLine_cells lineBuffer lineOffset_ b) as [[] b1|] eqn:Hcells;
    [| discriminate].
  pose proof (BuilderTheory.renderTrivialLine_cells_markers _ _ _ _ _ Hcells)
    as [_ Hmarkers].
  assert (Hplaced : map placement (outputCells b1)
                    = map placement (outputCells b)
                      ++ textPlacements clusters (baseLine b + lineOffset_) 0
                      ++ fillPlacements fill (baseLine b + lineOffset_)).
  { clear H Hmarkers.
    unfold renderTrivialLine_cells, renderUtf8Text, set_searchPatternOffset in Hcells.
    run_in Hcells.
    match type of Hcells with
    | match ?c ?b0 with _ => _ end = _ =>
        destruct (c b0) as [rendered b2|] eqn:Htext; [| discriminate]
    end.
    pose proof (keepsFrame_renderUtf8Text_loop _ _ _ _ _ _ _ _ Htext) as Hkept.
    apply renderUtf8Text_loop_placements in Htext. destruct Htext as [_ Htext].
    match type of Hcells with
    | fillRemaining ?cols _ _ _ = _ =>
        destruct (fillRemaining_placements cols lineBuffer lineOffset_ b2)
          as (b3 & Hfill & Hfilled)
    end.
    rewrite Hfill in Hcells. inversion Hcells; subst b3.
    rewrite Hfilled, Htext.
    destruct Hkept as (_ & _ & Hbase & _). rewrite Hbase.
    unfold outputCells; simpl. rewrite <- app_assoc. reflexivity. }
  fold clusters in Hmarkers.
  replace (Z.to_nat (pageColumns (terminal b)
                     - Z.min (pageColumns (terminal b)) (usedColumns lineBuffer)))
    with (length fill) in Hmarkers by (unfold fill; now rewrite length_seqZ).
  set (k := (length clusters + length fill)%nat) in *.
  assert (Hlen : length (outputCells b1) = (length (outputCells b) + k)%nat).
  { rewrite <- !BuilderTheory.outputMarkers_length, Hmarkers, length_app, length_replicate.
    reflexivity. }
  unfold updateCell, set_cells, set_output in H. run_in H.
  unfold outputCells in *. simpl in H.
  destruct ((0 <=? Z.of_nat (length (cells (output b))))
            && (Z.of_nat (length (cells (output b)))
                <? Z.of_nat (length (cells (output b1))))) eqn:Hfront;
    [| discriminate].
  simpl in H. rewrite length_alter in H.
  destruct ((0 <=? wrap64 (Z.of_nat (length (cells (output b1))) - 1))
            && (wrap64 (Z.of_nat (length (cells (output b1))) - 1)
                <? Z.of_nat (length (cells (output b1))))) eqn:Hback;
    [| discriminate].
  inversion H; subst b'; clear H. simpl.
  split.
  - rewrite !placement_alter by reflexivity. exact Hplaced.
  - rewrite !length_alter. intros Hsize.
    apply andb_prop in Hfront. destruct Hfront as [_ Hfront]. apply Z.ltb_lt in Hfront.
    assert (Hk : (0 < k)%nat) by lia.
    rewrite BuilderTheory.wrap64_small by lia.
    unfold outputMarkers, outputCells in *. simpl.
    rewrite BuilderTheory.outputMarkers_alter, BuilderTheory.outputMarkers_alter_start,
      Hmarkers.
    replace (Z.to_nat (Z.of_nat (length (cells (output b1))) - 1))
      with (length (map runMarkers (cells (output b))) + (k - 1))%nat
      by (rewrite length_map; lia).
    replace (Z.to_nat (Z.of_nat (length (cells (output b)))))
      with (length (map runMarkers (cells (output b))) + 0)%nat
      by (rewrite length_map; lia).
    rewrite !alter_app_r, oneRun_alter by exact Hk. reflexivity.
Qed.

(** ** The preedit overlay *)

Lemma updateBack_marks (f : RenderCell -> RenderCell) b a b' :
  (forall c, placement (f c) = placement c) ->
  updateBack f b = Done a b' ->
  map placement (outputCells b') = map placement (outputCells b)
  /\ sameSettings b b'.
Proof.
  intros Hf H. unfold updateBack, set_cells, set_output in H. run_in H.
  unfold outputCells in *.
  destruct (cells (output b)) as [|c cs] eqn:Hcells; [discriminate |].
  inversion H; subst.
  cbn [output cells]. rewrite placement_alter by exact Hf.
  split; [reflexivity |]. unfold sameSettings; simpl. tauto.
Qed.

Lemma updateCell_marks (why : Failure) (i : Z) (f : RenderCell -> RenderCell) b a b' :
  (forall c, placement (f c) = placement c) ->
  updateCell why i f b = Done a b' ->
  map placement (outputCells b') = map placement (outputCells b)
  /\ sameSettings b b'.
Proof.
  intros Hf H. unfold updateCell, set_cells, set_output in H. run_in H.
  unfold outputCells in *.
  destruct (_ && _); [| discriminate].
  inversion H; subst.
  cbn [output cells]. rewrite placement_alter by exact Hf.
  split; [reflexivity |]. unfold sameSettings; simpl. tauto.
Qed.

Section WithCell.
Context {Cell : Type} {C : CellConcept Cell}.

Lemma keepsFrame_renderCell (screenCell : Cell) (_line _column : Z) :
  keepsFrame (renderCell screenCell _line _column).
Proof. unfold renderCell. keeps. Qed.

Lemma keepsFrame_renderCells (columns : list Cell) :
  forall _line _column, keepsFrame (renderCells columns _line _column).
Proof.
  induction columns as [|screenCell rest IH]; intros; simpl; keeps.
Qed.

Lemma keepsFrame_renderLine (_line : Z) (l : GridLine) :
  keepsFrame (renderLine _line l).
Proof.
  destruct l; simpl.
  - apply keepsFrame_renderTrivialLine.
  - pose proof keepsFrame_renderCells. keeps.
Qed.

Lemma keepsFrame_renderLines (grid : list GridLine) :
  forall _line, keepsFrame (renderLines grid _line).
Proof.
  induction grid as [|l rest IH]; intros; simpl; keeps.
  apply keepsFrame_renderLine.
Qed.

#[local] Arguments makeRenderCell : simpl never.
#[local] Arguments makeColorsForCell : simpl never.

(** What [renderCell] does with a cell of the grid when there is no preedit
    text and no column to skip. *)
Lemma renderCell_outcome (screenCell : Cell) (_line _column : Z)
      (b b' : RenderBufferBuilder) :
  preeditString (inputMethodData b) = [] ->
  inputMethodSkipColumns b = 0 ->
  renderCell screenCell _line _column b = Done tt b' ->
  let gridPosition :=
    translateScreenToGridCoordinate (terminal b) {| line := _line; column := _column |} in
  let colors := makeColorsForCell b gridPosition (cellFlags screenCell)
                  (cellForegroundColor screenCell) (cellBackgroundColor screenCell) in
  let customBackground :=
    negb (RGBColor_eqb (background colors) (defaultBackground (colorPalette (terminal b))))
    || negb (cellFlags screenCell =? 0) in
  map placement (outputCells b')
  = map placement (outputCells b)
    ++ (if negb (cellEmpty screenCell) || customBackground
        then [(cellCodepoints screenCell,
               {| line := baseLine b + _line; column := _column |},
               cellWidth screenCell)]
        else [])
  /\ prevWidth b' = cellWidth screenCell
  /\ prevHasCursor b' = CellLocation_eqb gridPosition (cursorPosition b)
  /\ cursor (output b') = cursor (output b).
Proof.
  intros Hpre Hskip H gridPosition colors customBackground.
  unfold renderCell in H. run_in H.
  rewrite Hpre in H. simpl in H. rewrite andb_false_r in H.
  rewrite Hskip in H. simpl in H.
  unfold set_prevWidth, set_prevHasCursor, set_state, set_isNewLine, emplace_back,
         updateBack, set_cells, set_output in H.
  unfold outputCells in *. run_in H.
  fold gridPosition in H. fold colors in H. fold customBackground in H.
  assert (Hframe : forall f n b1 placed,
             matchSearchPattern f n b1 = Done tt b' ->
             prevWidth b1 = cellWidth screenCell ->
             prevHasCursor b1 = CellLocation_eqb gridPosition (cursorPosition b) ->
             cursor (output b1) = cursor (output b) ->
             map placement (cells (output b1)) = placed ->
             map placement (cells (output b')) = placed
             /\ prevWidth b' = cellWidth screenCell
             /\ prevHasCursor b' = CellLocation_eqb gridPosition (cursorPosition b)
             /\ cursor (output b') = cursor (output b)).
  { intros f n b1 placed Hmatch Hw Hc Hcur Hplaced.
    destruct (matchSearchPattern_previous _ _ _ _ _ Hmatch) as [Hw' Hc'].
    destruct (matchSearchPattern_uncolored _ _ _ _ _ Hmatch) as (Hsame & _ & _).
    destruct (BuilderTheory.matchSearchPattern_frame _ _ _ _ _ Hmatch) as [Hsettings _].
    destruct Hsettings as (_ & _ & _ & _ & _ & _ & Hcur' & _).
    apply placement_uncolored in Hsame. unfold outputCells in Hsame.
    rewrite Hsame, Hw', Hc', Hcur'. auto. }
  destruct (state b) eqn:Hstate.
  - (* Gap *)
    destruct (negb (cellEmpty screenCell) || customBackground) eqn:Hemit; run_in H.
    + destruct (cells (output b) ++ [_]) as [|c0 cs0] eqn:Happ.
      { now destruct (cells (output b)). }
      rewrite <- Happ in H. clear Happ c0 cs0. run_in H.
      eapply Hframe; [exact H | reflexivity | reflexivity | reflexivity |]. simpl.
      rewrite placement_alter by reflexivity. rewrite map_app. reflexivity.
    + eapply Hframe; [exact H | reflexivity | reflexivity | reflexivity |]. simpl.
      now rewrite app_nil_r.
  - (* Sequence *)
    destruct (cellEmpty screenCell && negb customBackground) eqn:Hclose; run_in H.
    + assert (Hhidden : negb (cellEmpty screenCell) || customBackground = false)
        by (destruct (cellEmpty screenCell), customBackground; simpl in *; congruence).
      rewrite Hhidden.
      destruct (cells (output b)) as [|c0 cs0] eqn:Hcells; [discriminate |].
      rewrite <- Hcells in H |- *. run_in H.
      eapply Hframe; [exact H | reflexivity | reflexivity | reflexivity |]. simpl.
      rewrite placement_alter by reflexivity. now rewrite app_nil_r.
    + assert (Hshown : negb (cellEmpty screenCell) || customBackground = true)
        by (destruct (cellEmpty screenCell), customBackground; simpl in *; congruence).
      rewrite Hshown.
      destruct (isNewLine b) eqn:Hnewline; run_in H.
      * destruct (cells (output b) ++ [_]) as [|c0 cs0] eqn:Happ.
        { now destruct (cells (output b)). }
        rewrite <- Happ in H. clear Happ c0 cs0. run_in H.
        eapply Hframe; [exact H | reflexivity | reflexivity | reflexivity |]. simpl.
        rewrite placement_alter by reflexivity. rewrite map_app. reflexivity.
      * eapply Hframe; [exact H | reflexivity | reflexivity | reflexivity |]. simpl.
        rewrite map_app. reflexivity.
Qed.

(** X20.  Without preedit text [renderCell] emits a cell of the grid
    exactly when it is not empty or has a background of its own (colors
    other than the default background, or any flag): then one cell is
    appended, with the code points and the width of the grid cell, in its
    column and on its line moved down by the base line; otherwise no cell
    is appended.  The cells from before stay where they are. *)
Theorem renderCell_emits_visible_cells (screenCell : Cell) (_line _column : Z)
    (b b' : RenderBufferBuilder) :
  preeditString (inputMethodData b) = [] ->
  inputMethodSkipColumns b = 0 ->
  renderCell screenCell _line _column b = Done tt b' ->
  let gridPosition :=
    translateScreenToGridCoordinate (terminal b) {| line := _line; column := _column |} in
  let colors := makeColorsForCell b gridPosition (cellFlags screenCell)
                  (cellForegroundColor screenCell) (cellBackgroundColor screenCell) in
  let customBackground :=
    negb (RGBColor_eqb (background colors) (defaultBackground (colorPalette (terminal b))))
    || negb (cellFlags screenCell =? 0) in
  map placement (outputCells b')
  = map placement (outputCells b)
    ++ (if negb (cellEmpty screenCell) || customBackground
        then [(cellCodepoints screenCell,
               {| line := baseLine b + _line; column := _column |},
               cellWidth screenCell)]
        else []).
Proof.
  intros Hpre Hskip H.
  exact (proj1 (renderCell_outcome screenCell _line _column b b' Hpre Hskip H)).
Qed.

(** X21.  A wide character under a block cursor is painted as cursor in
    both of its columns: after [renderCell] has rendered a cell of width 2
    at the cursor position, the colors of whatever cell comes next are made
    with the cursor overlay, although that cell is not at the cursor
    position. *)
Theorem wide_cursor_covers_next_column (screenCell : Cell) (_line _column : Z)
    (b b' : RenderBufferBuilder) (cur : RenderCursor) :
  preeditString (inputMethodData b) = [] ->
  inputMethodSkipColumns b = 0 ->
  renderCell screenCell _line _column b = Done tt b' ->
  translateScreenToGridCoordinate (terminal b) {| line := _line; column := _column |}
  = cursorPosition b ->
  cellWidth screenCell = 2 ->
  cursor (output b) = Some cur ->
  shape cur = Block ->
  forall gridPosition cellFlags_ fg bg,
    makeColorsForCell b' gridPosition cellFlags_ fg bg
    = makeColors (colorPalette (terminal b)) cellFlags_ (reverseVideo b) fg bg
        (isSelected (terminal b) gridPosition) true
        (isHighlighted (terminal b) gridPosition)
        (blinkState (terminal b)) (rapidBlinkState (terminal b)).
Proof.
  intros Hpre Hskip H Hat Hwide Hcursor Hblock gridPosition cellFlags_ fg bg.
  destruct (renderCell_outcome screenCell _line _column b b' Hpre Hskip H)
    as (_ & Hw & Hc & Hcur).
  destruct (keepsFrame_renderCell screenCell _line _column b tt b' H)
    as (Hterminal & _ & _ & Hreverse & _).
  unfold makeColorsForCell.
  rewrite Hw, Hc, Hcur, Hcursor, Hblock, Hterminal, Hreverse, Hwide, Hat.
  assert (Hsame : CellLocation_eqb (cursorPosition b) (cursorPosition b) = true).
  { unfold CellLocation_eqb. now rewrite !Z.eqb_refl. }
  rewrite Hsame. simpl. rewrite orb_true_r. reflexivity.
Qed.

(** X22.  The preedit overlay, when it is rendered: at the cursor
    position, with a preedit text that takes [k] columns, [renderCell]
    appends the clusters of the preedit text from the column of the cursor
    on, moves the cursor of the output [k] columns to the right, leaves the
    automaton in [Gap] and does not render the grid cell itself: it is the
    first of the [k] grid cells that the overlay hides, and [k - 1] columns
    are left to skip. *)
Theorem preedit_overlay (screenCell : Cell) (_line _column : Z)
    (b b' : RenderBufferBuilder) :
  renderCell screenCell _line _column b = Done tt b' ->
  translateScreenToGridCoordinate (terminal b) {| line := _line; column := _column |}
  = cursorPosition b ->
  preeditString (inputMethodData b) <> [] ->
  let clusters := utf8_grapheme_segmenter (preeditString (inputMethodData b)) in
  0 < textColumns clusters ->
  map placement (outputCells b')
  = map placement (outputCells b)
    ++ textPlacements clusters (baseLine b + _line) _column
  /\ inputMethodSkipColumns b' = textColumns clusters - 1
  /\ state b' = Gap
  /\ exists cur,
       cursor (output b) = Some cur
       /\ cursor (output b')
          = Some {| cursorScreenPosition :=
                      {| line := line (cursorScreenPosition cur);
                         column := column (cursorScreenPosition cur)
                                   + textColumns clusters |};
                    shape := shape cur;
                    cursorWidth := cursorWidth cur |}.
Proof.
  intros H Hat Hpre clusters Hk.
  assert (Hne : negb (Z.of_nat (length (preeditString (inputMethodData b))) =? 0)
                = true).
  { destruct (preeditString (inputMethodData b)); [congruence | reflexivity]. }
  assert (Hsame : CellLocation_eqb (cursorPosition b) (cursorPosition b) = true).
  { unfold CellLocation_eqb. now rewrite !Z.eqb_refl. }
  assert (Hpos : (0 <? textColumns clusters) = true) by now apply Z.ltb_lt.
  unfold renderCell in H. run_in H. rewrite Hat, Hsame, Hne in H. simpl in H.
  unfold renderUtf8Text in H. fold clusters in H.
  match type of H with
  | match ?X with _ => _ end = _ =>
      destruct X as [[] s4|] eqn:Hoverlay; [| discriminate]
  end.
  match type of Hoverlay with
  | match ?X with _ => _ end = _ =>
      destruct X as [[] s0|] eqn:Hclose; [| discriminate]
  end.
  assert (Hclosed : map placement (outputCells s0) = map placement (outputCells b)
                    /\ sameSettings b s0).
  { destruct (negb (Z.of_nat (length (outputCells b)) =? 0)).
    - apply (updateBack_marks markGroupEnd b tt s0); [reflexivity | exact Hclose].
    - inversion Hclose; subst. split; [reflexivity | apply BuilderTheory.sameSettings_refl]. }
  destruct Hclosed as [Hcells0 Hsame0].
  match type of Hoverlay with
  | match ?X with _ => _ end = _ =>
      destruct X as [rendered s1|] eqn:Htext; [| discriminate]
  end.
  destruct (BuilderTheory.renderUtf8Text_loop_markers _ _ _ _ _ _ _ _ Htext)
    as [Hsame1 _].
  apply renderUtf8Text_loop_placements in Htext.
  destruct Htext as [Hrendered Hcells1]. rewrite Z.add_0_l in Hrendered. subst rendered.
  rewrite Z.add_0_r in Hcells1. simpl in Hcells1.
  rewrite Hpos in Hoverlay.
  pose proof (BuilderTheory.sameSettings_trans _ _ _ Hsame0 Hsame1) as Hsettings.
  destruct Hsettings as (_ & _ & Hbase & _ & _ & _ & Hcursor & _).
  destruct Hsame0 as (_ & _ & Hbase0 & _).
  unfold set_cursor, set_output, set_inputMethodSkipColumns, set_state in Hoverlay, H.
  run_in Hoverlay.
  destruct (cursor (output s1)) as [cur|] eqn:Hcur; [| discriminate].
  match type of Hoverlay with
  | match ?X with _ => _ end = _ =>
      destruct X as [[] s3|] eqn:Hend; [| discriminate]
  end.
  match type of Hend with
  | match ?X with _ => _ end = _ =>
      destruct X as [[] s2|] eqn:Hstart; [| discriminate]
  end.
  apply updateCell_marks in Hstart; [| reflexivity].
  destruct Hstart as [Hcells2 Hsame2].
  apply updateBack_marks in Hend; [| reflexivity].
  destruct Hend as [Hcells3 Hsame3].
  inversion Hoverlay; subst s4; clear Hoverlay.
  pose proof (BuilderTheory.sameSettings_trans _ _ _ Hsame2 Hsame3) as Hsettings.
  destruct Hsettings as (_ & _ & _ & _ & _ & _ & Hcursor3 & _ & _ & Hskip3).
  simpl in H, Hcursor3, Hskip3. rewrite Hskip3 in H. simpl in H.
  rewrite Hpos in H. run_in H. inversion H; subst b'; clear H.
  unfold outputCells in *. simpl in *.
  repeat split.
  - rewrite Hcells3, Hcells2, Hcells1, Hcells0, Hbase0. reflexivity.
  - exists cur. split; [now rewrite <- Hcursor | exact Hcursor3].
Qed.

(** X17.  A frame only adds to what it was given, with or without preedit
    text and search highlighting: whatever lines are rendered, the builder
    ends with the terminal, cursor position, base line and settings it was
    constructed with, the frame id and the [lines] of the output are those
    from before (the path of [renderTrivialLine] that would add a
    [RenderLine] is switched off), and the output has no fewer cells. *)
Theorem frame_only_adds_cells (grid : list GridLine) (_line : Z)
    (b b' : RenderBufferBuilder) :
  renderLines grid _line b = Done tt b' ->
  terminal b' = terminal b
  /\ cursorPosition b' = cursorPosition b
  /\ baseLine b' = baseLine b
  /\ reverseVideo b' = reverseVideo b
  /\ highlightSearchMatches b' = highlightSearchMatches b
  /\ inputMethodData b' = inputMethodData b
  /\ frameID (output b') = frameID (output b)
  /\ lines (output b') = lines (output b)
  /\ (length (outputCells b) <= length (outputCells b'))%nat.
Proof. intros H. exact (keepsFrame_renderLines grid _line b tt b' H). Qed.

End WithCell.
End Layout.

(** ** The theorems on concrete frames *)

Import Fixture.

Lemma matchSearchPattern_only_recolors_witness :
  match matchSearchPattern (fun text_ => beginsWith text_ [97]) 1 blockFrame with
  | Done _ b' =>
      map uncolored (outputCells b') = map uncolored (outputCells blockFrame)
      /\ cursor (output b') = cursor (output blockFrame)
      /\ state b' = state blockFrame
      /\ (highlightSearchMatches blockFrame = Yes ->
          searchPattern (terminal blockFrame) <> [] ->
          0 <= searchPatternOffset b'
            < Z.of_nat (length (searchPattern (terminal blockFrame))))
  | Abort _ => False
  end.
Proof.
  destruct (matchSearchPattern (fun text_ => beginsWith text_ [97]) 1 blockFrame)
    as [[] b'|why] eqn:H.
  - apply (matchSearchPattern_only_recolors _ _ _ _ H).
  - vm_compute in H. discriminate.
Defined.

Lemma frame_only_adds_cells_witness :
  match renderLines wideGrid 0 wideFrame with
  | Done _ b' =>
      terminal b' = terminal wideFrame
      /\ cursorPosition b' = cursorPosition wideFrame
      /\ baseLine b' = baseLine wideFrame
      /\ reverseVideo b' = reverseVideo wideFrame
      /\ highlightSearchMatches b' = highlightSearchMatches wideFrame
      /\ inputMethodData b' = inputMethodData wideFrame
      /\ frameID (output b') = frameID (output wideFrame)
      /\ lines (output b') = lines (output wideFrame)
      /\ (length (outputCells wideFrame) <= length (outputCells b'))%nat
  | Abort _ => False
  end.
Proof.
  destruct (renderLines wideGrid 0 wideFrame) as [[] b'|why] eqn:H.
  - apply (frame_only_adds_cells wideGrid 0 wideFrame b' H).
  - vm_compute in H. discriminate.
Defined.

Lemma trivial_line_layout_witness :
  match renderTrivialLine lineAB 0 twoColumnFrame with
  | Done _ b' =>
      map placement (outputCells b')
      = [([97], {| line := 0; column := 0 |}, 1); ([98], {| line := 0; column := 1 |}, 1)]
      /\ (Z.of_nat (length (outputCells b')) < 2 ^ 64 ->
          outputMarkers b' = [(true, false); (false, true)])
  | Abort _ => False
  end.
Proof.
  destruct (renderTrivialLine lineAB 0 twoColumnFrame) as [[] b'|why] eqn:H.
  - exact (trivial_line_layout lineAB 0 twoColumnFrame b' H).
  - vm_compute in H. discriminate.
Defined.

Lemma renderCell_emits_visible_cells_witness :
  match renderCell (glyph 97) 0 1 twoColumnFrame with
  | Done _ b' =>
      map placement (outputCells b') = [([97], {| line := 0; column := 1 |}, 1)]
  | Abort _ => False
  end.
Proof.
  destruct (renderCell (glyph 97) 0 1 twoColumnFrame) as [[] b'|why] eqn:H.
  - exact (renderCell_emits_visible_cells (glyph 97) 0 1 twoColumnFrame b'
             eq_refl eq_refl H).
  - vm_compute in H. discriminate.
Defined.

Lemma wide_cursor_covers_next_column_witness :
  match renderCell (wideGlyph 0x4E2D) 0 0 blockFrame with
  | Done _ b' =>
      forall gridPosition cellFlags_ fg bg,
        makeColorsForCell b' gridPosition cellFlags_ fg bg
        = makeColors palette cellFlags_ false fg bg false true false true true
  | Abort _ => False
  end.
Proof.
  destruct (renderCell (wideGlyph 0x4E2D) 0 0 blockFrame) as [[] b'|why] eqn:H.
  - apply (wide_cursor_covers_next_column (wideGlyph 0x4E2D) 0 0 blockFrame b'
             {| cursorScreenPosition := origin; shape := Block; cursorWidth := 1 |}
             eq_refl eq_refl H);
      reflexivity.
  - vm_compute in H. discriminate.
Defined.

Lemma preedit_overlay_witness :
  match renderCell blank 0 1 narrowFrame with
  | Done _ b' =>
      map placement (outputCells b')
      = [([120], {| line := 0; column := 1 |}, 1); ([121], {| line := 0; column := 2 |}, 1)]
      /\ inputMethodSkipColumns b' = 1
      /\ state b' = Gap
      /\ exists cur,
           cursor (output narrowFrame) = Some cur
           /\ cursor (output b')
              = Some {| cursorScreenPosition :=
                          {| line := line (cursorScreenPosition cur);
                             column := column (cursorScreenPosition cur) + 2 |};
                        shape := shape cur;
                        cursorWidth := cursorWidth cur |}
  | Abort _ => False
  end.
Proof.
  destruct (renderCell blank 0 1 narrowFrame) as [[] b'|why] eqn:H.
  - apply (preedit_overlay blank 0 1 narrowFrame b' H).
    + reflexivity.
    + discriminate.
    + vm_compute. reflexivity.
  - vm_compute in H. discriminate.
Defined.

End BuilderLayout.
